(** * Verification of [tianshou.data.collector]

    A shallow embedding of [tianshou/data/collector.py]: the
    [Collector] class (construction, the resets, [collect], [sample]) and
    the module-level helper [_batch_set_item].

    Conventions of the embedding.
    - Python integers, and numpy floats that only ever hold integral
      values ([episode_count]), are [Z].
    - Other floats (rewards, wall-clock time, rates) are idealised as
      rationals [Q]; numpy's non-finite results of a division by zero are
      kept ([fl]).  Rounding is not modelled.
    - Arrays and tensors are mutable objects: they live in a store
      ([heap]) and records ([Batch]) refer to them by location.
    - Code that can raise returns [Raise e s], with the state reached
      when the exception left the function.  Two of the exceptions are
      not Python's: [DanglingReference] (a location without an object)
      and [Unsupported] (an assignment between arrays whose conversion
      the embedding does not follow).
    - The environments, the policy, the clock and the optional hooks are
      collaborators of the collector: they are the fields of a record
      [Externals] over an arbitrary world state. *)

From stdpp Require Import gmap strings list fin_maps.
From Stdlib Require Import ZArith QArith Qminmax Lia Lqa.

Close Scope Q_scope.
Open Scope Z_scope.
Open Scope nat_scope.

(** ** Exceptions and the state-and-exception monad *)

Inductive exn : Type :=
| AssertionError
| RuntimeError
| ValueError
| IndexError
| TypeError
| KeyError
| AttributeError
| ZeroDivisionError
| DanglingReference
| Unsupported.

(** A value or an exception, for code without side effects. *)
Inductive result (A : Type) : Type :=
| Success (a : A)
| Failure (e : exn).
Arguments Success {A} a.
Arguments Failure {A} e.

(** The outcome of a command run from a state of type [S]. *)
Inductive Res (S A : Type) : Type :=
| Ok (a : A) (s : S)
| Raise (e : exn) (s : S).
Arguments Ok {S A} a s.
Arguments Raise {S A} e s.

Definition M (S A : Type) : Type := S -> Res S A.

Definition ret {S A} (a : A) : M S A := fun s => Ok a s.

Definition raise {S A} (e : exn) : M S A := fun s => Raise e s.

Definition bind {S A B} (m : M S A) (k : A -> M S B) : M S B :=
  fun s => match m s with
           | Ok a s' => k a s'
           | Raise e s' => Raise e s'
           end.

Definition get_state {S} : M S S := fun s => Ok s s.

Definition modify {S} (f : S -> S) : M S unit := fun s => Ok tt (f s).

Definition lift_result {S A} (r : result A) : M S A :=
  match r with
  | Success a => ret a
  | Failure e => raise e
  end.

Declare Scope py_scope.
Delimit Scope py_scope with py.
Notation "x <- m ;; k" := (bind m (fun x => k))
  (at level 100, m at next level, right associativity) : py_scope.
Notation "m ;;; k" := (bind m (fun _ => k))
  (at level 100, right associativity) : py_scope.
Open Scope py_scope.

(** The state in which a command ends, whatever its outcome. *)
Definition final_state {S A} (r : Res S A) : S :=
  match r with
  | Ok _ s => s
  | Raise _ s => s
  end.

(** ** Values held by arrays *)

(** One entry along the first axis of an array: the value a field has
    for one environment position. *)
Inductive cell : Type :=
| CNone
| CBool (b : bool)
| CInt (z : Z)
| CFloat (q : Q)
| CVec (v : list Q)
| CInfo (env_id : option nat) (payload : Z).

(** What kind of container holds the rows; [_reset_state] and
    [_create_value] dispatch on it. *)
Inductive akind : Type :=
| Tensor
| Ndarray
| ObjArray
| BatchRows.

Record array : Type := mkArray { kind : akind; rows : list cell }.

(** The zero of the type of a template element. *)
Definition zero_like (c : cell) : cell :=
  match c with
  | CNone => CNone
  | CBool _ => CBool false
  | CInt _ => CInt 0%Z
  | CFloat _ => CFloat 0%Q
  | CVec v => CVec (map (fun _ => 0%Q) v)
  | CInfo _ _ => CNone
  end.

(** Modelled from the spec: [_create_value] of [tianshou/data/batch.py]
    is not part of the sources at hand.  "Allocate a full-size container
    (length = size) using self's first element as a shape/type
    template": the container has the template's kind and [size] rows,
    each the zero of the template's type. *)
Definition _create_value (inst : akind * cell) (size : nat) : array :=
  mkArray (fst inst) (repeat (zero_like (snd inst)) size).

(** [v[0]]: the first row, with the kind of its container. *)
Definition first_row (v : array) : result (akind * cell) :=
  match rows v with
  | [] => Failure IndexError
  | c :: _ => Success (kind v, c)
  end.

(** numpy broadcasting of the right-hand side of [a[indices] = v] to the
    number of indices. *)
Definition broadcast_rows (n : nat) (v : list cell) : result (list cell) :=
  if decide (length v = n) then Success v
  else match v with
       | [c] => Success (repeat c n)
       | _ => Failure ValueError
       end.

(** The writes of [a[indices] = v], index by index, later writes winning. *)
Fixpoint write_rows (a : list cell) (indices : list nat) (v : list cell)
  : list cell :=
  match indices, v with
  | i :: indices', c :: v' => write_rows (<[i:=c]> a) indices' v'
  | _, _ => a
  end.

(** Whether a value has the element type and the row shape of a row of
    the array it is written into. *)
Definition same_type (t c : cell) : bool :=
  match t, c with
  | CNone, CNone | CBool _, CBool _ | CInt _, CInt _ | CFloat _, CFloat _
  | CInfo _ _, CInfo _ _ => true
  | CVec u, CVec v => bool_decide (length u = length v)
  | _, _ => false
  end.

(** numpy's conversion of a value [c] to the element type of the row
    [t] it replaces in a numeric array.  Numbers are converted as C
    does: a float loses its fraction in an integer array, a number is
    true in a boolean array unless it is zero.  A row of one component
    is broadcast to the length of the rows, a row of another length is
    refused.  A number written over a vector, a vector over a number
    and an object written over a number are not followed. *)
Definition np_cast (t c : cell) : result cell :=
  match t, c with
  | CBool _, CInt z => Success (CBool (negb (z =? 0)%Z))
  | CBool _, CFloat q => Success (CBool (negb (Qeq_bool q 0)))
  | CInt _, CBool b => Success (CInt (if b then 1 else 0)%Z)
  | CInt _, CFloat q => Success (CInt (Z.quot (Qnum q) (Zpos (Qden q))))
  | CFloat _, CBool b => Success (CFloat (if b then 1 else 0)%Q)
  | CFloat _, CInt z => Success (CFloat (inject_Z z))
  | CVec u, CVec [y] => Success (CVec (map (fun _ => y) u))
  | CVec _, CVec _ => Failure ValueError
  | _, _ => Failure Unsupported
  end.

(** The value stored when [c], from an array of kind [kv], replaces the
    row [t] of an array of kind [kd].  An array of objects takes
    objects, and a record rows of a record, as they are.  A numpy array
    and a tensor take a value of their own element type and row shape
    as it is; a numpy array converts any other ([np_cast]).  Writes
    between containers of two kinds, and into a tensor of another
    element type, are not followed. *)
Definition np_astype (kd kv : akind) (t c : cell) : result cell :=
  match kd, kv with
  | ObjArray, ObjArray | BatchRows, BatchRows => Success c
  | Ndarray, Ndarray =>
      if same_type t c then Success c else np_cast t c
  | Tensor, Tensor =>
      if same_type t c then Success c else Failure Unsupported
  | _, _ => Failure Unsupported
  end.

(** The values of [a[indices] = v], each converted to the type of the
    row it replaces. *)
Fixpoint astype_rows (kd kv : akind) (a : list cell) (indices : list nat)
    (v : list cell) : result (list cell) :=
  match indices, v with
  | i :: indices', c :: v' =>
      match a !! i with
      | None => Failure IndexError
      | Some t =>
          match np_astype kd kv t c, astype_rows kd kv a indices' v' with
          | Success c', Success r => Success (c' :: r)
          | Failure e, _ => Failure e
          | _, Failure e => Failure e
          end
      end
  | _, _ => Success []
  end.

(** [a[indices] = v] on the rows of an array [a]: numpy checks the
    indices and the shapes, and converts the values to the element type
    of [a], before it writes anything. *)
Definition set_rows (a : array) (indices : list nat) (v : array)
  : result (list cell) :=
  if decide (Forall (fun i => i < length (rows a)) indices) then
    match broadcast_rows (length indices) (rows v) with
    | Success v' =>
        match astype_rows (kind a) (kind v) (rows a) indices v' with
        | Success v'' => Success (write_rows (rows a) indices v'')
        | Failure e => Failure e
        end
    | Failure e => Failure e
    end
  else Failure IndexError.

(** [a[indices]] with an array of indices: a copy of the selected rows. *)
Fixpoint take_rows {A} (a : list A) (indices : list nat) : result (list A) :=
  match indices with
  | [] => Success []
  | i :: indices' =>
      match a !! i, take_rows a indices' with
      | Some c, Success r => Success (c :: r)
      | None, _ => Failure IndexError
      | _, Failure e => Failure e
      end
  end.

(** ** The store of arrays, and records over it *)

Abbreviation loc := nat (only parsing).
Abbreviation heap := (gmap nat array) (only parsing).

(** A field of a record is the placeholder [Batch()] or an array. *)
Inductive fval : Type :=
| Placeholder
| Arr (l : loc).

(** A [Batch]: its keys in insertion order, each with its field. *)
Definition Batch : Type := list (string * fval).

Fixpoint bget (k : string) (b : Batch) : option fval :=
  match b with
  | [] => None
  | (k', v) :: b' => if decide (k' = k) then Some v else bget k b'
  end.

(** [b.__dict__[k] = v]: rebinds an existing key in place, appends a new one. *)
Fixpoint bset (k : string) (v : fval) (b : Batch) : Batch :=
  match b with
  | [] => [(k, v)]
  | (k', v') :: b' =>
      if decide (k' = k) then (k, v) :: b' else (k', v') :: bset k v b'
  end.

(** [b.get(k, Batch())] *)
Definition bget_default (k : string) (b : Batch) : fval :=
  match bget k b with
  | Some v => v
  | None => Placeholder
  end.

(** [isinstance(v, Batch) and v.is_empty()] *)
Definition is_reserved (v : fval) : bool :=
  match v with
  | Placeholder => true
  | Arr _ => false
  end.

Definition load (l : loc) : M heap array :=
  fun h => match h !! l with
           | Some a => Ok a h
           | None => Raise DanglingReference h
           end.

Definition store (l : loc) (a : array) : M heap unit :=
  fun h => Ok tt (<[l:=a]> h).

(** A new object gets a location no live object has. *)
Definition alloc (a : array) : M heap loc :=
  fun h => let l := fresh (dom h) in Ok l (<[l:=a]> h).

(** [dst[indices] = src] between two arrays of the store. *)
Definition assign_rows (dst : loc) (indices : list nat) (src : loc)
  : M heap unit :=
  d <- load dst ;;
  v <- load src ;;
  r <- lift_result (set_rows d indices v) ;;
  store dst (mkArray (kind d) r).

(** ** [_batch_set_item] *)

(** The body of [for k, v in target.items()] for a key whose field [v]
    is non-reserved; [source] is the full-width record, [target] the
    working one (the names are those of the code). *)
Definition _batch_set_item_body (k : string) (lv : loc) (source : Batch)
    (indices : list nat) (size : nat) : M heap Batch :=
  let vs := bget_default k source in
  source' <-
    (if is_reserved vs then
       (* case 2: source[k] does not exist or is reserved *)
       a <- load lv ;;
       inst <- lift_result (first_row a) ;;
       l <- alloc (_create_value inst size) ;;
       ret (bset k (Arr l) source)
     else ret source) ;;
  match bget_default k source' with
  | Arr ls => assign_rows ls indices lv
  | Placeholder => raise TypeError
  end ;;;
  ret source'.

Fixpoint _batch_set_item_loop (items : list (string * fval)) (source : Batch)
    (indices : list nat) (size : nat) : M heap Batch :=
  match items with
  | [] => ret source
  | (k, v) :: items' =>
      match v with
      | Placeholder =>
          (* target[k] is reserved, case 1: continue *)
          _batch_set_item_loop items' source indices size
      | Arr lv =>
          source' <- _batch_set_item_body k lv source indices size ;;
          _batch_set_item_loop items' source' indices size
      end
  end.

Definition _batch_set_item (source : Batch) (indices : list nat)
    (target : Batch) (size : nat) : M heap Batch :=
  _batch_set_item_loop target source indices size.

(** *** Well-formedness of the records passed to [_batch_set_item] *)

(** The arrays a record refers to are live objects. *)
Definition fields_live (h : heap) (b : Batch) : Prop :=
  forall k l, bget k b = Some (Arr l) -> l ∈ dom h.

(** Distinct keys of a record hold distinct arrays. *)
Definition fields_distinct (b : Batch) : Prop :=
  forall k1 k2 l,
    bget k1 b = Some (Arr l) -> bget k2 b = Some (Arr l) -> k1 = k2.

(** No array of [b1] is an array of [b2]. *)
Definition fields_apart (b1 b2 : Batch) : Prop :=
  forall k1 k2 l,
    bget k1 b1 = Some (Arr l) -> bget k2 b2 = Some (Arr l) -> False.

(** What Python guarantees of a full-width record and a working record
    gathered from it: keys are unique, references are live, and the two
    records share no array (a gather copies). *)
Definition scatter_ready (h : heap) (source target : Batch) : Prop :=
  NoDup (target.*1) /\ fields_live h source /\ fields_live h target /\
  fields_distinct source /\ fields_apart source target.

(** The arrays a record refers to, in the order of its keys. *)
Definition locs (b : Batch) : list loc :=
  omap (fun kv => match snd kv with Arr l => Some l | Placeholder => None end) b.

(** [scatter_ready], as a test that can be run. *)
Definition scatter_readyb (h : heap) (source target : Batch) : bool :=
  bool_decide (NoDup (target.*1)) &&
  forallb (fun l => bool_decide (is_Some (h !! l))) (locs source) &&
  forallb (fun l => bool_decide (is_Some (h !! l))) (locs target) &&
  bool_decide (NoDup (locs source)) &&
  forallb (fun l => bool_decide (l ∉ locs target)) (locs source).

(** The container the values [v] of key [k] are written into: the array
    the full-width record already has there, or, when the key is missing
    or reserved, a new array of [size] rows made from the first row of
    [v].  [ls] is where the container lives, [base] what it holds before
    the write. *)
Definition scatter_base (h : heap) (source : Batch) (k : string) (v : array)
    (size : nat) (ls : loc) (base : array) : Prop :=
  match bget_default k source with
  | Arr l0 => ls = l0 /\ h !! l0 = Some base
  | Placeholder =>
      (ls ∉ dom h) /\
      (exists c, first_row v = Success (kind v, c) /\
                 base = _create_value (kind v, c) size /\
                 length (rows base) = size)
  end.

(** ** Reading and building records *)

(** One transition: the row [self.data[j]], key by key; reserved fields
    have no row. *)
Definition Transition : Type := list (string * cell).

Fixpoint row_get (k : string) (t : Transition) : option cell :=
  match t with
  | [] => None
  | (k', c) :: t' => if decide (k' = k) then Some c else row_get k t'
  end.

(** [b[ids]] with an array of indices: every non-reserved field is
    copied, restricted to the rows [ids]; reserved fields stay reserved. *)
Fixpoint batch_select (b : Batch) (ids : list nat) : M heap Batch :=
  match b with
  | [] => ret []
  | (k, Placeholder) :: b' =>
      r <- batch_select b' ids ;; ret ((k, Placeholder) :: r)
  | (k, Arr l) :: b' =>
      a <- load l ;;
      rs <- lift_result (take_rows (rows a) ids) ;;
      l' <- alloc (mkArray (kind a) rs) ;;
      r <- batch_select b' ids ;;
      ret ((k, Arr l') :: r)
  end.

(** [b[j]] with an integer: row [j] of every non-reserved field. *)
Fixpoint batch_row (b : Batch) (j : nat) : M heap Transition :=
  match b with
  | [] => ret []
  | (k, Placeholder) :: b' => batch_row b' j
  | (k, Arr l) :: b' =>
      a <- load l ;;
      match rows a !! j with
      | None => raise IndexError
      | Some c => t <- batch_row b' j ;; ret ((k, c) :: t)
      end
  end.

(** The contents of a record, as handed to a collaborator ([**b]). *)
Fixpoint batch_read (b : Batch) : M heap (list (string * option array)) :=
  match b with
  | [] => ret []
  | (k, Placeholder) :: b' => r <- batch_read b' ;; ret ((k, None) :: r)
  | (k, Arr l) :: b' =>
      a <- load l ;; r <- batch_read b' ;; ret ((k, Some a) :: r)
  end.

(** [b.update(k=v)] for a value received from a collaborator: [None] is
    an empty [Batch()], an array becomes a new object of the store. *)
Definition batch_put (k : string) (v : option array) (b : Batch)
  : M heap Batch :=
  match v with
  | None => ret (bset k Placeholder b)
  | Some a => l <- alloc a ;; ret (bset k (Arr l) b)
  end.

(** [b.update(r)] for a record [r] returned by a collaborator. *)
Fixpoint batch_update (r : list (string * array)) (b : Batch) : M heap Batch :=
  match r with
  | [] => ret b
  | (k, a) :: r' => b' <- batch_put k (Some a) b ;; batch_update r' b'
  end.

(** ** Numbers *)

(** A float that may be non-finite: numpy divides by zero with a
    warning and one of these results, where Python itself raises. *)
Inductive fl : Type :=
| Fin (q : Q)
| NaN
| PInf
| NInf.

Definition np_div (a b : Q) : fl :=
  if Qeq_bool b 0 then
    if Qeq_bool a 0 then NaN
    else if Qle_bool 0 a then PInf else NInf
  else Fin (a / b).

(** The number held by a scalar cell. *)
Definition cell_num (c : cell) : option Q :=
  match c with
  | CBool b => Some (if b then 1%Q else 0%Q)
  | CInt z => Some (inject_Z z)
  | CFloat q => Some q
  | _ => None
  end.

(** Truth value of a cell ([if self.data.done[j]]). *)
Definition cell_truthy (c : cell) : result bool :=
  match c with
  | CNone => Success false
  | CBool b => Success b
  | CInt z => Success (negb (z =? 0)%Z)
  | CFloat q => Success (negb (Qeq_bool q 0))
  | CVec [] => Success false
  | CVec [q] => Success (negb (Qeq_bool q 0))
  | CVec _ => Failure ValueError
  | CInfo _ _ => Success true
  end.

(** The sum of two rows of one array: they have the same shape. *)
Definition row_add (a b : cell) : result cell :=
  match a, b with
  | CVec u, CVec v =>
      if decide (length u = length v)
      then Success (CVec (zip_with Qplus u v))
      else Failure ValueError
  | _, _ =>
      match cell_num a, cell_num b with
      | Some x, Some y => Success (CFloat (x + y))
      | _, _ => Failure TypeError
      end
  end.

(** [np.sum(l, axis=0)] of a list of rows. *)
Fixpoint np_sum_axis0 (l : list cell) : result cell :=
  match l with
  | [] => Success (CFloat 0)
  | c :: l' =>
      match np_sum_axis0 l' with
      | Failure e => Failure e
      | Success r =>
          match l' with
          | [] => row_add c (zero_like c)
          | _ => row_add c r
          end
      end
  end.

(** [a += b] for the running reward total: a scalar total takes the
    shape of [b]; a vector total is updated in place and keeps its own. *)
Definition np_iadd (a b : cell) : result cell :=
  match a, b with
  | CVec u, CVec v =>
      if decide (length u = length v)
      then Success (CVec (zip_with Qplus u v))
      else match v with
           | [y] => Success (CVec (map (fun x => x + y)%Q u))
           | _ => Failure ValueError
           end
  | CVec u, _ =>
      match cell_num b with
      | Some y => Success (CVec (map (fun x => x + y)%Q u))
      | None => Failure TypeError
      end
  | _, CVec v =>
      match cell_num a with
      | Some x => Success (CVec (map (fun y => x + y)%Q v))
      | None => Failure TypeError
      end
  | _, _ =>
      match cell_num a, cell_num b with
      | Some x, Some y => Success (CFloat (x + y))
      | _, _ => Failure TypeError
      end
  end.

Definition sum_Z (l : list Z) : Z := foldr Z.add 0%Z l.

(** ** The arguments of [collect] *)

(** What a caller may pass as [n_episode]: the annotated types ([None],
    an [int], a [list] of ints) and the look-alikes Python lets through
    (a tuple, a numpy integer, a numpy array). *)
Inductive pyval : Type :=
| PyNone
| PyInt (n : Z)
| PyList (l : list Z)
| PyTuple (l : list Z)
| NpInt (n : Z)
| NpArray (l : list Z).

(** [bool(v)].  numpy refuses to decide the truth of an array of more
    than one element. *)
Definition truthy (v : pyval) : result bool :=
  match v with
  | PyNone => Success false
  | PyInt n | NpInt n => Success (negb (n =? 0)%Z)
  | PyList l | PyTuple l => Success (negb (bool_decide (l = [])))
  | NpArray [] => Success false
  | NpArray [n] => Success (negb (n =? 0)%Z)
  | NpArray _ => Failure ValueError
  end.

(** [np.isscalar(v)] *)
Definition np_isscalar (v : pyval) : bool :=
  match v with
  | PyInt _ | NpInt _ => true
  | _ => false
  end.



(** [v[i]] *)
Definition py_index (v : pyval) (i : nat) : result Z :=
  match v with
  | PyList l | PyTuple l | NpArray l =>
      match l !! i with
      | Some n => Success n
      | None => Failure IndexError
      end
  | PyNone | PyInt _ => Failure TypeError
  | NpInt _ => Failure IndexError
  end.

(** [(count >= target).all()] for the array [count] and the list
    [target], with numpy's broadcasting of a length-one operand. *)
Definition np_all_ge (count target : list Z) : result bool :=
  if decide (length count = length target) then
    Success (forallb (fun p => (snd p <=? fst p)%Z) (zip count target))
  else match count, target with
       | [c], _ => Success (forallb (fun t => (t <=? c)%Z) target)
       | _, [t] => Success (forallb (fun c => (t <=? c)%Z) count)
       | _, _ => Failure ValueError
       end.

Record Config : Type := mkConfig {
  n_step : option Z;
  n_episode : pyval;
  random : bool;
  render : option Q
}.

(** [bool(n_step)] *)
Definition step_truthy (n : option Z) : bool :=
  match n with
  | None => false
  | Some z => negb (z =? 0)%Z
  end.

(** ** The collector and what surrounds it *)

(** [ListReplayBuffer]: the transitions of the episode in progress.
    Modelled from the spec: [add] appends, the length is the number of
    steps accumulated, [reset] clears. *)
Definition ListReplayBuffer : Type := list Transition.

(** The [rew] attribute of a cache: the reward of every cached step. *)
Definition cache_rew (b : ListReplayBuffer) : list cell :=
  map (fun t => default CNone (row_get "rew" t)) b.

(** The permanent buffer.  Modelled from the spec: [update] takes in a
    whole episode cache, [reset] empties the buffer; eviction is not
    modelled. *)
Definition ReplayBuffer : Type := list Transition.

Record Collector : Type := mkCollector {
  env_num : nat;
  _ready_env_ids : list nat;
  is_async : bool;
  _cached_buf : list ListReplayBuffer;
  collect_time : Q;
  collect_step : Z;
  collect_episode : Z;
  buffer : option ReplayBuffer;
  data : Batch
}.

(** Calls that leave the collector, in the order they are made. *)
Inductive event : Type :=
| EvStep (ids : option (list nat))
| EvReset (ids : option (list nat))
| EvWarn
| EvRender
| EvSleep (t : Q)
| EvSeed
| EvClose
| EvNoiseReset.

Record State (W : Type) : Type := mkState {
  st_heap : heap;
  st_world : W;
  st_self : Collector;
  st_trace : list event
}.
Arguments mkState {W} _ _ _ _.
Arguments st_heap {W} _.
Arguments st_world {W} _.
Arguments st_self {W} _.
Arguments st_trace {W} _.

(** What the policy returns: [act], and [state] and [policy] when it
    has them ([None] stands for a missing key, [None] or [Batch()]). *)
Record PolicyResult : Type := mkPolicyResult {
  r_act : array;
  r_state : option array;
  r_policy : option array
}.

(** What [env.step] returns: [obs_next], [rew], [done], [info]. *)
Record StepResult : Type := mkStepResult {
  s_obs_next : array;
  s_rew : array;
  s_done : array;
  s_info : array
}.

(** The collaborators of a collector, over a world state [W] that holds
    the environments, the policy's parameters, the random generators
    and the clock.  They are assumed not to raise. *)
Record Externals (W : Type) : Type := mkExternals {
  env_reset : option (list nat) -> W -> W * array;
  env_step : array -> option (list nat) -> W -> W * StepResult;
  action_space_sample : nat -> W -> W * cell;
  policy_forward :
    list (string * option array) -> option array -> W -> W * PolicyResult;
  preprocess_fn :
    option (list (string * option array) -> W -> W * list (string * array));
  _action_noise : option (nat -> W -> W * list cell);
  reward_metric : option (list fl -> result fl);
  time_time : W -> W * Q;
  buffer_sample : ReplayBuffer -> Z -> W -> W * (list Transition * list nat);
  process_fn :
    list Transition -> ReplayBuffer -> list nat -> W -> W * list Transition
}.
Arguments env_reset {W} _ _ _.
Arguments env_step {W} _ _ _ _.
Arguments action_space_sample {W} _ _ _.
Arguments policy_forward {W} _ _ _ _.
Arguments preprocess_fn {W} _.
Arguments _action_noise {W} _.
Arguments reward_metric {W} _.
Arguments time_time {W} _ _.
Arguments buffer_sample {W} _ _ _ _.
Arguments process_fn {W} _ _ _ _ _.

(** Assignments to the attributes of [self]. *)
Definition set_ready (ids : list nat) (c : Collector) : Collector :=
  mkCollector (env_num c) ids (is_async c) (_cached_buf c) (collect_time c)
    (collect_step c) (collect_episode c) (buffer c) (data c).

Definition set_cached (b : list ListReplayBuffer) (c : Collector) : Collector :=
  mkCollector (env_num c) (_ready_env_ids c) (is_async c) b (collect_time c)
    (collect_step c) (collect_episode c) (buffer c) (data c).

Definition set_counters (t : Q) (st ep : Z) (c : Collector) : Collector :=
  mkCollector (env_num c) (_ready_env_ids c) (is_async c) (_cached_buf c) t
    st ep (buffer c) (data c).

Definition set_buffer (b : option ReplayBuffer) (c : Collector) : Collector :=
  mkCollector (env_num c) (_ready_env_ids c) (is_async c) (_cached_buf c)
    (collect_time c) (collect_step c) (collect_episode c) b (data c).

Definition set_data (d : Batch) (c : Collector) : Collector :=
  mkCollector (env_num c) (_ready_env_ids c) (is_async c) (_cached_buf c)
    (collect_time c) (collect_step c) (collect_episode c) (buffer c) d.

(** [if self.buffer is not None: self.buffer.update(cache)] *)
Definition flush_into_buffer (cache : ListReplayBuffer) (c : Collector)
  : Collector :=
  match buffer c with
  | None => c
  | Some b => set_buffer (Some (b ++ cache)) c
  end.

(** [Batch(state={}, obs={}, act={}, rew={}, done={}, info={},
    obs_next={}, policy={})].  The record nested under [policy] is
    flattened: its reserved sub-field [_state] is the key
    ["policy._state"]. *)
Definition empty_data : Batch :=
  [("state", Placeholder); ("obs", Placeholder); ("act", Placeholder);
   ("rew", Placeholder); ("done", Placeholder); ("info", Placeholder);
   ("obs_next", Placeholder); ("policy", Placeholder)]%string.

(** The local variables of [collect].  [flushed] is a history variable:
    the episode caches counted so far, oldest first; nothing reads it. *)
Record Locals : Type := mkLocals {
  step_count : Z;
  episode_count : list Z;
  reward_total : cell;
  whole_data : Batch;
  flushed : list ListReplayBuffer
}.

Definition set_whole (b : Batch) (lv : Locals) : Locals :=
  mkLocals (step_count lv) (episode_count lv) (reward_total lv) b (flushed lv).

(** The statistics [collect] returns; ['n/ep'] is [n_ep], and so on. *)
Inductive statval : Type :=
| SNum (x : fl)
| SArr (xs : list fl).

Record Stats : Type := mkStats {
  n_ep : Z;
  n_st : Z;
  v_st : fl;
  v_ep : fl;
  rew : statval;
  len : fl
}.

(** How a run bounded by [fuel] iterations ends. *)
Inductive Outcome (S A : Type) : Type :=
| Returned (a : A) (s : S)
| Raised (e : exn) (s : S)
| OutOfFuel (s : S).
Arguments Returned {S A} a s.
Arguments Raised {S A} e s.
Arguments OutOfFuel {S A} s.

(** The smallest duration [collect] reports: [1e-9]. *)
Definition min_duration : Q := (1 # 1000000000)%Q.

(** [x[j]] on a Python list. *)
Definition list_index {A} (l : list A) (j : nat) : result A :=
  match l !! j with
  | Some x => Success x
  | None => Failure IndexError
  end.

(** [_default_rew_metric]: [assert np.asanyarray(x).size == 1]. *)
Definition _default_rew_metric (x : list fl) : result fl :=
  match x with
  | [y] => Success y
  | _ => Failure AssertionError
  end.

(** [[i['env_id'] for i in info]] *)
Fixpoint env_ids (info : list cell) : result (list nat) :=
  match info with
  | [] => Success []
  | CInfo (Some i) _ :: info' =>
      match env_ids info' with
      | Success r => Success (i :: r)
      | Failure e => Failure e
      end
  | CInfo None _ :: _ => Failure KeyError
  | _ :: _ => Failure TypeError
  end.

(** [sum(done)] and [np.where(done)[0]] *)
Fixpoint py_sum (l : list cell) : result Q :=
  match l with
  | [] => Success 0%Q
  | c :: l' =>
      match cell_num c, py_sum l' with
      | Some x, Success r => Success (x + r)%Q
      | None, _ => Failure TypeError
      | _, Failure e => Failure e
      end
  end.

Fixpoint np_where (j : nat) (l : list cell) : list nat :=
  match l with
  | [] => []
  | c :: l' =>
      match cell_num c with
      | Some x => if Qeq_bool x 0 then np_where (S j) l' else j :: np_where (S j) l'
      | None => j :: np_where (S j) l'
      end
  end.

(** [a += n], row by row. *)
Fixpoint add_rows (a n : list cell) : result (list cell) :=
  match a, n with
  | [], [] => Success []
  | x :: a', y :: n' =>
      match row_add x y, add_rows a' n' with
      | Success z, Success r => Success (z :: r)
      | Failure e, _ => Failure e
      | _, Failure e => Failure e
      end
  | _, _ => Failure ValueError
  end.

(** [state[id] = ...] of [_reset_state]: zeros for a tensor, a numeric
    array or a record, [None] for an array of objects. *)
Definition reset_cell (k : akind) (c : cell) : cell :=
  match k with
  | ObjArray => CNone
  | Tensor | Ndarray | BatchRows => zero_like c
  end.

(** [r.get(k)] on the record a hook returns. *)
Fixpoint result_get (k : string) (r : list (string * array)) : option array :=
  match r with
  | [] => None
  | (k', a) :: r' => if decide (k' = k) then Some a else result_get k r'
  end.

(** ** The methods of [Collector] *)

Section Collector.
Context {W : Type} (ext : Externals W).

Local Abbreviation St := (State W).

(** Commands on the parts of the state. *)
Definition on_heap {A} (m : M heap A) : M St A :=
  fun s => match m (st_heap s) with
           | Ok a h => Ok a (mkState h (st_world s) (st_self s) (st_trace s))
           | Raise e h =>
               Raise e (mkState h (st_world s) (st_self s) (st_trace s))
           end.

Definition call {A} (f : W -> W * A) : M St A :=
  fun s => let r := f (st_world s) in
           Ok (snd r) (mkState (st_heap s) (fst r) (st_self s) (st_trace s)).

Definition emit (e : event) : M St unit :=
  fun s => Ok tt (mkState (st_heap s) (st_world s) (st_self s)
                    (st_trace s ++ [e])).

Definition get_self : M St Collector := fun s => Ok (st_self s) s.

Definition modify_self (f : Collector -> Collector) : M St unit :=
  fun s => Ok tt (mkState (st_heap s) (st_world s) (f (st_self s))
                    (st_trace s)).

Definition get_data : M St Batch := self <- get_self ;; ret (data self).

(** [self.data.update(k=v)] *)
Definition update_field (k : string) (v : option array) : M St unit :=
  d <- get_data ;;
  d' <- on_heap (batch_put k v d) ;;
  modify_self (set_data d').

(** [self.preprocess_fn(obs=obs).get('obs', obs)] when a hook is set. *)
Definition preprocess_obs (obs : array) : M St array :=
  match preprocess_fn ext with
  | None => ret obs
  | Some f =>
      r <- call (f [("obs"%string, Some obs)]) ;;
      ret (default obs (result_get "obs" r))
  end.

(** *** The resets *)

Definition reset_env : M St unit :=
  modify_self (fun c => set_ready (seq 0 (env_num c)) c) ;;;
  emit (EvReset None) ;;;
  obs <- call (env_reset ext None) ;;
  obs <- preprocess_obs obs ;;
  update_field "obs" (Some obs) ;;;
  modify_self (fun c => set_cached (map (fun _ => []) (_cached_buf c)) c).

Definition reset_buffer : M St unit :=
  modify_self (fun c => match buffer c with
                        | None => c
                        | Some _ => set_buffer (Some []) c
                        end).

Definition reset : M St unit :=
  modify_self (set_data empty_data) ;;;
  reset_env ;;;
  reset_buffer ;;;
  modify_self (set_counters 0%Q 0%Z 0%Z) ;;;
  match _action_noise ext with
  | None => ret tt
  | Some _ => emit EvNoiseReset
  end.

(** [Collector(policy, env, buffer, ...)], for [n] environments. *)
Definition __init__ (n : nat) (async : bool) (buf : option ReplayBuffer)
  : M St unit :=
  modify_self (fun _ =>
    mkCollector n (seq 0 n) async (repeat [] n) 0%Q 0%Z 0%Z buf empty_data) ;;;
  reset.

Definition get_env_num : M St nat := self <- get_self ;; ret (env_num self).

Definition seed : M St unit := emit EvSeed.

Definition render_envs : M St unit := emit EvRender.

Definition close : M St unit := emit EvClose.

(** *** [sample] *)

Definition sample (batch_size : Z) : M St (list Transition) :=
  self <- get_self ;;
  match buffer self with
  | None => raise AttributeError
  | Some b =>
      r <- call (buffer_sample ext b batch_size) ;;
      call (process_fn ext (fst r) b (snd r))
  end.

(** *** [_reset_state] *)

Definition _reset_state (id : nat) : M St unit :=
  d <- get_data ;;
  match bget_default "state" d with
  | Placeholder => ret tt
  | Arr l =>
      a <- on_heap (load l) ;;
      match rows a !! id with
      | None => raise IndexError
      | Some c =>
          on_heap (store l (mkArray (kind a)
                              (<[id := reset_cell (kind a) c]> (rows a))))
      end
  end.

(** *** [collect]: the phases of one iteration *)

(** Lines 224-228: the diagnostic. *)
Definition warn_check (lv : Locals) : M St unit :=
  if (100000 <=? step_count lv)%Z && (sum_Z (episode_count lv) =? 0)%Z
  then emit EvWarn
  else ret tt.

(** Lines 230-237: in asynchronous simulation, keep the full-width
    record aside and work on the rows of the ready environments. *)
Definition take_subset (lv : Locals) : M St Locals :=
  self <- get_self ;;
  if is_async self then
    sub <- on_heap (batch_select (data self) (_ready_env_ids self)) ;;
    modify_self (set_data sub) ;;;
    ret (set_whole (data self) lv)
  else ret lv.

(** Lines 240-243: the previous hidden state, then the transient
    fields are cleared.  [is_empty] is a method of [Batch] only. *)
Definition take_last_state : M St (option array) :=
  d <- get_data ;;
  last_state <-
    match bget_default "state" d with
    | Placeholder => ret None
    | Arr l =>
        a <- on_heap (load l) ;;
        match kind a with
        | BatchRows => ret (Some a)
        | Tensor | Ndarray | ObjArray => raise AttributeError
        end
    end ;;
  modify_self (fun c =>
    set_data (bset "policy._state" Placeholder
                (bset "policy" Placeholder
                   (bset "obs_next" Placeholder
                      (bset "state" Placeholder (data c))))) c) ;;;
  ret last_state.

(** [[spaces[i].sample() for i in self._ready_env_ids]] *)
Fixpoint sample_actions (ids : list nat) : M St (list cell) :=
  match ids with
  | [] => ret []
  | i :: ids' =>
      a <- call (action_space_sample ext i) ;;
      r <- sample_actions ids' ;;
      ret (a :: r)
  end.

(** Lines 246-259: the next action. *)
Definition choose_action (cfg : Config) (last_state : option array)
  : M St PolicyResult :=
  if random cfg then
    self <- get_self ;;
    if is_async self then raise RuntimeError
    else
      acts <- sample_actions (_ready_env_ids self) ;;
      ret (mkPolicyResult (mkArray Ndarray acts) None None)
  else
    d <- get_data ;;
    snapshot <- on_heap (batch_read d) ;;
    call (policy_forward ext snapshot last_state).

(** Lines 261-271: the result goes into the working record; the
    hidden state is also kept under [policy._state]. *)
Definition store_result (r : PolicyResult) : M St loc :=
  update_field "state" (r_state r) ;;;
  update_field "policy" (r_policy r) ;;;
  modify_self (fun c =>
    set_data (bset "policy._state" (bget_default "state" (data c)) (data c))
      c) ;;;
  act <- on_heap (alloc (r_act r)) ;;
  modify_self (fun c => set_data (bset "act" (Arr act) (data c)) c) ;;;
  match _action_noise ext with
  | None => ret tt
  | Some noise =>
      a <- on_heap (load act) ;;
      n <- call (noise (length (rows a))) ;;
      rs <- lift_result (add_rows (rows a) n) ;;
      on_heap (store act (mkArray (kind a) rs))
  end ;;;
  ret act.

(** Lines 273-287: step the environments. *)
Definition step_env (act : loc) (lv : Locals) : M St Locals :=
  self <- get_self ;;
  a <- on_heap (load act) ;;
  sl <-
    (if negb (is_async self) then
       emit (EvStep None) ;;;
       s <- call (env_step ext a None) ;;
       ret (s, lv)
     else
       (* store computed actions, states, etc *)
       whole <- on_heap (_batch_set_item (whole_data lv)
                           (_ready_env_ids self) (data self)
                           (env_num self)) ;;
       (* fetch finished data *)
       emit (EvStep (Some (_ready_env_ids self))) ;;;
       s <- call (env_step ext a (Some (_ready_env_ids self))) ;;
       ids <- lift_result (env_ids (rows (s_info s))) ;;
       modify_self (set_ready ids) ;;;
       (* get the stepped data *)
       d <- on_heap (batch_select whole ids) ;;
       modify_self (set_data d) ;;;
       ret (s, set_whole whole lv)) ;;
  (* move data to self.data *)
  update_field "obs_next" (Some (s_obs_next (fst sl))) ;;;
  update_field "rew" (Some (s_rew (fst sl))) ;;;
  update_field "done" (Some (s_done (fst sl))) ;;;
  update_field "info" (Some (s_info (fst sl))) ;;;
  ret (snd sl).

(** Lines 289-291. *)
Definition render_step (cfg : Config) : M St unit :=
  match render cfg with
  | None => ret tt
  | Some t =>
      if Qeq_bool t 0 then ret tt
      else render_envs ;;; emit (EvSleep t)
  end.

(** Lines 294-296. *)
Definition preprocess_step : M St unit :=
  match preprocess_fn ext with
  | None => ret tt
  | Some f =>
      d <- get_data ;;
      snapshot <- on_heap (batch_read d) ;;
      r <- call (f snapshot) ;;
      d' <- on_heap (batch_update r d) ;;
      modify_self (set_data d')
  end.

(** *** [collect]: the bookkeeping of lines 297-310 *)

(** Lines 302-303:
    [n_step or np.isscalar(n_episode) or
     episode_count[i] < n_episode[i]]. *)
Definition is_counted (cfg : Config) (i : nat) (lv : Locals) : result bool :=
  if step_truthy (n_step cfg) then Success true
  else if np_isscalar (n_episode cfg) then Success true
  else
    match list_index (episode_count lv) i with
    | Failure e => Failure e
    | Success c =>
        match py_index (n_episode cfg) i with
        | Failure e => Failure e
        | Success t => Success (c <? t)%Z
        end
    end.

(** Lines 304-308: the episode of slot [i] is counted. *)
Definition count_episode (i : nat) (lv : Locals) : M St Locals :=
  self <- get_self ;;
  c <- lift_result (list_index (episode_count lv) i) ;;
  cache <- lift_result (list_index (_cached_buf self) i) ;;
  r <- lift_result (np_sum_axis0 (cache_rew cache)) ;;
  total <- lift_result (np_iadd (reward_total lv) r) ;;
  modify_self (flush_into_buffer cache) ;;;
  ret (mkLocals (step_count lv + Z.of_nat (length cache))%Z
         (<[i := (c + 1)%Z]> (episode_count lv))
         total (whole_data lv) (flushed lv ++ [cache])).

(** [self._cached_buf[i].reset()] *)
Definition cache_reset (i : nat) : M St unit :=
  self <- get_self ;;
  _ <- lift_result (list_index (_cached_buf self) i) ;;
  modify_self (set_cached (<[i := []]> (_cached_buf self))).

(** Lines 302-310: what happens at position [j], environment [i],
    when [done[j]] holds. *)
Definition on_done (cfg : Config) (j i : nat) (lv : Locals) : M St Locals :=
  counted <- lift_result (is_counted cfg i lv) ;;
  lv' <- (if counted : bool then count_episode i lv else ret lv) ;;
  cache_reset i ;;;
  _reset_state j ;;;
  ret lv'.

(** [self._cached_buf[i].add] of the row [self.data[j]]. *)
Definition cache_add (j i : nat) : M St unit :=
  self <- get_self ;;
  cache <- lift_result (list_index (_cached_buf self) i) ;;
  t <- on_heap (batch_row (data self) j) ;;
  modify_self (set_cached (<[i := cache ++ [t]]> (_cached_buf self))).

(** [self.data.done[j]] *)
Definition done_at (j : nat) : M St bool :=
  d <- get_data ;;
  match bget_default "done" d with
  | Placeholder => raise IndexError
  | Arr l =>
      a <- on_heap (load l) ;;
      c <- lift_result (list_index (rows a) j) ;;
      lift_result (cell_truthy c)
  end.

(** The body of [for j, i in enumerate(self._ready_env_ids)]. *)
Definition bookkeep_one (cfg : Config) (j i : nat) (lv : Locals)
  : M St Locals :=
  cache_add j i ;;;
  done <- done_at j ;;
  if done : bool then on_done cfg j i lv else ret lv.

Fixpoint bookkeep (cfg : Config) (j : nat) (ids : list nat) (lv : Locals)
  : M St Locals :=
  match ids with
  | [] => ret lv
  | i :: ids' =>
      lv' <- bookkeep_one cfg j i lv ;;
      bookkeep cfg (S j) ids' lv'
  end.

Definition bookkeeping (cfg : Config) (lv : Locals) : M St Locals :=
  self <- get_self ;;
  bookkeep cfg 0 (_ready_env_ids self) lv.

(** *** [collect]: the end of an iteration *)

(** [obs_next[indices] = values], in place. *)
Definition assign_values (dst : loc) (indices : list nat) (v : array)
  : M heap unit :=
  d <- load dst ;;
  r <- lift_result (set_rows d indices v) ;;
  store dst (mkArray (kind d) r).

(** Lines 311-321: environments whose episode ended are reset, and
    [obs_next] becomes the next [obs]. *)
Definition auto_reset : M St unit :=
  d <- get_data ;;
  let obs_next := bget_default "obs_next" d in
  done <- match bget_default "done" d with
          | Placeholder => raise TypeError
          | Arr l => a <- on_heap (load l) ;; ret (rows a)
          end ;;
  total <- lift_result (py_sum done) ;;
  (if negb (Qeq_bool total 0) then
     self <- get_self ;;
     let env_ind_local := np_where 0 done in
     env_ind_global <-
       lift_result (take_rows (_ready_env_ids self) env_ind_local) ;;
     emit (EvReset (Some env_ind_global)) ;;;
     obs_reset <- call (env_reset ext (Some env_ind_global)) ;;
     obs_reset <- preprocess_obs obs_reset ;;
     match obs_next with
     | Placeholder => raise TypeError
     | Arr l => on_heap (assign_values l env_ind_local obs_reset)
     end
   else ret tt) ;;;
  modify_self (fun c => set_data (bset "obs" obs_next (data c)) c).

(** Lines 322-327: in asynchronous simulation the working record is
    written back and the full-width record is active again. *)
Definition scatter_back (lv : Locals) : M St Locals :=
  self <- get_self ;;
  if is_async self then
    whole <- on_heap (_batch_set_item (whole_data lv) (_ready_env_ids self)
                        (data self) (env_num self)) ;;
    modify_self (set_data whole) ;;;
    ret (set_whole whole lv)
  else ret lv.

(** Lines 328-337: does the loop [break]? *)
Definition loop_done (cfg : Config) (lv : Locals) : result bool :=
  if step_truthy (n_step cfg) then
    Success (default 0 (n_step cfg) <=? step_count lv)%Z
  else
    match n_episode cfg with
    | PyInt n => Success (n <=? sum_Z (episode_count lv))%Z
    | PyList l => np_all_ge (episode_count lv) l
    | _ => Success false
    end.

(** One pass through the body of [while True], up to the test. *)
Definition iteration (cfg : Config) (lv : Locals) : M St Locals :=
  warn_check lv ;;;
  lv <- take_subset lv ;;
  last_state <- take_last_state ;;
  result <- choose_action cfg last_state ;;
  act <- store_result result ;;
  lv <- step_env act lv ;;
  render_step cfg ;;;
  preprocess_step ;;;
  lv <- bookkeeping cfg lv ;;
  auto_reset ;;;
  scatter_back lv.

(** *** [collect] *)

(** Line 215: [assert (n_step and not n_episode) or
    (not n_step and n_episode)], with Python's short-circuit order. *)
Definition check_targets (cfg : Config) : result unit :=
  match truthy (n_episode cfg) with
  | Failure e => Failure e
  | Success b =>
      if step_truthy (n_step cfg)
      then (if b then Failure AssertionError else Success tt)
      else (if b then Success tt else Failure AssertionError)
  end.

(** Lines 218-222. *)
Definition init_locals (self : Collector) : Locals :=
  mkLocals 0%Z (repeat 0%Z (env_num self)) (CFloat 0) [] [].

(** [while True], for at most [fuel] iterations. *)
Fixpoint collect_loop (cfg : Config) (fuel : nat) (lv : Locals) (s : St)
  : Outcome St Locals :=
  match fuel with
  | 0 => OutOfFuel s
  | S fuel' =>
      match iteration cfg lv s with
      | Raise e s' => Raised e s'
      | Ok lv' s' =>
          match loop_done cfg lv' with
          | Failure e => Raised e s'
          | Success true => Returned lv' s'
          | Success false => collect_loop cfg fuel' lv' s'
          end
      end
  end.

(** The state after [n] passes through the body, whatever the test
    says. *)
Fixpoint iterate (cfg : Config) (n : nat) (lv : Locals) : M St Locals :=
  match n with
  | 0 => ret lv
  | S n' => lv' <- iteration cfg lv ;; iterate cfg n' lv'
  end.

(** [reward_total / episode_count].  The count is the Python sum of a
    numpy array: a numpy float, unless there is no environment. *)
Definition reward_div (envs : nat) (total : cell) (count : Z)
  : result statval :=
  match envs with
  | 0 => Failure ZeroDivisionError
  | S _ =>
      match total with
      | CVec v => Success (SArr (map (fun x => np_div x (inject_Z count)) v))
      | _ =>
          match cell_num total with
          | Some x => Success (SNum (np_div x (inject_Z count)))
          | None => Failure TypeError
          end
      end
  end.

(** Lines 339-356: the statistics. *)
Definition statistics (start_time : Q) (lv : Locals) : M St Stats :=
  self <- get_self ;;
  let episodes := sum_Z (episode_count lv) in
  now <- call (time_time ext) ;;
  let duration := Qmax (now - start_time) min_duration in
  modify_self (set_counters (collect_time self + duration)%Q
                 (collect_step self + step_count lv)%Z
                 (collect_episode self + episodes)%Z) ;;;
  (* average reward across the number of episodes *)
  reward_avg <- lift_result
                  (reward_div (env_num self) (reward_total lv) episodes) ;;
  reward_avg <-
    match reward_avg with
    | SArr xs =>
        if decide (1 < length xs) then
          x <- lift_result
                 (default _default_rew_metric (reward_metric ext) xs) ;;
          ret (SNum x)
        else ret (SArr xs)
    | SNum x => ret (SNum x)
    end ;;
  ret (mkStats episodes (step_count lv)
         (Fin (inject_Z (step_count lv) / duration))
         (Fin (inject_Z episodes / duration))
         reward_avg
         (np_div (inject_Z (step_count lv)) (inject_Z episodes))).

Definition collect (cfg : Config) (fuel : nat) (s : St) : Outcome St Stats :=
  match lift_result (check_targets cfg) s with
  | Raise e s' => Raised e s'
  | Ok _ s0 =>
      match call (time_time ext) s0 with
      | Raise e s' => Raised e s'
      | Ok start_time s1 =>
          match collect_loop cfg fuel (init_locals (st_self s1)) s1 with
          | Raised e s' => Raised e s'
          | OutOfFuel s' => OutOfFuel s'
          | Returned lv s2 =>
              match statistics start_time lv s2 with
              | Raise e s' => Raised e s'
              | Ok stats s3 => Returned stats s3
              end
          end
      end
  end.

End Collector.

(** ** What is observed of a state *)

Definition is_step (e : event) : bool :=
  match e with EvStep _ => true | _ => false end.

Definition is_warn (e : event) : bool :=
  match e with EvWarn => true | _ => false end.

(** How many times the environments were stepped, and how many
    warnings were issued. *)
Definition steps_of (tr : list event) : nat := length (List.filter is_step tr).

Definition warns_of (tr : list event) : nat := length (List.filter is_warn tr).

(** The attributes of a collector that no iteration of [collect]
    assigns. *)
Definition self_view (c : Collector) : nat * bool * Q * Z * Z :=
  (env_num c, is_async c, collect_time c, collect_step c, collect_episode c).

Definition view_all {W} (s : State W)
  : nat * bool * Q * Z * Z * option ReplayBuffer * nat * nat :=
  (self_view (st_self s), buffer (st_self s), steps_of (st_trace s),
   warns_of (st_trace s)).

(** The same, without the number of steps; without the buffer; without
    the warnings. *)
Definition view_but_steps {W} (s : State W)
  : nat * bool * Q * Z * Z * option ReplayBuffer * nat :=
  (self_view (st_self s), buffer (st_self s), warns_of (st_trace s)).

Definition view_but_buffer {W} (s : State W)
  : nat * bool * Q * Z * Z * nat * nat :=
  (self_view (st_self s), steps_of (st_trace s), warns_of (st_trace s)).

Definition view_but_warns {W} (s : State W)
  : nat * bool * Q * Z * Z * option ReplayBuffer * nat :=
  (self_view (st_self s), buffer (st_self s), steps_of (st_trace s)).

(** What the statistics at the end of [collect] keep. *)
Definition view_but_counters {W} (s : State W)
  : nat * bool * option ReplayBuffer * nat * nat :=
  (env_num (st_self s), is_async (st_self s), buffer (st_self s),
   steps_of (st_trace s), warns_of (st_trace s)).

(** The local variables an iteration only changes while it counts an
    episode. *)
Definition counters (lv : Locals) : Z * list Z * cell * list ListReplayBuffer :=
  (step_count lv, episode_count lv, reward_total lv, flushed lv).

(** ** The specification's vocabulary *)

(** The target the loop works towards, read as the specification
    states it: a step count, a scalar episode count ("at least this many
    episodes summed across all environments"), or a per-environment
    vector. *)
Inductive target : Type :=
| StepTarget (n : Z)
| EpisodeTarget (n : Z)
| PerEnvTarget (l : list Z).

Definition active_target (cfg : Config) : option target :=
  if step_truthy (n_step cfg) then StepTarget <$> n_step cfg
  else match n_episode cfg with
       | PyInt n => Some (EpisodeTarget n)
       | PyList l => Some (PerEnvTarget l)
       | _ => None
       end.

(** "This episode is counted under any of these conditions: the active
    target is a step count; the active target is a scalar episode count;
    or the active target is a per-environment vector and slot [i]'s count
    is still below its target." *)
Definition counted_spec (t : target) (i : nat) (lv : Locals) : Prop :=
  match t with
  | StepTarget _ => True
  | EpisodeTarget _ => True
  | PerEnvTarget l =>
      exists c n, episode_count lv !! i = Some c /\ l !! i = Some n /\
                  (c < n)%Z
  end.

(** "Stop when cumulative step count >= target; when the sum of
    per-environment episode counters >= target; when every
    per-environment counter >= its corresponding target component." *)
Definition stop_spec (t : target) (lv : Locals) : Prop :=
  match t with
  | StepTarget n => (n <= step_count lv)%Z
  | EpisodeTarget n => (n <= sum_Z (episode_count lv))%Z
  | PerEnvTarget l => Forall2 (fun c n => (n <= c)%Z) (episode_count lv) l
  end.

(** No slot's count exceeds its target component. *)
Definition within_target (l : list Z) (lv : Locals) : Prop :=
  forall i c n,
    episode_count lv !! i = Some c -> l !! i = Some n -> (c <= n)%Z.

(** The total length of some episode caches. *)
Definition episodes_len (eps : list ListReplayBuffer) : Z :=
  sum_Z (map (fun c => Z.of_nat (length c)) eps).

(** The running reward total after the episodes [eps], from [total]:
    each episode's element-wise summed reward is added in turn. *)
Fixpoint add_rewards (total : cell) (eps : list ListReplayBuffer)
  : result cell :=
  match eps with
  | [] => Success total
  | c :: eps' =>
      match np_sum_axis0 (cache_rew c) with
      | Failure e => Failure e
      | Success r =>
          match np_iadd total r with
          | Failure e => Failure e
          | Success t => add_rewards t eps'
          end
      end
  end.

(** The permanent buffer after the episodes [eps] went into it. *)
Definition buffer_after (b : option ReplayBuffer) (eps : list ListReplayBuffer)
  : option ReplayBuffer :=
  (fun x => x ++ concat eps) <$> b.

(** What the local counters of [collect] satisfy between iterations:
    they account for the episodes counted so far. *)
Record counts_ok (n : nat) (lv : Locals) : Prop := mkCountsOk {
  ok_len : length (episode_count lv) = n;
  ok_nonneg : Forall (fun c => (0 <= c)%Z) (episode_count lv);
  ok_steps : step_count lv = episodes_len (flushed lv);
  ok_episodes : sum_Z (episode_count lv) = Z.of_nat (length (flushed lv));
  ok_reward : add_rewards (CFloat 0) (flushed lv) = Success (reward_total lv)
}.

(** The slots of a per-environment target, whatever sequence type it
    came in: what [n_episode[i]] reads when the count is compared. *)
Definition slots_within (cfg : Config) (lv : Locals) : Prop :=
  step_truthy (n_step cfg) = false ->
  np_isscalar (n_episode cfg) = false ->
  forall i c n,
    episode_count lv !! i = Some c ->
    py_index (n_episode cfg) i = Success n -> (c <= n)%Z.

(** Single observations. *)
Definition me_view {W} (s : State W) : nat * bool * Q * Z * Z :=
  self_view (st_self s).

Definition steps_view {W} (s : State W) : nat := steps_of (st_trace s).

Definition warns_view {W} (s : State W) : nat := warns_of (st_trace s).

(** Was the collector given no permanent buffer? *)
Definition no_buffer {W} (s : State W) : bool :=
  match buffer (st_self s) with None => true | Some _ => false end.

(** The cumulative counters [collect_time], [collect_step] and
    [collect_episode]. *)
Definition cumulative {W} (s : State W) : Q * Z * Z :=
  (collect_time (st_self s), collect_step (st_self s),
   collect_episode (st_self s)).

(** [stable R m]: the state in which [m] ends, by returning or by
    raising, is related by [R] to the state in which it started. *)
Definition stable {W} (R : relation (State W)) {A} (m : M (State W) A)
  : Prop :=
  forall s, R s (final_state (m s)).

(** The relation used throughout: a view of the state is kept. *)
Definition keeps {W X} (view : State W -> X) : relation (State W) :=
  fun s s' => view s = view s'.

(** Between two states the permanent buffer, if there is one, was only
    appended to. *)
Definition buffer_grows {W} (s s' : State W) : Prop :=
  exists extra,
    buffer (st_self s') = (fun b => b ++ extra) <$> buffer (st_self s).

(** The state in which a bounded run ends. *)
Definition outcome_state {S A} (o : Outcome S A) : S :=
  match o with
  | Returned _ s => s
  | Raised _ s => s
  | OutOfFuel s => s
  end.

(** ** A test bench *)

(** A deterministic vector environment on which the statements below
    are run: every episode of every environment lasts [L] steps, every
    step has reward 1, and the clock advances by one at each step.  The
    world records how many steps each environment took since its last
    reset. *)
Record World : Type := mkWorld { ages : list nat; clock : Q }.

Definition bench_ids (w : World) (ids : option (list nat)) : list nat :=
  default (seq 0 (length (ages w))) ids.

Definition bench_reset (ids : option (list nat)) (w : World) : World * array :=
  let sel := bench_ids w ids in
  (mkWorld (foldr (fun i a => <[i := 0]> a) (ages w) sel) (clock w),
   mkArray Ndarray (map (fun _ => CInt 0%Z) sel)).

Definition bench_step (L : nat) (act : array) (ids : option (list nat))
    (w : World) : World * StepResult :=
  let sel := bench_ids w ids in
  let ages' := foldr (fun i a => alter S i a) (ages w) sel in
  (mkWorld ages' (clock w + 1)%Q,
   mkStepResult
     (mkArray Ndarray
        (map (fun i => CInt (Z.of_nat (default 0 (ages' !! i)))) sel))
     (mkArray Ndarray (map (fun _ => CFloat 1%Q) sel))
     (mkArray Ndarray
        (map (fun i => CBool (bool_decide (L <= default 0 (ages' !! i)))) sel))
     (mkArray BatchRows (map (fun i => CInfo (Some i) 0%Z) sel))).

(** The number of rows of the observations handed to the policy. *)
Fixpoint snapshot_rows (snapshot : list (string * option array)) : nat :=
  match snapshot with
  | [] => 0
  | (k, v) :: snapshot' =>
      if decide (k = "obs"%string)
      then match v with Some a => length (rows a) | None => 0 end
      else snapshot_rows snapshot'
  end.

Definition bench_policy (snapshot : list (string * option array))
    (last_state : option array) (w : World) : World * PolicyResult :=
  (w, mkPolicyResult
        (mkArray Ndarray (repeat (CInt 0%Z) (snapshot_rows snapshot)))
        None None).

Definition bench (L : nat) : Externals World :=
  mkExternals World bench_reset (bench_step L)
    (fun i w => (w, CInt 0%Z)) bench_policy None None None
    (fun w => (w, clock w))
    (fun b n w => (w, (b, seq 0 (length b))))
    (fun batch b indice w => (w, batch)).

(** A collector over [n] environments of the bench, just constructed. *)
Definition bench_blank (n : nat) : State World :=
  mkState ∅ (mkWorld (repeat 0 n) 0%Q)
    (mkCollector 0 [] false [] 0%Q 0%Z 0%Z None []) [].

Definition bench_start (L n : nat) (async : bool) (buf : option ReplayBuffer)
  : State World :=
  final_state (__init__ (bench L) n async buf (bench_blank n)).

(** The scenario of the specification: three synchronous environments,
    [n_episode=[1, 0, 2]]; with episodes of two steps the loop stops
    after the fourth iteration, with the counters at [1, 0, 2]. *)
Definition scenario_102 : Config :=
  mkConfig None (PyList [1; 0; 2]%Z) false None.

(** The bench in the first iteration of [collect], its environments
    just stepped: where the bookkeeping of that iteration starts. *)
Definition bench_stepped (L n : nat) (cfg : Config)
    (buf : option ReplayBuffer) : State World :=
  final_state
    ((last_state <- take_last_state ;;
      result <- choose_action (bench L) cfg last_state ;;
      act <- store_result (bench L) result ;;
      step_env (bench L) act
        (init_locals (st_self (bench_start L n false buf))))
       (bench_start L n false buf)).

(** Records for a scatter over three environments, of which the first
    and the last are ready: the full-width record has observations and
    no actions yet, the working record has both. *)
Definition scatter_heap : heap :=
  <[0 := mkArray Ndarray [CInt 10; CInt 11; CInt 12]%Z]>
    (<[1 := mkArray Ndarray [CInt 20; CInt 22]%Z]>
       (<[2 := mkArray Ndarray [CInt 7; CInt 8]%Z]> ∅)).

Definition scatter_whole : Batch :=
  [("obs", Arr 0); ("act", Placeholder)]%string.

Definition scatter_part : Batch :=
  [("obs", Arr 1); ("act", Arr 2); ("state", Placeholder)]%string.

(** The observation a reset stores: what [env.reset()] returned, passed
    through [preprocess_fn] when there is one, which may leave it as it
    is by returning no ['obs']. *)
Definition reset_obs {W} (ext : Externals W) (w : W) : array :=
  let obs := snd (env_reset ext None w) in
  match preprocess_fn ext with
  | None => obs
  | Some f =>
      default obs
        (result_get "obs"
           (snd (f [("obs"%string, Some obs)] (fst (env_reset ext None w)))))
  end.

(** The bench, with a reward of two components at every step (two
    agents) and no [reward_metric]. *)
Definition bench_pair (L : nat) : Externals World :=
  mkExternals World bench_reset
    (fun act ids w =>
       let r := bench_step L act ids w in
       (fst r,
        mkStepResult (s_obs_next (snd r))
          (mkArray Ndarray
             (map (fun _ => CVec [1%Q; 2%Q]) (rows (s_rew (snd r)))))
          (s_done (snd r)) (s_info (snd r))))
    (fun i w => (w, CInt 0%Z)) bench_policy None None None
    (fun w => (w, clock w))
    (fun b n w => (w, (b, seq 0 (length b))))
    (fun batch b indice w => (w, batch)).

(** The attributes that give a collector its shape: how many
    environments and episode caches it has, whether the simulation is
    asynchronous, and which environments are ready. *)
Definition shape_ready {W} (s : State W) : nat * bool * nat * list nat :=
  (env_num (st_self s), is_async (st_self s),
   length (_cached_buf (st_self s)), _ready_env_ids (st_self s)).

(** Between two states the shape is kept and, in synchronous
    simulation, so are the ready environments. *)
Definition sync_ready {W} (s s' : State W) : Prop :=
  (env_num (st_self s), is_async (st_self s),
   length (_cached_buf (st_self s)))
  = (env_num (st_self s'), is_async (st_self s'),
     length (_cached_buf (st_self s'))) /\
  (is_async (st_self s) = false ->
   _ready_env_ids (st_self s') = _ready_env_ids (st_self s)).

(** There is one episode cache per environment, and in synchronous
    simulation every environment is ready. *)
Definition well_formed {W} (s : State W) : Prop :=
  length (_cached_buf (st_self s)) = env_num (st_self s) /\
  (is_async (st_self s) = false ->
   _ready_env_ids (st_self s) = seq 0 (env_num (st_self s))).

(** The same without the ready environments. *)
Definition shape {W} (s : State W) : nat * bool * nat :=
  (env_num (st_self s), is_async (st_self s),
   length (_cached_buf (st_self s))).




(** What a trace shows of the rendering: how often the environments
    were rendered, and for how long the collector slept each time. *)
Definition is_render (e : event) : bool :=
  match e with EvRender => true | _ => false end.

Definition sleep_of (e : event) : option Q :=
  match e with EvSleep t => Some t | _ => None end.

Definition render_view {W} (s : State W) : nat * list Q :=
  (length (List.filter is_render (st_trace s)), omap sleep_of (st_trace s)).

(** [bool(render)] *)
Definition render_truthy (r : option Q) : bool :=
  match r with
  | None => false
  | Some t => negb (Qeq_bool t 0)
  end.

(** [t.done] of a transition as a truth value, when it has one. *)
Definition row_done (t : Transition) : option bool :=
  match row_get "done" t with
  | None => None
  | Some c =>
      match cell_truthy c with
      | Success b => Some b
      | Failure _ => None
      end
  end.

(** An episode in progress: none of its transitions is terminal. *)
Definition in_progress (e : ListReplayBuffer) : bool :=
  forallb (fun t => bool_decide (row_done t = Some false)) e.

(** A whole episode: its last transition is terminal, and only that
    one. *)
Fixpoint whole_episode (e : ListReplayBuffer) : bool :=
  match e with
  | [] => false
  | t :: e' =>
      match e' with
      | [] => bool_decide (row_done t = Some true)
      | _ :: _ => bool_decide (row_done t = Some false) && whole_episode e'
      end
  end.

(** The episode caches of a collector. *)
Definition caches_view {W} (s : State W) : list ListReplayBuffer :=
  _cached_buf (st_self s).

(** What the bookkeeping keeps: the episodes counted so far are whole,
    the episodes in the caches are in progress. *)
Definition whole_so_far {W} (lv : Locals) (s : State W) : Prop :=
  Forall (fun e => whole_episode e = true) (flushed lv) /\
  Forall (fun e => in_progress e = true) (caches_view s).

(** The transitions waiting in the episode caches. *)
Definition pending {W} (s : State W) : Z := episodes_len (caches_view s).

(** The rows of [v] have the element type of the array [d] they are
    written into: the two containers are of one kind and, for numbers,
    every row of [v] has the type and the shape of the rows of [d].
    Nothing is converted then. *)
Definition same_dtype (d v : array) : Prop :=
  kind d = kind v /\
  match kind d with
  | ObjArray | BatchRows => True
  | Tensor | Ndarray =>
      forall t c, t ∈ rows d -> c ∈ rows v -> same_type t c = true
  end.



(** What resetting the environments [ids] gives at the end of an
    iteration: the world the reset leaves, and the observations it
    returned, both passed through [preprocess_fn] when there is one
    (the hook may return no ['obs'], and the observations stay). *)
Definition reset_at {W} (ext : Externals W) (ids : list nat) (w : W)
  : W * array :=
  let r := env_reset ext (Some ids) w in
  match preprocess_fn ext with
  | None => r
  | Some f =>
      let p := f [("obs"%string, Some (snd r))] (fst r) in
      (fst p, default (snd r) (result_get "obs" (snd p)))
  end.

(** The bench with episodes of unequal lengths: an episode of
    environment [i] lasts [L + i] steps. *)
Definition stagger_step (L : nat) (act : array) (ids : option (list nat))
    (w : World) : World * StepResult :=
  let sel := bench_ids w ids in
  let r := bench_step L act ids w in
  (fst r,
   mkStepResult (s_obs_next (snd r)) (s_rew (snd r))
     (mkArray Ndarray
        (map (fun i => CBool (bool_decide
                                (L + i <= default 0 (ages (fst r) !! i))))
           sel))
     (s_info (snd r))).

Definition bench_stagger (L : nat) : Externals World :=
  mkExternals World bench_reset (stagger_step L)
    (fun i w => (w, CInt 0%Z)) bench_policy None None None
    (fun w => (w, clock w))
    (fun b n w => (w, (b, seq 0 (length b))))
    (fun batch b indice w => (w, batch)).

(** The staggered bench after the bookkeeping of its first iteration:
    three environments, of which only the first has finished. *)
Definition stagger_booked : State World :=
  final_state
    ((last_state <- take_last_state ;;
      result <- choose_action (bench_stagger 1) scenario_102 last_state ;;
      act <- store_result (bench_stagger 1) result ;;
      lv <- step_env (bench_stagger 1) act
              (init_locals (st_self (bench_start 1 3 false None))) ;;
      bookkeeping scenario_102 lv)
       (bench_start 1 3 false None)).

(** ** The bookkeeping of one position, as the specification states it *)

(** Component [k] of a reward: a vector has its components, a number
    is broadcast by numpy and stands at every [k]. *)
Definition component (k : nat) (c : cell) : option Q :=
  match c with
  | CVec v => v !! k
  | _ => cell_num c
  end.

Definition sum_Q (l : list Q) : Q := foldr Qplus 0%Q l.

(** "Its element-wise summed reward is added to the running reward
    total": component by component, the new total is the old one plus
    the rewards of the transitions of the episode. *)
Definition reward_added (episode : ListReplayBuffer) (total total' : cell)
  : Prop :=
  forall k x0 xs,
    component k total = Some x0 ->
    Forall2 (fun t x => component k (default CNone (row_get "rew" t)) = Some x)
      episode xs ->
    exists x1, component k total' = Some x1 /\ (x1 == x0 + sum_Q xs)%Q.

(** A row that is zero: every number of it is [0] ([False] for a
    boolean) and an object is [None]. *)
Definition zero_row (c : cell) : Prop :=
  match c with
  | CNone => True
  | CBool b => b = false
  | CInt z => z = 0%Z
  | CFloat q => q = 0%Q
  | CVec v => Forall (fun x => x = 0%Q) v
  | CInfo _ _ => False
  end.

(** "Reset to its zero/empty representation": [c'] is what a reset
    leaves of the row [c] of a container of kind [k].  An array of
    objects holds [None]; a tensor, a numeric array and a record hold a
    zero row of the type and shape of [c], [None] where [c] was an
    object. *)
Definition zero_entry (k : akind) (c c' : cell) : Prop :=
  match k with
  | ObjArray => c' = CNone
  | Tensor | Ndarray | BatchRows =>
      zero_row c' /\
      match c with
      | CNone | CInfo _ _ => c' = CNone
      | _ => same_type c c' = true
      end
  end.

(** The row [self.data[j]]: under every key that holds an array it has
    row [j] of that array. *)
Definition row_of (h : heap) (d : Batch) (j : nat) (row : Transition) : Prop :=
  forall k l, bget k d = Some (Arr l) ->
    exists a, h !! l = Some a /\ is_Some (rows a !! j) /\
              row_get k row = rows a !! j.

(** [self.data.done[j]], as a truth value. *)
Definition done_of (h : heap) (d : Batch) (j : nat) (done : bool) : Prop :=
  exists l a c,
    bget "done" d = Some (Arr l) /\ h !! l = Some a /\
    rows a !! j = Some c /\ cell_truthy c = Success done.

(** The hidden-state entry at position [j] is reset; a hidden state
    that is the empty record is left alone. *)
Definition state_reset {W} (j : nat) (s s' : State W) : Prop :=
  match bget_default "state" (data (st_self s)) with
  | Placeholder => st_heap s' = st_heap s
  | Arr l =>
      exists a c c',
        st_heap s !! l = Some a /\ rows a !! j = Some c /\
        zero_entry (kind a) c c' /\
        st_heap s' = <[l := mkArray (kind a) (<[j := c']> (rows a))]>
                       (st_heap s)
  end.

(** What counting the episode [episode] of slot [i] does. *)
Definition counted_update {W} (i : nat) (episode : ListReplayBuffer)
    (lv : Locals) (s : State W) (lv' : Locals) (s' : State W) : Prop :=
  exists c,
    episode_count lv !! i = Some c /\
    episode_count lv' = <[i := (c + 1)%Z]> (episode_count lv) /\
    step_count lv' = (step_count lv + Z.of_nat (length episode))%Z /\
    reward_added episode (reward_total lv) (reward_total lv') /\
    flushed lv' = flushed lv ++ [episode] /\
    buffer (st_self s') = (fun b => b ++ episode) <$> buffer (st_self s).

(** The body of the loop at position [j] of the ready set, with
    environment [i], from the locals [lv] and the state [s] to [lv']
    and [s'].  The row [self.data[j]] goes into cache [i].  If
    [done[j]] does not hold, nothing else happens.  If it holds, the
    episode (the cache with the new row) is counted exactly when the
    specification says so; counted, it updates the counters, the reward
    total and the buffer; counted or not, cache [i] is emptied and the
    hidden-state entry at position [j] reset.  Nothing else changes:
    not the world, the trace, the record, the other caches, or the
    other attributes of the collector. *)
Definition position_spec {W} (t : target) (j i : nat)
    (lv : Locals) (s : State W) (lv' : Locals) (s' : State W) : Prop :=
  exists cache row done,
    _cached_buf (st_self s) !! i = Some cache /\
    row_of (st_heap s) (data (st_self s)) j row /\
    done_of (st_heap s) (data (st_self s)) j done /\
    st_world s' = st_world s /\ st_trace s' = st_trace s /\
    data (st_self s') = data (st_self s) /\
    _ready_env_ids (st_self s') = _ready_env_ids (st_self s) /\
    self_view (st_self s') = self_view (st_self s) /\
    whole_data lv' = whole_data lv /\
    (exists e, _cached_buf (st_self s')
               = <[i := e]> (_cached_buf (st_self s))) /\
    let episode := cache ++ [row] in
    if done : bool then
      ((counted_spec t i lv /\ counted_update i episode lv s lv' s') \/
       (~ counted_spec t i lv /\ lv' = lv /\
        buffer (st_self s') = buffer (st_self s))) /\
      _cached_buf (st_self s') !! i = Some [] /\
      state_reset j s s'
    else
      lv' = lv /\ _cached_buf (st_self s') !! i = Some episode /\
      st_heap s' = st_heap s /\ buffer (st_self s') = buffer (st_self s).

(** A collector of three environments in asynchronous simulation, its
    environments 2 and 0 just stepped (in this order): the second
    position has finished an episode whose first transition is in
    cache 0 already; the hidden state is an array of integers. *)
Definition booking_prev : Transition :=
  [("rew", CFloat 3); ("done", CBool false)]%string.

Definition booking_bench : State World :=
  mkState
    (<[0 := mkArray Ndarray [CInt 10; CInt 11]%Z]>
       (<[1 := mkArray Ndarray [CFloat 1; CFloat 2]]>
          (<[2 := mkArray Ndarray [CBool false; CBool true]]>
             (<[3 := mkArray Ndarray [CInt 5; CInt 6]%Z]> ∅))))
    (mkWorld [0; 0; 0] 0%Q)
    (mkCollector 3 [2; 0] true [[booking_prev]; []; []] 0%Q 0%Z 0%Z
       (Some [])
       [("obs", Arr 0); ("rew", Arr 1); ("done", Arr 2);
        ("state", Arr 3)]%string)
    [].

Definition booking_row0 : Transition :=
  [("obs", CInt 10%Z); ("rew", CFloat 1); ("done", CBool false);
   ("state", CInt 5%Z)]%string.

Definition booking_row1 : Transition :=
  [("obs", CInt 11%Z); ("rew", CFloat 2); ("done", CBool true);
   ("state", CInt 6%Z)]%string.

(** A collector of two environments whose hidden state is the array
    [a]. *)
Definition bench_hidden_of (a : array) : State World :=
  mkState (<[0 := a]> ∅) (mkWorld [0; 0] 0%Q)
    (mkCollector 2 [0; 1] false [[]; []] 0%Q 0%Z 0%Z None
       (bset "state" (Arr 0) empty_data)) [].

(** The bench after the bookkeeping of the first iteration. *)
Definition bench_booked (L n : nat) (cfg : Config)
    (buf : option ReplayBuffer) : State World :=
  final_state
    (bookkeeping cfg (init_locals (st_self (bench_start L n false buf)))
       (bench_stepped L n cfg buf)).

(** A collector of two environments whose hidden state is a tensor of
    two rows. *)
Definition bench_hidden : State World :=
  mkState (<[0 := mkArray Tensor [CVec [1%Q; 2%Q]; CVec [3%Q; 4%Q]]]> ∅)
    (mkWorld [0; 0] 0%Q)
    (mkCollector 2 [0; 1] false [[]; []] 0%Q 0%Z 0%Z None
       (bset "state" (Arr 0) empty_data)) [].

(* ================================================================= *)
(** * Properties *)

(** ** Reasoning about commands *)

Lemma bind_Ok {S A B} (m : M S A) (k : A -> M S B) s b s' :
  bind m k s = Ok b s' ->
  exists a s1, m s = Ok a s1 /\ k a s1 = Ok b s'.
Proof.
  unfold bind. destruct (m s) as [a s1|e s1]; [eauto | discriminate].
Qed.

Lemma lift_result_Ok {S A} (r : result A) (s : S) a s' :
  lift_result r s = Ok a s' -> r = Success a /\ s' = s.
Proof.
  destruct r; cbn; unfold ret, raise; intros H; inversion H; auto.
Qed.

Lemma load_Ok l (h : heap) a h' :
  load l h = Ok a h' -> h !! l = Some a /\ h' = h.
Proof.
  unfold load. destruct (h !! l); intros H; inversion H; auto.
Qed.

Lemma ret_Ok {S A} (a : A) (s : S) b s' : ret a s = Ok b s' -> b = a /\ s' = s.
Proof. unfold ret. intros H; inversion H; auto. Qed.

Lemma alloc_Ok a (h : heap) l h' :
  alloc a h = Ok l h' -> l = fresh (dom h) /\ h' = <[l := a]> h.
Proof. unfold alloc. intros H; inversion H; auto. Qed.

Lemma store_Ok l a (h : heap) u h' : store l a h = Ok u h' -> h' = <[l := a]> h.
Proof. unfold store. intros H; inversion H; auto. Qed.

(** Inversion of a successful run, one command at a time. *)
Ltac step_ok :=
  match goal with
  | H : bind _ _ _ = Ok _ _ |- _ =>
      apply bind_Ok in H; destruct H as (? & ? & ? & H); cbv beta in H
  | H : ret _ _ = Ok _ _ |- _ => apply ret_Ok in H as [? ?]; subst
  | H : raise _ _ = Ok _ _ |- _ => discriminate H
  | H : load _ _ = Ok _ _ |- _ => apply load_Ok in H as [? ?]; subst
  | H : lift_result _ _ = Ok _ _ |- _ =>
      apply lift_result_Ok in H as [? ?]; subst
  | H : alloc _ _ = Ok _ _ |- _ => apply alloc_Ok in H as [? ?]; subst
  | H : store _ _ _ = Ok _ _ |- _ => apply store_Ok in H; subst
  end.

(** ** Records: lookups after updates *)

Lemma bget_bset_eq k v b : bget k (bset k v b) = Some v.
Proof.
  induction b as [|[k' v'] b IH]; cbn.
  - by rewrite decide_True.
  - destruct (decide (k' = k)) as [->|Hne]; cbn.
    + by rewrite decide_True.
    + by rewrite decide_False.
Qed.

Lemma bget_bset_ne k k' v b : k <> k' -> bget k' (bset k v b) = bget k' b.
Proof.
  intros Hne. induction b as [|[k0 v0] b IH]; cbn.
  - by rewrite decide_False.
  - destruct (decide (k0 = k)) as [->|Hne0]; cbn.
    + by rewrite !decide_False.
    + destruct (decide (k0 = k')); auto.
Qed.

Lemma bget_elem_of k v (b : Batch) : bget k b = Some v -> (k, v) ∈ b.
Proof.
  induction b as [|[k0 v0] b IH]; cbn; [done|].
  destruct (decide (k0 = k)) as [->|Hne].
  - intros [= ->]. left.
  - intros H. right. auto.
Qed.

Lemma bget_not_key k (b : Batch) : k ∉ b.*1 -> bget k b = None.
Proof.
  induction b as [|[k0 v0] b IH]; cbn; [done|].
  intros Hn. apply not_elem_of_cons in Hn as [Hne Hn].
  rewrite decide_False by congruence. auto.
Qed.

Lemma bget_cons_ne k k0 v0 (b : Batch) :
  k0 <> k -> bget k ((k0, v0) :: b) = bget k b.
Proof. intros. cbn. by rewrite decide_False. Qed.

Lemma bget_cons_eq k v0 (b : Batch) : bget k ((k, v0) :: b) = Some v0.
Proof. cbn. by rewrite decide_True. Qed.

Lemma bget_default_Arr k b l : bget_default k b = Arr l <-> bget k b = Some (Arr l).
Proof.
  unfold bget_default. destruct (bget k b) as [[|l']|]; split; congruence.
Qed.

(** ** [_batch_set_item]: one key *)

(** What the body does for one non-reserved key: either the full-width
    record already has an array there, which is written in place, or a
    container of [size] rows is created from the first row of the
    working field and then written. *)
Lemma batch_set_item_body_Ok k lv source indices size (h : heap) source1 h1 :
  _batch_set_item_body k lv source indices size h = Ok source1 h1 ->
  exists va, h !! lv = Some va /\
    ((exists l0 d r,
        bget k source = Some (Arr l0) /\ source1 = source /\
        h !! l0 = Some d /\
        set_rows d indices va = Success r /\
        h1 = <[l0 := mkArray (kind d) r]> h)
     \/
     (exists inst r,
        bget_default k source = Placeholder /\
        first_row va = Success inst /\
        source1 = bset k (Arr (fresh (dom h))) source /\
        set_rows (_create_value inst size) indices va = Success r /\
        h1 = <[fresh (dom h) := mkArray (fst inst) r]> h)).
Proof.
  unfold _batch_set_item_body, assign_rows. intros H.
  destruct (bget_default k source) as [|l0] eqn:Hvs; cbn [is_reserved] in H.
  - (* the key is missing or reserved in the full-width record *)
    repeat step_ok.
    unfold bget_default in H1. rewrite bget_bset_eq in H1.
    repeat step_ok.
    assert (fresh (dom h) <> lv) as Hne.
    { intros Heq. pose proof (is_fresh (dom h)) as Hf.
      rewrite Heq in Hf. apply Hf. apply elem_of_dom. eauto. }
    repeat match goal with
           | Hl : <[_:=_]> _ !! _ = Some _ |- _ =>
               first [ rewrite lookup_insert_eq in Hl
                     | rewrite lookup_insert_ne in Hl by done ]
           end.
    simplify_eq.
    eexists. split; [done|]. right. eexists _, _.
    repeat split; try done.
    by rewrite insert_insert_eq.
  - (* the full-width record has an array for the key *)
    repeat step_ok.
    match goal with Hm : context [bget_default k source] |- _ =>
      rewrite Hvs in Hm end.
    repeat step_ok.
    eexists. split; [done|]. left. eexists _, _, _.
    apply bget_default_Arr in Hvs. done.
Qed.


Lemma first_row_Success va inst :
  first_row va = Success inst -> exists c, inst = (kind va, c).
Proof.
  unfold first_row. destruct (rows va); intros H; inversion H; eauto.
Qed.

Lemma fresh_not_live (h : heap) l : l ∈ dom h -> fresh (dom h) <> l.
Proof. intros Hl Heq. apply (is_fresh (dom h)). by rewrite Heq. Qed.

Section scatter.
Context (indices : list nat) (size : nat).

(** The footprint of one key: which bindings and which arrays change. *)
Lemma batch_set_item_body_frame k lv source (h : heap) source1 h1 :
  _batch_set_item_body k lv source indices size h = Ok source1 h1 ->
  dom h ⊆ dom h1 /\
  (forall l, l ∈ dom h -> (forall k', bget k' source <> Some (Arr l)) ->
             h1 !! l = h !! l) /\
  (forall k' l, bget k' source = Some (Arr l) ->
                bget k' source1 = Some (Arr l)) /\
  (forall k' l, bget k' source1 = Some (Arr l) ->
                bget k' source = Some (Arr l) \/ l ∉ dom h) /\
  (forall k', k' <> k -> bget k' source1 = bget k' source) /\
  (forall l, bget k source1 = Some (Arr l) -> l ∈ dom h1).
Proof.
  intros H. apply batch_set_item_body_Ok in H as (va & Hva & H).
  destruct H as [(l0 & d & r & Hk & -> & Hd & Hset & ->)
                |(inst & r & Hk & Hfirst & -> & Hset & ->)].
  - repeat split; auto.
    + apply dom_insert_subseteq.
    + intros l Hl Hno. rewrite lookup_insert_ne; [done|].
      intros ->. by apply (Hno k).
    + intros l Hl. assert (l = l0) as -> by congruence.
      apply elem_of_dom. rewrite lookup_insert_eq. eauto.
  - repeat split.
    + apply dom_insert_subseteq.
    + intros l Hl Hno. rewrite lookup_insert_ne; [done|].
      by apply fresh_not_live.
    + intros k' l Hk'. destruct (decide (k = k')) as [->|Hne].
      * apply bget_default_Arr in Hk'. congruence.
      * by rewrite bget_bset_ne.
    + intros k' l. destruct (decide (k = k')) as [->|Hne].
      * rewrite bget_bset_eq. intros [= <-]. right. apply is_fresh.
      * rewrite bget_bset_ne by done. auto.
    + intros k' Hne. by rewrite bget_bset_ne.
    + intros l. rewrite bget_bset_eq. intros [= <-].
      apply elem_of_dom. rewrite lookup_insert_eq. eauto.
Qed.

Lemma batch_set_item_loop_frame items : forall source (h : heap) source' h',
  _batch_set_item_loop items source indices size h = Ok source' h' ->
  dom h ⊆ dom h' /\
  (forall l, l ∈ dom h -> (forall k, bget k source <> Some (Arr l)) ->
             h' !! l = h !! l) /\
  (forall k l, bget k source = Some (Arr l) ->
               bget k source' = Some (Arr l)) /\
  (forall k l, bget k source' = Some (Arr l) ->
               bget k source = Some (Arr l) \/ l ∉ dom h) /\
  (forall k, (forall lv, (k, Arr lv) ∉ items) ->
             bget k source' = bget k source).
Proof.
  induction items as [|[k [|lv]] items IH]; intros source h source' h' H.
  - cbn in H. step_ok. repeat split; auto.
  - cbn in H. apply IH in H as (Hd & Hf & Hk & Hn & Ho).
    repeat split; auto.
    intros k' Hno. apply Ho. intros lv' Hin. apply (Hno lv'). by right.
  - cbn in H. step_ok.
    match goal with Hb : _batch_set_item_body _ _ _ _ _ _ = _ |- _ =>
      apply batch_set_item_body_frame in Hb
        as (Hd1 & Hf1 & Hk1 & Hn1 & Ho1 & _) end.
    apply IH in H as (Hd & Hf & Hk & Hn & Ho).
    repeat split.
    + by etrans.
    + intros l Hl Hno. rewrite Hf.
      * by apply Hf1.
      * by apply Hd1.
      * intros k' Hk'. apply Hn1 in Hk' as [Hk'|Hk']; [by apply (Hno k')|done].
    + intros k' l Hk'. auto.
    + intros k' l Hk'. apply Hn in Hk' as [Hk'|Hk'].
      * apply Hn1 in Hk'. done.
      * right. intros Hl. apply Hk'. by apply Hd1.
    + intros k' Hno. rewrite Ho.
      * apply Ho1. intros ->. apply (Hno lv). left.
      * intros lv' Hin. apply (Hno lv'). by right.
Qed.

(** Readiness is kept from one key to the next. *)
Lemma scatter_ready_skip (h : heap) source k items :
  scatter_ready h source ((k, Placeholder) :: items) ->
  scatter_ready h source items.
Proof.
  intros (Hnd & Hls & Hlt & Hdi & Hap). cbn in Hnd.
  apply NoDup_cons in Hnd as [Hk Hnd].
  assert (forall k' v, bget k' items = Some v ->
                       bget k' ((k, Placeholder) :: items) = Some v) as Hsub.
  { intros k' v Hv. rewrite bget_cons_ne; [done|].
    intros ->. by rewrite bget_not_key in Hv. }
  repeat split; auto.
  - intros k' l Hl. apply (Hlt k'). auto.
  - intros k1 k2 l H1 H2. apply (Hap k1 k2 l); auto.
Qed.

Lemma scatter_ready_step (h : heap) source k lv items source1 h1 :
  scatter_ready h source ((k, Arr lv) :: items) ->
  _batch_set_item_body k lv source indices size h = Ok source1 h1 ->
  scatter_ready h1 source1 items.
Proof.
  intros (Hnd & Hls & Hlt & Hdi & Hap) Hbody. cbn in Hnd.
  apply NoDup_cons in Hnd as [Hk Hnd].
  assert (forall k' v, bget k' items = Some v ->
                       bget k' ((k, Arr lv) :: items) = Some v) as Hsub.
  { intros k' v Hv. rewrite bget_cons_ne; [done|].
    intros ->. by rewrite bget_not_key in Hv. }
  apply batch_set_item_body_frame in Hbody
    as (Hd1 & Hf1 & Hk1 & Hn1 & Ho1 & Hw1).
  repeat split; auto.
  - intros k' l Hl. apply Hn1 in Hl as Hl'.
    destruct Hl' as [Hl'|Hl'].
    + apply Hd1. by apply (Hls k').
    + destruct (decide (k' = k)) as [->|Hne]; [by apply Hw1|].
      rewrite Ho1 in Hl by done. exfalso. apply Hl'. by apply (Hls k').
  - intros k' l Hl. apply Hd1. apply (Hlt k'). auto.
  - intros k1 k2 l H1 H2.
    apply Hn1 in H1 as H1'. apply Hn1 in H2 as H2'.
    destruct H1' as [H1'|H1'], H2' as [H2'|H2'].
    + by apply (Hdi k1 k2 l).
    + exfalso. apply H2'. by apply (Hls k1).
    + exfalso. apply H1'. by apply (Hls k2).
    + destruct (decide (k1 = k)) as [->|Hne1];
        destruct (decide (k2 = k)) as [->|Hne2]; auto.
      * rewrite Ho1 in H2 by done. exfalso. apply H2'. by apply (Hls k2).
      * rewrite Ho1 in H1 by done. exfalso. apply H1'. by apply (Hls k1).
      * rewrite Ho1 in H1 by done. exfalso. apply H1'. by apply (Hls k1).
  - intros k1 k2 l H1 H2. apply Hn1 in H1 as [H1|H1].
    + apply (Hap k1 k2 l); auto.
    + apply H1. apply (Hlt k2). auto.
Qed.

Lemma bget_tail_not_Arr k k0 v0 (items : Batch) :
  NoDup (((k0, v0) :: items).*1) ->
  (forall lv, bget k ((k0, v0) :: items) <> Some (Arr lv)) ->
  forall lv, bget k items <> Some (Arr lv).
Proof.
  intros Hnd Hno lv Hlv. rewrite fmap_cons in Hnd.
  apply NoDup_cons in Hnd as [Hk0 _]. cbn in Hk0.
  destruct (decide (k0 = k)) as [->|Hne].
  - by rewrite bget_not_key in Hlv.
  - apply (Hno lv). by rewrite bget_cons_ne.
Qed.

(** An array of the full-width record whose key the working record
    does not write is left as it is. *)
Lemma batch_set_item_loop_untouched items :
  forall source (h : heap) source' h' k l,
    scatter_ready h source items ->
    _batch_set_item_loop items source indices size h = Ok source' h' ->
    (forall lv, bget k items <> Some (Arr lv)) ->
    bget k source = Some (Arr l) ->
    h' !! l = h !! l.
Proof.
  induction items as [|[k0 [|lv0]] items IH];
    intros source h source' h' k l Hready H Hno Hl.
  - cbn in H. step_ok. done.
  - cbn in H. eapply IH; eauto using scatter_ready_skip.
    destruct Hready as (Hnd & _). eauto using bget_tail_not_Arr.
  - cbn in H. step_ok.
    match goal with Hb : _batch_set_item_body _ _ _ _ _ _ = _ |- _ =>
      rename Hb into Hbody end.
    assert (k0 <> k) as Hne.
    { intros ->. apply (Hno lv0). apply bget_cons_eq. }
    pose proof (scatter_ready_step _ _ _ _ _ _ _ Hready Hbody) as Hready1.
    pose proof Hready as (Hnd & Hls & Hlt & Hdi & Hap).
    pose proof (batch_set_item_body_frame _ _ _ _ _ _ Hbody)
      as (_ & _ & Hk1 & _).
    transitivity (x0 !! l).
    + eapply IH; eauto using bget_tail_not_Arr.
    + apply batch_set_item_body_Ok in Hbody as (va & Hva & Hbody).
      destruct Hbody as [(l0 & d & r & Hk & -> & Hd & Hset & ->)
                        |(inst & r & Hk & Hfirst & -> & Hset & ->)].
      * rewrite lookup_insert_ne; [done|].
        intros ->. apply Hne. by apply (Hdi k0 k l).
      * rewrite lookup_insert_ne; [done|].
        apply fresh_not_live. by apply (Hls k).
Qed.

(** What the scatter does to each key of the working record. *)
Lemma batch_set_item_loop_written items :
  forall source (h : heap) source' h' k lv,
    scatter_ready h source items ->
    _batch_set_item_loop items source indices size h = Ok source' h' ->
    bget k items = Some (Arr lv) ->
    exists v ls base r,
      h !! lv = Some v /\
      bget k source' = Some (Arr ls) /\
      scatter_base h source k v size ls base /\
      set_rows base indices v = Success r /\
      h' !! ls = Some (mkArray (kind base) r).
Proof.
  induction items as [|[k0 [|lv0]] items IH];
    intros source h source' h' k lv Hready H Hk.
  - done.
  - cbn in H. pose proof Hready as (Hnd & _).
    cbn in Hnd. apply NoDup_cons in Hnd as [Hk0 _].
    destruct (decide (k0 = k)) as [->|Hne].
    { rewrite bget_cons_eq in Hk. done. }
    rewrite bget_cons_ne in Hk by done.
    eapply IH; eauto using scatter_ready_skip.
  - cbn in H. step_ok.
    match goal with Hb : _batch_set_item_body _ _ _ _ _ _ = _ |- _ =>
      rename Hb into Hbody end.
    pose proof (scatter_ready_step _ _ _ _ _ _ _ Hready Hbody) as Hready1.
    pose proof Hready as (Hnd & Hls & Hlt & Hdi & Hap).
    cbn in Hnd. apply NoDup_cons in Hnd as [Hk0 Hnd].
    pose proof (batch_set_item_body_frame _ _ _ _ _ _ Hbody)
      as (Hd1 & _ & Hk1 & _ & Ho1 & _).
    pose proof (batch_set_item_loop_frame _ _ _ _ _ H)
      as (_ & _ & Hkeep & _).
    destruct (decide (k0 = k)) as [->|Hne].
    + (* the key written now: the later keys leave it alone *)
      rewrite bget_cons_eq in Hk. injection Hk as ->.
      assert (forall ls, bget k x = Some (Arr ls) -> x0 !! ls = h' !! ls)
        as Hlater.
      { intros ls Hls1. symmetry.
        eapply batch_set_item_loop_untouched; eauto.
        intros lv'. by rewrite bget_not_key. }
      apply batch_set_item_body_Ok in Hbody as (va & Hva & Hbody).
      destruct Hbody as [(l0 & d & r & Hks & -> & Hd & Hset & ->)
                        |(inst & r & Hks & Hfirst & -> & Hset & ->)].
      * exists va, l0, d, r. repeat split; auto.
        -- unfold scatter_base. apply bget_default_Arr in Hks as ->. done.
        -- rewrite <- (Hlater l0 Hks). apply lookup_insert_eq.
      * apply first_row_Success in Hfirst as Hinst.
        destruct Hinst as [c ->].
        exists va, (fresh (dom h)), (_create_value (kind va, c) size), r.
        repeat split; auto.
        -- apply Hkeep. apply bget_bset_eq.
        -- unfold scatter_base. rewrite Hks. split; [apply is_fresh|].
           exists c. repeat split; auto. cbn. apply repeat_length.
        -- rewrite <- Hlater by apply bget_bset_eq. apply lookup_insert_eq.
    + (* a later key: the write just done did not touch what it uses *)
      rewrite bget_cons_ne in Hk by done.
      destruct (IH _ _ _ _ _ _ Hready1 H Hk)
        as (v & ls & base & r & Hv & Hb & Hbase & Hset & Hres).
      assert (forall l, l ∈ dom h ->
                        bget k0 x <> Some (Arr l) -> x0 !! l = h !! l)
        as Hsame.
      { intros l Hl Hnot.
        apply batch_set_item_body_Ok in Hbody as (va & Hva & Hbody).
        destruct Hbody as [(l0 & d & r0 & Hks & -> & Hd & Hset0 & ->)
                          |(inst & r0 & Hks & Hfirst & -> & Hset0 & ->)].
        - rewrite lookup_insert_ne; [done|]. intros ->. done.
        - rewrite lookup_insert_ne; [done|]. by apply fresh_not_live. }
      assert (lv ∈ dom h) as Hlvdom.
      { apply (Hlt k). by rewrite bget_cons_ne. }
      assert (x0 !! lv = h !! lv) as Hlv.
      { apply Hsame; [done|]. intros Hx.
        destruct Hready1 as (_ & _ & _ & _ & Hap1).
        by apply (Hap1 k0 k lv). }
      exists v, ls, base, r. repeat split; auto.
      * congruence.
      * unfold scatter_base in *. unfold bget_default in *.
        rewrite Ho1 in Hbase by done.
        destruct (bget k source) as [[|l0]|] eqn:Hks.
        -- destruct Hbase as (Hfresh & Hc). split; [|done].
           intros Hl. apply Hfresh. by apply Hd1.
        -- destruct Hbase as (-> & Hl0). split; [done|].
           rewrite <- Hl0. symmetry. apply Hsame.
           ++ by apply (Hls k).
           ++ intros Hx. apply Hne.
              destruct Hready1 as (_ & _ & _ & Hdi1 & _).
              apply (Hdi1 k0 k l0); [done|]. apply Hk1. done.
        -- destruct Hbase as (Hfresh & Hc). split; [|done].
           intros Hl. apply Hfresh. by apply Hd1.
Qed.

End scatter.

Lemma bget_locs k l (b : Batch) : bget k b = Some (Arr l) -> l ∈ locs b.
Proof.
  intros H. apply bget_elem_of in H. unfold locs.
  apply list_elem_of_omap. exists (k, Arr l). done.
Qed.

Lemma locs_distinct (b : Batch) : NoDup (locs b) -> fields_distinct b.
Proof.
  induction b as [|[k0 v0] b IH]; intros Hnd k1 k2 l H1 H2; [done|].
  assert (NoDup (locs b) /\ (forall l0, v0 = Arr l0 -> l0 ∉ locs b))
    as [Hnd' Hv0].
  { unfold locs in *. cbn in Hnd. destruct v0 as [|l0]; cbn in Hnd.
    - split; [done|]. intros l0 [=].
    - apply NoDup_cons in Hnd as [Hl0 Hnd]. split; [done|].
      intros ? [= <-]. done. }
  destruct (decide (k0 = k1)) as [<-|Hne1];
    destruct (decide (k0 = k2)) as [<-|Hne2]; auto.
  - rewrite bget_cons_eq in H1. rewrite bget_cons_ne in H2 by done.
    injection H1 as ->. exfalso. apply (Hv0 l); [done|]. by apply (bget_locs k2).
  - rewrite bget_cons_eq in H2. rewrite bget_cons_ne in H1 by done.
    injection H2 as ->. exfalso. apply (Hv0 l); [done|]. by apply (bget_locs k1).
  - rewrite bget_cons_ne in H1, H2 by done. by apply (IH Hnd' k1 k2 l).
Qed.

Lemma scatter_readyb_sound (h : heap) source target :
  scatter_readyb h source target = true -> scatter_ready h source target.
Proof.
  unfold scatter_readyb. rewrite !andb_true_iff, !forallb_forall.
  intros ((((Hnd & Hls) & Hlt) & Hdi) & Hap).
  apply bool_decide_eq_true in Hnd, Hdi.
  repeat split; auto.
  - intros k l Hl. apply bget_locs, list_elem_of_In, Hls in Hl.
    apply bool_decide_eq_true in Hl. by apply elem_of_dom.
  - intros k l Hl. apply bget_locs, list_elem_of_In, Hlt in Hl.
    apply bool_decide_eq_true in Hl. by apply elem_of_dom.
  - by apply locs_distinct.
  - intros k1 k2 l H1 H2. apply bget_locs, list_elem_of_In, Hap in H1.
    apply bool_decide_eq_true in H1. apply H1. by apply (bget_locs k2).
Qed.

(** C4.  The scatter [_batch_set_item source indices target size] of a
    working record [target] into the full-width record [source].  When
    the call returns:
    - for every field of the working record that holds values [v], the
      full-width record has an array at that key; it is the array it had
      before, or, if the key was missing or a placeholder, a newly
      allocated container of [size] rows made from the first row of [v];
      and this array now holds [v] written at [indices];
    - a key that is a placeholder in (or absent from) the working record
      keeps its binding and its contents in the full-width record;
    - every array that is not a field of the full-width record is as it
      was before the call, the arrays of the working record among them. *)
Theorem batch_set_item_scatter (h : heap) source indices target size source' h' :
  scatter_ready h source target ->
  _batch_set_item source indices target size h = Ok source' h' ->
  (forall k lv, bget k target = Some (Arr lv) ->
     exists v ls base r,
       h !! lv = Some v /\
       bget k source' = Some (Arr ls) /\
       scatter_base h source k v size ls base /\
       set_rows base indices v = Success r /\
       h' !! ls = Some (mkArray (kind base) r)) /\
  (forall k, bget_default k target = Placeholder ->
     bget k source' = bget k source /\
     (forall l, bget k source = Some (Arr l) -> h' !! l = h !! l)) /\
  (forall l, l ∈ dom h -> (forall k, bget k source <> Some (Arr l)) ->
     h' !! l = h !! l) /\
  (forall k lv, bget k target = Some (Arr lv) -> h' !! lv = h !! lv).
Proof.
  unfold _batch_set_item. intros Hready H.
  pose proof (batch_set_item_loop_frame _ _ _ _ _ _ _ H)
    as (_ & Hframe & _ & _ & Hother).
  pose proof Hready as (Hnd & Hls & Hlt & Hdi & Hap).
  repeat split.
  - intros k lv Hk. eapply batch_set_item_loop_written; eauto.
  - apply Hother. intros lv Hin.
    assert (bget k target = Some (Arr lv)) as Hk.
    { clear -Hnd Hin. induction target as [|[k0 v0] b IH]; [by inversion Hin|].
      rewrite fmap_cons in Hnd. apply NoDup_cons in Hnd as [Hk0 Hnd].
      apply elem_of_cons in Hin as [[= <- <-]|Hin].
      - apply bget_cons_eq.
      - rewrite bget_cons_ne; [by apply IH|]. intros <-. apply Hk0.
        apply list_elem_of_fmap. by exists (k0, Arr lv). }
    unfold bget_default in *. rewrite Hk in *. done.
  - intros l Hl. eapply batch_set_item_loop_untouched; eauto.
    intros lv Hk. unfold bget_default in *. rewrite Hk in *. done.
  - done.
  - intros k lv Hk. apply Hframe.
    + by apply (Hlt k).
    + intros k' Hk'. by apply (Hap k' k lv).
Qed.

(** ** Commands on the state of a collector *)

Section commands.
Context {W : Type}.
Implicit Types s : State W.

Lemma on_heap_Ok {A} (m : M heap A) s a s' :
  on_heap m s = Ok a s' ->
  exists h', m (st_heap s) = Ok a h' /\
             s' = mkState h' (st_world s) (st_self s) (st_trace s).
Proof.
  unfold on_heap. destruct (m (st_heap s)) as [a0 h0|e h0]; [|done].
  intros [= <- <-]. eauto.
Qed.

Lemma call_Ok {A} (f : W -> W * A) s a s' :
  call f s = Ok a s' ->
  a = snd (f (st_world s)) /\
  s' = mkState (st_heap s) (fst (f (st_world s))) (st_self s) (st_trace s).
Proof. unfold call. intros [= <- <-]. auto. Qed.

Lemma emit_Ok (e : event) s u s' :
  emit e s = Ok u s' ->
  s' = mkState (st_heap s) (st_world s) (st_self s) (st_trace s ++ [e]).
Proof. unfold emit. intros [= <- <-]. auto. Qed.

Lemma get_self_Ok s c s' :
  get_self s = Ok c s' -> c = st_self s /\ s' = s.
Proof. unfold get_self. intros [= <- <-]. auto. Qed.

Lemma modify_self_Ok f s u s' :
  modify_self f s = Ok u s' ->
  s' = mkState (st_heap s) (st_world s) (f (st_self s)) (st_trace s).
Proof. unfold modify_self. intros [= <- <-]. auto. Qed.

Lemma get_data_Ok s d s' :
  get_data s = Ok d s' -> d = data (st_self s) /\ s' = s.
Proof. unfold get_data, bind, get_self, ret. intros [= <- <-]. auto. Qed.

(** *** Properties every outcome of a command keeps *)

Section rules.
Context {X : Type} (view : State W -> X).
Local Abbreviation R := (keeps view).

Local Instance keeps_preorder : PreOrder (keeps view).
Proof.
  split; unfold keeps; [by intros s | intros s1 s2 s3; congruence].
Qed.

Lemma stable_ret {A} (a : A) : stable R (ret a).
Proof. intros s. cbn. reflexivity. Qed.

Lemma stable_raise {A} e : stable R (@raise _ A e).
Proof. intros s. cbn. reflexivity. Qed.

Lemma stable_lift_result {A} (r : result A) : stable R (lift_result r).
Proof. destruct r; [apply stable_ret | apply stable_raise]. Qed.

Lemma stable_get_self : stable R get_self.
Proof. intros s. cbn. reflexivity. Qed.

Lemma stable_bind {A B} (m : M (State W) A) (k : A -> M (State W) B) :
  stable R m -> (forall a, stable R (k a)) -> stable R (bind m k).
Proof.
  intros Hm Hk s. specialize (Hm s). unfold bind.
  destruct (m s) as [a s1|e s1]; cbn in *; [|done].
  etrans; [exact Hm|]. apply Hk.
Qed.

Lemma stable_get_data : stable R get_data.
Proof.
  apply stable_bind; [apply stable_get_self|]. intros. apply stable_ret.
Qed.

Lemma stable_on_heap {A} (m : M heap A) :
  (forall s h, R s (mkState h (st_world s) (st_self s) (st_trace s))) ->
  stable R (on_heap m).
Proof.
  intros H s. unfold on_heap. destruct (m (st_heap s)); cbn; apply H.
Qed.

Lemma stable_call {A} (f : W -> W * A) :
  (forall s w, R s (mkState (st_heap s) w (st_self s) (st_trace s))) ->
  stable R (call f).
Proof. intros H s. cbn. apply H. Qed.

Lemma stable_emit e :
  (forall s, R s (mkState (st_heap s) (st_world s) (st_self s)
                    (st_trace s ++ [e]))) ->
  stable R (emit e).
Proof. intros H s. cbn. apply H. Qed.

Lemma stable_modify_self f :
  (forall s, R s (mkState (st_heap s) (st_world s) (f (st_self s))
                    (st_trace s))) ->
  stable R (modify_self f).
Proof. intros H s. cbn. apply H. Qed.
End rules.

(** A command that keeps a view keeps every part of it. *)
Lemma stable_keeps_part {X Y} (view : State W -> X) (part : X -> Y)
    {A} (m : M (State W) A) :
  stable (keeps view) m -> stable (keeps (fun s => part (view s))) m.
Proof. intros H s. unfold keeps. f_equal. apply H. Qed.
End commands.

Ltac step_st :=
  first
    [ step_ok
    | match goal with
      | H : on_heap _ _ = Ok _ _ |- _ =>
          apply on_heap_Ok in H as (? & H & ?); subst
      | H : call _ _ = Ok _ _ |- _ => apply call_Ok in H as [? ?]; subst
      | H : emit _ _ = Ok _ _ |- _ => apply emit_Ok in H; subst
      | H : get_self _ = Ok _ _ |- _ => apply get_self_Ok in H as [? ?]; subst
      | H : get_data _ = Ok _ _ |- _ => apply get_data_Ok in H as [? ?]; subst
      | H : modify_self _ _ = Ok _ _ |- _ => apply modify_self_Ok in H; subst
      end ].

(** Decomposes a goal [stable R m] along the structure of [m]; what is
    left are the obligations of the commands that write the state. *)
Ltac stable_step :=
  lazymatch goal with
  | |- stable _ (ret _) => apply stable_ret
  | |- stable _ (raise _) => apply stable_raise
  | |- stable _ (lift_result _) => apply stable_lift_result
  | |- stable _ get_self => apply stable_get_self
  | |- stable _ get_data => apply stable_get_data
  | |- stable _ (bind _ _) => apply stable_bind; [|intros ?]
  | |- stable _ (on_heap _) => apply stable_on_heap
  | |- stable _ (call _) => apply stable_call
  | |- stable _ (emit _) => apply stable_emit
  | |- stable _ (modify_self _) => apply stable_modify_self
  | |- stable _ (match ?x with _ => _ end) => destruct x
  | |- stable _ (if ?x then _ else _) => destruct x
  | |- stable _ (let _ := _ in _) => cbv zeta
  end.

Lemma steps_of_snoc tr e :
  steps_of (tr ++ [e]) = steps_of tr + (if is_step e then 1 else 0).
Proof.
  unfold steps_of. rewrite List.filter_app, length_app. cbn.
  by destruct (is_step e).
Qed.

Lemma warns_of_snoc tr e :
  warns_of (tr ++ [e]) = warns_of tr + (if is_warn e then 1 else 0).
Proof.
  unfold warns_of. rewrite List.filter_app, length_app. cbn.
  by destruct (is_warn e).
Qed.

(** Closes the obligations [stable_step] leaves for a view. *)
Ltac view_tac :=
  intros;
  unfold keeps, view_all, view_but_steps, view_but_buffer, view_but_warns,
    view_but_counters, me_view, steps_view, warns_view, self_view;
  cbn [st_heap st_world st_self st_trace];
  rewrite ?steps_of_snoc, ?warns_of_snoc;
  cbn [is_step is_warn]; rewrite ?Nat.add_0_r; cbn;
  repeat match goal with
         | |- context [match buffer ?c with _ => _ end] => destruct (buffer c)
         end;
  try reflexivity.

Ltac stable_tac := repeat (stable_step; try solve [view_tac]).

(** ** The phases of an iteration keep what they do not handle *)

Section phases.
Context {W : Type} (ext : Externals W).

Lemma update_field_quiet k v :
  stable (keeps (@view_all W)) (update_field k v).
Proof. unfold update_field. stable_tac. Qed.

Lemma preprocess_obs_quiet obs :
  stable (keeps (@view_all W)) (preprocess_obs ext obs).
Proof. unfold preprocess_obs. stable_tac. Qed.

Lemma take_subset_quiet lv :
  stable (keeps (@view_all W)) (take_subset lv).
Proof. unfold take_subset. stable_tac. Qed.

Lemma take_last_state_quiet :
  stable (keeps (@view_all W)) take_last_state.
Proof. unfold take_last_state. stable_tac. Qed.

Lemma sample_actions_quiet ids :
  stable (keeps (@view_all W)) (sample_actions ext ids).
Proof. induction ids; cbn; stable_tac. done. Qed.

Lemma choose_action_quiet cfg last_state :
  stable (keeps (@view_all W)) (choose_action ext cfg last_state).
Proof.
  unfold choose_action. stable_tac. apply sample_actions_quiet.
Qed.

Lemma store_result_quiet r :
  stable (keeps (@view_all W)) (store_result ext r).
Proof.
  unfold store_result. stable_tac; apply update_field_quiet.
Qed.

Lemma step_env_quiet act lv :
  stable (keeps (@view_but_steps W)) (step_env ext act lv).
Proof.
  unfold step_env. stable_tac;
    apply (stable_keeps_part view_all (fun v => (v.1.1, v.2)));
    apply update_field_quiet.
Qed.

Lemma render_step_quiet cfg :
  stable (keeps (@view_all W)) (render_step cfg).
Proof. unfold render_step, render_envs. stable_tac. Qed.

Lemma preprocess_step_quiet :
  stable (keeps (@view_all W)) (preprocess_step ext).
Proof. unfold preprocess_step. stable_tac. Qed.

Lemma _reset_state_quiet id :
  stable (keeps (@view_all W)) (_reset_state id).
Proof. unfold _reset_state. stable_tac. Qed.

Lemma cache_reset_quiet i :
  stable (keeps (@view_all W)) (cache_reset i).
Proof. unfold cache_reset. stable_tac. Qed.

Lemma cache_add_quiet j i :
  stable (keeps (@view_all W)) (cache_add j i).
Proof. unfold cache_add. stable_tac. Qed.

Lemma done_at_quiet j :
  stable (keeps (@view_all W)) (done_at j).
Proof. unfold done_at. stable_tac. Qed.

Lemma count_episode_quiet i lv :
  stable (keeps (@view_but_buffer W)) (count_episode i lv).
Proof.
  unfold count_episode. stable_tac.
  intros s. unfold flush_into_buffer. view_tac.
Qed.

Lemma on_done_quiet cfg j i lv :
  stable (keeps (@view_but_buffer W)) (on_done cfg j i lv).
Proof.
  unfold on_done. stable_tac.
  - apply count_episode_quiet.
  - apply (stable_keeps_part view_all (fun v => (v.1.1.1, v.1.2, v.2))).
    apply cache_reset_quiet.
  - apply (stable_keeps_part view_all (fun v => (v.1.1.1, v.1.2, v.2))).
    apply _reset_state_quiet.
Qed.

Lemma bookkeep_one_quiet cfg j i lv :
  stable (keeps (@view_but_buffer W)) (bookkeep_one cfg j i lv).
Proof.
  unfold bookkeep_one. stable_tac.
  - apply (stable_keeps_part view_all (fun v => (v.1.1.1, v.1.2, v.2))).
    apply cache_add_quiet.
  - apply (stable_keeps_part view_all (fun v => (v.1.1.1, v.1.2, v.2))).
    apply done_at_quiet.
  - apply on_done_quiet.
Qed.

Lemma bookkeep_quiet cfg ids : forall j lv,
  stable (keeps (@view_but_buffer W)) (bookkeep cfg j ids lv).
Proof.
  induction ids as [|i ids IH]; intros j lv; cbn; stable_tac.
  - apply bookkeep_one_quiet.
  - apply IH.
Qed.

Lemma bookkeeping_quiet cfg lv :
  stable (keeps (@view_but_buffer W)) (bookkeeping cfg lv).
Proof. unfold bookkeeping. stable_tac. apply bookkeep_quiet. Qed.

Lemma auto_reset_quiet :
  stable (keeps (@view_all W)) (auto_reset ext).
Proof. unfold auto_reset. stable_tac. apply preprocess_obs_quiet. Qed.

Lemma scatter_back_quiet lv :
  stable (keeps (@view_all W)) (scatter_back lv).
Proof. unfold scatter_back. stable_tac. Qed.

Lemma warn_check_quiet lv :
  stable (keeps (@view_but_warns W)) (warn_check lv).
Proof. unfold warn_check. stable_tac. Qed.

End phases.

(** ** Counting episodes *)

Lemma list_index_Success {A} (l : list A) j x :
  list_index l j = Success x <-> l !! j = Some x.
Proof. unfold list_index. destruct (l !! j); split; congruence. Qed.

Lemma sum_Z_cons x l : sum_Z (x :: l) = (x + sum_Z l)%Z.
Proof. reflexivity. Qed.

Lemma sum_Z_insert (l : list Z) i c d :
  l !! i = Some c -> sum_Z (<[i := d]> l) = (sum_Z l - c + d)%Z.
Proof.
  revert i. induction l as [|x l IH]; intros [|i] H; try done.
  - cbn in H. injection H as ->.
    change (<[0:=d]> (c :: l)) with (d :: l). rewrite !sum_Z_cons. lia.
  - cbn in H. specialize (IH _ H).
    change (<[S i:=d]> (x :: l)) with (x :: <[i:=d]> l).
    rewrite !sum_Z_cons. lia.
Qed.

Lemma sum_Z_app l1 l2 : sum_Z (l1 ++ l2) = (sum_Z l1 + sum_Z l2)%Z.
Proof.
  induction l1 as [|x l1 IH]; [reflexivity|].
  rewrite <- app_comm_cons, !sum_Z_cons. lia.
Qed.

Lemma sum_Z_nonneg l : Forall (fun c => (0 <= c)%Z) l -> (0 <= sum_Z l)%Z.
Proof. induction 1; [reflexivity|]. rewrite sum_Z_cons. lia. Qed.

Lemma sum_Z_repeat_0 n : sum_Z (repeat 0%Z n) = 0%Z.
Proof. induction n as [|n IH]; [reflexivity|]. cbn [repeat]. by rewrite sum_Z_cons. Qed.

Lemma episodes_len_snoc eps c :
  episodes_len (eps ++ [c]) = (episodes_len eps + Z.of_nat (length c))%Z.
Proof.
  unfold episodes_len. rewrite map_app, sum_Z_app. cbn [map].
  rewrite sum_Z_cons. change (sum_Z []) with 0%Z. by rewrite Z.add_0_r.
Qed.

Lemma episodes_len_nonneg eps : (0 <= episodes_len eps)%Z.
Proof.
  unfold episodes_len. apply sum_Z_nonneg, Forall_forall.
  intros x Hx. apply list_elem_of_fmap in Hx as (c & -> & _). lia.
Qed.

Lemma add_rewards_snoc total eps c t r t' :
  add_rewards total eps = Success t ->
  np_sum_axis0 (cache_rew c) = Success r ->
  np_iadd t r = Success t' ->
  add_rewards total (eps ++ [c]) = Success t'.
Proof.
  revert total. induction eps as [|c0 eps IH]; intros total; cbn.
  - intros [= ->] -> ->. done.
  - destruct (np_sum_axis0 (cache_rew c0)); [|done].
    destruct (np_iadd total a); [|done]. apply IH.
Qed.

Lemma counts_ok_counters n lv lv' :
  counters lv' = counters lv -> counts_ok n lv -> counts_ok n lv'.
Proof.
  unfold counters. intros [= H1 H2 H3 H4] [].
  split; rewrite ?H1, ?H2, ?H3, ?H4; done.
Qed.

Lemma slots_within_counters cfg lv lv' :
  counters lv' = counters lv -> slots_within cfg lv -> slots_within cfg lv'.
Proof.
  unfold counters, slots_within. intros [= H1 H2 H3 H4] H. by rewrite H2.
Qed.

Lemma stable_Ok {W X} (view : State W -> X) {A} (m : M (State W) A) s a s' :
  stable (keeps view) m -> m s = Ok a s' -> view s = view s'.
Proof. intros H Hm. specialize (H s). by rewrite Hm in H. Qed.

Section counting.
Context {W : Type} (ext : Externals W).
Implicit Types s : State W.

(** What counting an episode does (lines 304-308). *)
Lemma count_episode_Ok i lv s lv' s' :
  count_episode i lv s = Ok lv' s' ->
  exists c cache r total,
    episode_count lv !! i = Some c /\
    _cached_buf (st_self s) !! i = Some cache /\
    np_sum_axis0 (cache_rew cache) = Success r /\
    np_iadd (reward_total lv) r = Success total /\
    lv' = mkLocals (step_count lv + Z.of_nat (length cache))%Z
            (<[i := (c + 1)%Z]> (episode_count lv)) total
            (whole_data lv) (flushed lv ++ [cache]) /\
    s' = mkState (st_heap s) (st_world s)
           (flush_into_buffer cache (st_self s)) (st_trace s).
Proof.
  unfold count_episode. intros H. repeat step_st.
  repeat match goal with
         | Hx : list_index _ _ = Success _ |- _ =>
             apply list_index_Success in Hx
         end.
  eexists _, _, _, _. repeat split; eauto.
Qed.

Lemma is_counted_true cfg i lv :
  is_counted cfg i lv = Success true ->
  step_truthy (n_step cfg) = false ->
  np_isscalar (n_episode cfg) = false ->
  exists c n, episode_count lv !! i = Some c /\
              py_index (n_episode cfg) i = Success n /\ (c < n)%Z.
Proof.
  unfold is_counted. intros H Hs Hv. rewrite Hs, Hv in H.
  destruct (list_index _ _) as [c|] eqn:Hc; [|done].
  destruct (py_index _ _) as [n|] eqn:Hn; [|done].
  injection H as H. apply Z.ltb_lt in H.
  apply list_index_Success in Hc. eauto.
Qed.

Lemma count_episode_counts i lv s lv' s' n b0 :
  count_episode i lv s = Ok lv' s' ->
  counts_ok n lv ->
  buffer (st_self s) = buffer_after b0 (flushed lv) ->
  counts_ok n lv' /\
  buffer (st_self s') = buffer_after b0 (flushed lv') /\
  whole_data lv' = whole_data lv.
Proof.
  intros H [Hlen Hnn Hst Hep Hrw] Hbuf.
  apply count_episode_Ok in H
    as (c & cache & r & total & Hc & Hcache & Hr & Htotal & -> & ->).
  repeat split;
    cbn [step_count episode_count reward_total whole_data flushed
         st_self st_heap st_world st_trace]; try done.
  - by rewrite length_insert.
  - apply Forall_insert; [done|].
    rewrite Forall_lookup in Hnn. specialize (Hnn _ _ Hc). cbn in Hnn. lia.
  - rewrite episodes_len_snoc. lia.
  - rewrite (sum_Z_insert _ _ c) by done. rewrite length_app. cbn. lia.
  - by eapply add_rewards_snoc.
  - unfold flush_into_buffer, buffer_after in *.
    destruct (buffer (st_self s)) as [b|] eqn:Hb; cbn.
    + destruct b0 as [b0|]; [|done]. cbn in *. injection Hbuf as ->.
      rewrite concat_app. cbn. by rewrite app_nil_r, app_assoc.
    + rewrite Hb. by destruct b0.
Qed.

(** Lines 302-310, step by step. *)
Lemma on_done_Ok cfg j i lv s lv' s' :
  on_done cfg j i lv s = Ok lv' s' ->
  exists counted s1 s2,
    is_counted cfg i lv = Success counted /\
    (if counted : bool then count_episode i lv s = Ok lv' s1
     else lv' = lv /\ s1 = s) /\
    cache_reset i s1 = Ok tt s2 /\
    _reset_state j s2 = Ok tt s'.
Proof.
  unfold on_done. intros H. repeat step_ok.
  repeat match goal with u : () |- _ => destruct u end.
  match goal with Hc : (if ?b then _ else _) _ = Ok _ _ |- _ =>
    exists b; destruct b end.
  - eexists _, _. eauto.
  - step_ok. eexists _, _. eauto.
Qed.

Lemma on_done_counts cfg j i lv s lv' s' n b0 :
  on_done cfg j i lv s = Ok lv' s' ->
  counts_ok n lv ->
  buffer (st_self s) = buffer_after b0 (flushed lv) ->
  counts_ok n lv' /\
  buffer (st_self s') = buffer_after b0 (flushed lv') /\
  whole_data lv' = whole_data lv.
Proof.
  intros H Hok Hbuf.
  apply on_done_Ok in H as (counted & s1 & s2 & Hc & Hcount & Hr1 & Hr2).
  assert (buffer (st_self s') = buffer (st_self s1)) as Hsame.
  { pose proof (stable_Ok _ _ _ _ _ (cache_reset_quiet i) Hr1) as E1.
    pose proof (stable_Ok _ _ _ _ _ (_reset_state_quiet j) Hr2) as E2.
    unfold view_all in E1, E2. congruence. }
  rewrite Hsame. destruct counted.
  - eapply count_episode_counts; eauto.
  - destruct Hcount as [-> ->]. auto.
Qed.

Lemma bookkeep_one_counts cfg j i lv s lv' s' n b0 :
  bookkeep_one cfg j i lv s = Ok lv' s' ->
  counts_ok n lv ->
  buffer (st_self s) = buffer_after b0 (flushed lv) ->
  counts_ok n lv' /\
  buffer (st_self s') = buffer_after b0 (flushed lv') /\
  whole_data lv' = whole_data lv.
Proof.
  unfold bookkeep_one. intros H Hok Hbuf. repeat step_ok.
  match goal with Ha : cache_add _ _ _ = Ok _ ?sa,
                  Hd : done_at _ ?sa = Ok _ ?sd |- _ =>
    pose proof (stable_Ok _ _ _ _ _ (cache_add_quiet j i) Ha) as E1;
    pose proof (stable_Ok _ _ _ _ _ (done_at_quiet j) Hd) as E2;
    assert (buffer (st_self sd) = buffer (st_self s)) as Hsame
      by (unfold view_all in E1, E2; congruence)
  end.
  match goal with Hc : (if ?b then _ else _) _ = Ok _ _ |- _ =>
    destruct b end.
  - eapply on_done_counts; eauto. by rewrite Hsame.
  - step_ok. rewrite Hsame. auto.
Qed.

Lemma bookkeep_counts cfg ids : forall j lv s lv' s' n b0,
  bookkeep cfg j ids lv s = Ok lv' s' ->
  counts_ok n lv ->
  buffer (st_self s) = buffer_after b0 (flushed lv) ->
  counts_ok n lv' /\
  buffer (st_self s') = buffer_after b0 (flushed lv') /\
  whole_data lv' = whole_data lv.
Proof.
  induction ids as [|i ids IH]; intros j lv s lv' s' n b0 H Hok Hbuf.
  - cbn in H. step_ok. auto.
  - cbn in H. step_ok.
    match goal with Hb : bookkeep_one _ _ _ _ _ = Ok _ _ |- _ =>
      destruct (bookkeep_one_counts _ _ _ _ _ _ _ n b0 Hb Hok Hbuf)
        as (Hok1 & Hbuf1 & Hwh1) end.
    destruct (IH _ _ _ _ _ n b0 H Hok1 Hbuf1) as (? & ? & Hwh2).
    split_and!; auto. congruence.
Qed.

Lemma bookkeeping_counts cfg lv s lv' s' n b0 :
  bookkeeping cfg lv s = Ok lv' s' ->
  counts_ok n lv ->
  buffer (st_self s) = buffer_after b0 (flushed lv) ->
  counts_ok n lv' /\
  buffer (st_self s') = buffer_after b0 (flushed lv') /\
  whole_data lv' = whole_data lv.
Proof.
  unfold bookkeeping. intros H. repeat step_st.
  eapply bookkeep_counts; eauto.
Qed.

End counting.

(** Inversion of a successful run, also through the branches. *)
Ltac step_all :=
  first
    [ step_st
    | match goal with
      | H : (if ?b then _ else _) _ = Ok _ _ |- _ => destruct b eqn:?
      | H : (match ?x with _ => _ end) _ = Ok _ _ |- _ => destruct x eqn:?
      | u : () |- _ => destruct u
      end ].

Section iteration.
Context {W : Type} (ext : Externals W).
Implicit Types s : State W.

Lemma take_subset_counters lv s lv' s' :
  take_subset lv s = Ok lv' s' -> counters lv' = counters lv.
Proof. unfold take_subset. intros H. repeat step_all; done. Qed.

Lemma scatter_back_counters lv s lv' s' :
  scatter_back lv s = Ok lv' s' -> counters lv' = counters lv.
Proof. unfold scatter_back. intros H. repeat step_all; done. Qed.

Lemma update_field_steps k v s u s' :
  update_field k v s = Ok u s' ->
  steps_of (st_trace s') = steps_of (st_trace s).
Proof.
  intros H. apply (stable_Ok _ _ _ _ _ (update_field_quiet k v)) in H.
  unfold view_all in H. congruence.
Qed.

Lemma step_env_counters act lv s lv' s' :
  step_env ext act lv s = Ok lv' s' ->
  counters lv' = counters lv /\
  steps_of (st_trace s') = S (steps_of (st_trace s)).
Proof.
  unfold step_env. intros H. repeat step_all;
    repeat match goal with
           | Hu : update_field _ _ _ = Ok _ _ |- _ =>
               apply update_field_steps in Hu
           end;
    cbn [st_trace] in *;
    (split; [done|]);
    repeat match goal with
           | Hu : steps_of _ = steps_of _ |- _ => rewrite Hu; clear Hu
           end;
    rewrite steps_of_snoc; cbn; lia.
Qed.

(** One iteration, phase by phase. *)
Lemma iteration_Ok cfg lv s lv' s' :
  iteration ext cfg lv s = Ok lv' s' ->
  exists s1 lv1 s2 last s3 r s4 act s5 lv2 s6 s7 s8 lv3 s9 s10,
    warn_check lv s = Ok tt s1 /\
    take_subset lv s1 = Ok lv1 s2 /\
    take_last_state s2 = Ok last s3 /\
    choose_action ext cfg last s3 = Ok r s4 /\
    store_result ext r s4 = Ok act s5 /\
    step_env ext act lv1 s5 = Ok lv2 s6 /\
    render_step cfg s6 = Ok tt s7 /\
    preprocess_step ext s7 = Ok tt s8 /\
    bookkeeping cfg lv2 s8 = Ok lv3 s9 /\
    auto_reset ext s9 = Ok tt s10 /\
    scatter_back lv3 s10 = Ok lv' s'.
Proof.
  unfold iteration. intros H. repeat step_ok.
  repeat match goal with u : () |- _ => destruct u end.
  do 16 eexists. split_and!; eauto.
Qed.

(** While the counters account for the counted episodes, the
    diagnostic of lines 224-228 stays silent: steps are only added
    together with an episode. *)
Lemma warn_check_silent n lv s :
  counts_ok n lv -> warn_check lv s = Ok tt s.
Proof.
  intros [_ Hnn Hst Hep _]. unfold warn_check.
  destruct (100000 <=? step_count lv)%Z eqn:Hbig; [|done].
  destruct (sum_Z (episode_count lv) =? 0)%Z eqn:Hzero; [|done].
  exfalso. apply Z.leb_le in Hbig. apply Z.eqb_eq in Hzero.
  rewrite Hzero in Hep. destruct (flushed lv); [|done].
  rewrite Hst in Hbig. cbn in Hbig. lia.
Qed.

Lemma iteration_counts cfg lv s lv' s' n b0 :
  iteration ext cfg lv s = Ok lv' s' ->
  counts_ok n lv ->
  buffer (st_self s) = buffer_after b0 (flushed lv) ->
  counts_ok n lv' /\
  buffer (st_self s') = buffer_after b0 (flushed lv') /\
  self_view (st_self s') = self_view (st_self s) /\
  steps_of (st_trace s') = S (steps_of (st_trace s)) /\
  warns_of (st_trace s') = warns_of (st_trace s).
Proof.
  intros H Hok Hbuf.
  apply iteration_Ok in H
    as (s1 & lv1 & s2 & last & s3 & r & s4 & act & s5 & lv2 & s6 & s7 &
        s8 & lv3 & s9 & s10 &
        H1 & H2 & H3 & H4 & H5 & H6 & H7 & H8 & H9 & H10 & H11).
  rewrite (warn_check_silent n) in H1 by done. injection H1 as <-.
  pose proof (take_subset_counters _ _ _ _ H2) as C2.
  pose proof (step_env_counters _ _ _ _ _ H6) as [C6 T6].
  pose proof (scatter_back_counters _ _ _ _ H11) as C11.
  pose proof (stable_Ok _ _ _ _ _ (take_subset_quiet lv) H2) as E2.
  pose proof (stable_Ok _ _ _ _ _ take_last_state_quiet H3) as E3.
  pose proof (stable_Ok _ _ _ _ _ (choose_action_quiet ext cfg last) H4) as E4.
  pose proof (stable_Ok _ _ _ _ _ (store_result_quiet ext r) H5) as E5.
  pose proof (stable_Ok _ _ _ _ _ (step_env_quiet ext act lv1) H6) as E6.
  pose proof (stable_Ok _ _ _ _ _ (render_step_quiet cfg) H7) as E7.
  pose proof (stable_Ok _ _ _ _ _ (preprocess_step_quiet ext) H8) as E8.
  pose proof (stable_Ok _ _ _ _ _ (bookkeeping_quiet cfg lv2) H9) as E9.
  pose proof (stable_Ok _ _ _ _ _ (auto_reset_quiet ext) H10) as E10.
  pose proof (stable_Ok _ _ _ _ _ (scatter_back_quiet lv3) H11) as E11.
  unfold view_all, view_but_steps, view_but_buffer in *.
  repeat match goal with
         | E : (_, _) = (_, _) |- _ => apply pair_equal_spec in E as [? ?]
         end.
  assert (counts_ok n lv2) as Hok2.
  { apply (counts_ok_counters n lv); [congruence|done]. }
  assert (buffer (st_self s8) = buffer_after b0 (flushed lv2)) as Hbuf2.
  { assert (flushed lv2 = flushed lv) as -> by (unfold counters in *; congruence).
    congruence. }
  destruct (bookkeeping_counts _ _ _ _ _ n b0 H9 Hok2 Hbuf2)
    as (Hok3 & Hbuf3 & _).
  split_and!.
  - by apply (counts_ok_counters n lv3).
  - assert (flushed lv' = flushed lv3) as -> by (unfold counters in *; congruence).
    congruence.
  - congruence.
  - congruence.
  - congruence.
Qed.

End iteration.

(** ** From the views of the phases to single observations *)

Section parts.
Context {W : Type} {A : Type} (m : M (State W) A).

Lemma all_me : stable (keeps view_all) m -> stable (keeps me_view) m.
Proof. apply (stable_keeps_part view_all (fun v => v.1.1.1)). Qed.

Lemma but_steps_me : stable (keeps view_but_steps) m -> stable (keeps me_view) m.
Proof. apply (stable_keeps_part view_but_steps (fun v => v.1.1)). Qed.

Lemma but_buffer_me :
  stable (keeps view_but_buffer) m -> stable (keeps me_view) m.
Proof. apply (stable_keeps_part view_but_buffer (fun v => v.1.1)). Qed.

Lemma but_warns_me : stable (keeps view_but_warns) m -> stable (keeps me_view) m.
Proof. apply (stable_keeps_part view_but_warns (fun v => v.1.1)). Qed.

Lemma all_warns : stable (keeps view_all) m -> stable (keeps warns_view) m.
Proof. apply (stable_keeps_part view_all snd). Qed.

Lemma but_steps_warns :
  stable (keeps view_but_steps) m -> stable (keeps warns_view) m.
Proof. apply (stable_keeps_part view_but_steps snd). Qed.

Lemma but_buffer_warns :
  stable (keeps view_but_buffer) m -> stable (keeps warns_view) m.
Proof. apply (stable_keeps_part view_but_buffer snd). Qed.

Lemma all_steps : stable (keeps view_all) m -> stable (keeps steps_view) m.
Proof. apply (stable_keeps_part view_all (fun v => v.1.2)). Qed.

Lemma but_buffer_steps :
  stable (keeps view_but_buffer) m -> stable (keeps steps_view) m.
Proof. apply (stable_keeps_part view_but_buffer (fun v => v.1.2)). Qed.

Lemma but_warns_steps :
  stable (keeps view_but_warns) m -> stable (keeps steps_view) m.
Proof. apply (stable_keeps_part view_but_warns snd). Qed.
End parts.

Create HintDb quiet.
#[export] Hint Resolve update_field_quiet preprocess_obs_quiet take_subset_quiet
  take_last_state_quiet sample_actions_quiet choose_action_quiet
  store_result_quiet step_env_quiet render_step_quiet preprocess_step_quiet
  _reset_state_quiet cache_reset_quiet cache_add_quiet done_at_quiet
  count_episode_quiet on_done_quiet bookkeep_one_quiet bookkeep_quiet
  bookkeeping_quiet auto_reset_quiet scatter_back_quiet warn_check_quiet
  : quiet.

(** A phase keeps an observation when one of its views contains it. *)
Ltac quiet_tac :=
  first
    [ apply all_me; solve [auto with quiet]
    | apply but_steps_me; solve [auto with quiet]
    | apply but_buffer_me; solve [auto with quiet]
    | apply but_warns_me; solve [auto with quiet]
    | apply all_warns; solve [auto with quiet]
    | apply but_steps_warns; solve [auto with quiet]
    | apply but_buffer_warns; solve [auto with quiet]
    | apply all_steps; solve [auto with quiet]
    | apply but_buffer_steps; solve [auto with quiet]
    | apply but_warns_steps; solve [auto with quiet] ].

Ltac split_binds :=
  repeat lazymatch goal with
         | |- stable _ (bind _ _) => apply stable_bind; [|intros ?]
         end.

(** ** The loop *)

Section loop.
Context {W : Type} (ext : Externals W).
Implicit Types s : State W.

(** No iteration assigns the attributes in [self_view]. *)
Lemma iteration_keeps_me cfg lv :
  stable (keeps me_view) (iteration ext cfg lv).
Proof.
  unfold iteration.
  split_binds; quiet_tac.
Qed.

(** No iteration issues the warning. *)
Lemma iteration_keeps_warns cfg lv n :
  counts_ok n lv -> stable (keeps warns_view) (iteration ext cfg lv).
Proof.
  intros Hok. unfold iteration. split_binds;
    [|quiet_tac..].
  intros s. rewrite (warn_check_silent n) by done. reflexivity.
Qed.

Lemma init_locals_ok (c : Collector) : counts_ok (env_num c) (init_locals c).
Proof.
  split; cbn.
  - apply repeat_length.
  - apply Forall_forall. intros x Hx.
    apply list_elem_of_In, repeat_spec in Hx. lia.
  - done.
  - apply sum_Z_repeat_0.
  - done.
Qed.

(** The counters and the buffer account for the counted episodes
    after any number of iterations. *)
Lemma iterate_counts cfg k : forall lv s lv' s' n b0,
  iterate ext cfg k lv s = Ok lv' s' ->
  counts_ok n lv ->
  buffer (st_self s) = buffer_after b0 (flushed lv) ->
  counts_ok n lv' /\
  buffer (st_self s') = buffer_after b0 (flushed lv') /\
  self_view (st_self s') = self_view (st_self s) /\
  steps_of (st_trace s') = k + steps_of (st_trace s) /\
  warns_of (st_trace s') = warns_of (st_trace s).
Proof.
  induction k as [|k IH]; intros lv s lv' s' n b0 H Hok Hbuf.
  - cbn in H. step_ok. split_and!; auto.
  - cbn in H. step_ok.
    match goal with Hi : iteration _ _ _ _ = Ok _ _ |- _ =>
      destruct (iteration_counts _ _ _ _ _ _ n b0 Hi Hok Hbuf)
        as (Hok1 & Hbuf1 & Hme1 & Hst1 & Hwa1) end.
    destruct (IH _ _ _ _ n b0 H Hok1 Hbuf1)
      as (? & ? & Hme2 & Hst2 & Hwa2).
    split_and!; auto; try congruence. lia.
Qed.

(** The loop returns at the first iteration whose test holds. *)
Lemma collect_loop_Returned cfg fuel : forall lv s lv' s',
  collect_loop ext cfg fuel lv s = Returned lv' s' <->
  exists k, k < fuel /\
    iterate ext cfg (S k) lv s = Ok lv' s' /\
    loop_done cfg lv' = Success true /\
    forall m, 1 <= m <= k ->
      exists lvm sm, iterate ext cfg m lv s = Ok lvm sm /\
                     loop_done cfg lvm = Success false.
Proof.
  assert (forall k lv s,
            iterate ext cfg (S k) lv s =
            match iteration ext cfg lv s with
            | Ok lv1 s1 => iterate ext cfg k lv1 s1
            | Raise e s1 => Raise e s1
            end) as iterate_S by reflexivity.
  induction fuel as [|fuel IH]; intros lv s lv' s'.
  { split; [done|]. intros (k & Hk & _). lia. }
  cbn [collect_loop].
  destruct (iteration ext cfg lv s) as [lv1 s1|e s1] eqn:Hit.
  2:{ split; [done|]. intros (k & _ & Hk & _).
      rewrite iterate_S, Hit in Hk. done. }
  split.
  - destruct (loop_done cfg lv1) as [[|]|e] eqn:Hdone; [| |done].
    + intros [= <- <-]. exists 0. split_and!; [lia| |done|].
      * by rewrite iterate_S, Hit.
      * intros m Hm. lia.
    + intros H. apply IH in H as (k & Hk & Hrun & Hstop & Hbefore).
      exists (S k). split_and!; [lia| |done|].
      * by rewrite iterate_S, Hit.
      * intros [|[|m]] Hm; [lia| |].
        -- exists lv1, s1. by rewrite iterate_S, Hit.
        -- destruct (Hbefore (S m)) as (lvm & sm & Hm1 & Hm2); [lia|].
           exists lvm, sm. split; [|done]. by rewrite iterate_S, Hit.
  - intros (k & Hk & Hrun & Hstop & Hbefore).
    rewrite iterate_S, Hit in Hrun.
    destruct k as [|k].
    + cbn in Hrun. injection Hrun as -> ->. by rewrite Hstop.
    + destruct (Hbefore 1) as (lvm & sm & Hm1 & Hm2); [lia|].
      rewrite iterate_S, Hit in Hm1. cbn in Hm1.
      injection Hm1 as <- <-. rewrite Hm2.
      apply IH. exists k. split_and!; [lia|done|done|].
      intros m Hm. destruct (Hbefore (S m)) as (lvm & sm & Hm1 & Hm3); [lia|].
      rewrite iterate_S, Hit in Hm1. eauto.
Qed.

Lemma np_all_ge_same_length (count target : list Z) :
  length count = length target ->
  exists b, np_all_ge count target = Success b /\
            (b = true <-> Forall2 (fun c n => (n <= c)%Z) count target).
Proof.
  intros Hlen. unfold np_all_ge. rewrite decide_True by done.
  eexists. split; [done|].
  revert target Hlen.
  induction count as [|c count IH]; intros [|n target] Hlen; try done.
  cbn in Hlen. injection Hlen as Hlen. cbn.
  rewrite andb_true_iff, (IH _ Hlen), Z.leb_le. split.
  - intros [? ?]. by constructor.
  - intros H. inversion H; subst. done.
Qed.

(** The test of lines 328-337 is the termination predicate of the
    specification. *)
Lemma loop_done_spec cfg t lv :
  active_target cfg = Some t ->
  (forall l, t = PerEnvTarget l -> length l = length (episode_count lv)) ->
  exists b, loop_done cfg lv = Success b /\ (b = true <-> stop_spec t lv).
Proof.
  unfold active_target, loop_done. intros Ht Hlen.
  destruct (step_truthy (n_step cfg)) eqn:Hs.
  - destruct (n_step cfg) as [n|]; [|done]. injection Ht as <-. cbn.
    eexists. split; [done|]. apply Z.leb_le.
  - destruct (n_episode cfg) as [|n|l| | |]; try done; injection Ht as <-.
    + eexists. split; [done|]. apply Z.leb_le.
    + apply np_all_ge_same_length. symmetry. by apply Hlen.
Qed.

Lemma on_done_within cfg j i lv s lv' s' :
  on_done cfg j i lv s = Ok lv' s' ->
  slots_within cfg lv -> slots_within cfg lv'.
Proof.
  intros H Hw.
  apply on_done_Ok in H as (counted & s1 & s2 & Hc & Hcount & _).
  destruct counted; [|by destruct Hcount as [-> _]].
  apply count_episode_Ok in Hcount
    as (c & cache & r & total & Hec & _ & _ & _ & -> & _).
  intros Hs Hv i' c' n' Hc' Hn'. cbn [episode_count] in Hc'.
  destruct (decide (i = i')) as [<-|Hne].
  - rewrite list_lookup_insert_eq in Hc' by (by eapply lookup_lt_Some).
    injection Hc' as <-.
    destruct (is_counted_true _ _ _ Hc Hs Hv) as (c0 & n0 & ? & ? & ?).
    assert (c0 = c) as -> by congruence.
    assert (n0 = n') as -> by congruence. lia.
  - rewrite list_lookup_insert_ne in Hc' by done. by eapply Hw.
Qed.

Lemma bookkeep_one_within cfg j i lv s lv' s' :
  bookkeep_one cfg j i lv s = Ok lv' s' ->
  slots_within cfg lv -> slots_within cfg lv'.
Proof.
  unfold bookkeep_one. intros H Hw. repeat step_ok.
  match goal with Hc : (if ?b then _ else _) _ = Ok _ _ |- _ =>
    destruct b end.
  - by eapply on_done_within.
  - by step_ok.
Qed.

Lemma bookkeep_within cfg ids : forall j lv s lv' s',
  bookkeep cfg j ids lv s = Ok lv' s' ->
  slots_within cfg lv -> slots_within cfg lv'.
Proof.
  induction ids as [|i ids IH]; intros j lv s lv' s' H Hw; cbn in H.
  - by step_ok.
  - step_ok. eapply IH; [done|]. by eapply bookkeep_one_within.
Qed.

Lemma iteration_within cfg lv s lv' s' :
  iteration ext cfg lv s = Ok lv' s' ->
  slots_within cfg lv -> slots_within cfg lv'.
Proof.
  intros H Hw.
  apply iteration_Ok in H
    as (s1 & lv1 & s2 & last & s3 & r & s4 & act & s5 & lv2 & s6 & s7 &
        s8 & lv3 & s9 & s10 &
        H1 & H2 & H3 & H4 & H5 & H6 & H7 & H8 & H9 & H10 & H11).
  apply take_subset_counters in H2.
  apply step_env_counters in H6 as [H6 _].
  apply scatter_back_counters in H11.
  apply (slots_within_counters cfg lv3); [done|].
  unfold bookkeeping in H9. repeat step_st.
  eapply bookkeep_within; [done|].
  apply (slots_within_counters cfg lv); [congruence|done].
Qed.

Lemma iterate_within cfg k : forall lv s lv' s',
  iterate ext cfg k lv s = Ok lv' s' ->
  slots_within cfg lv -> slots_within cfg lv'.
Proof.
  induction k as [|k IH]; intros lv s lv' s' H Hw; cbn in H.
  - by step_ok.
  - step_ok. eapply IH; [done|]. by eapply iteration_within.
Qed.

Lemma buffer_after_nil b : buffer_after b [] = b.
Proof. destruct b; cbn; [|done]. by rewrite app_nil_r. Qed.

Lemma slots_within_list cfg l lv :
  active_target cfg = Some (PerEnvTarget l) ->
  slots_within cfg lv <-> within_target l lv.
Proof.
  unfold active_target, slots_within, within_target. intros Ht.
  destruct (step_truthy (n_step cfg)) eqn:Hs.
  { by destruct (n_step cfg). }
  destruct (n_episode cfg) as [|n|l0| | |] eqn:He; try done.
  injection Ht as ->. cbn. split.
  - intros H i c n Hc Hn. apply (H eq_refl eq_refl i c n Hc). by rewrite Hn.
  - intros H _ _ i c n Hc Hn. apply (H i c n Hc).
    by destruct (l !! i); simplify_eq.
Qed.

Lemma init_locals_within l (c : Collector) :
  Forall (fun n => (0 <= n)%Z) l -> within_target l (init_locals c).
Proof.
  intros Hl i x n Hx Hn. cbn in Hx.
  apply list_elem_of_lookup_2, list_elem_of_In, repeat_spec in Hx as ->.
  rewrite Forall_lookup in Hl. by apply (Hl i).
Qed.

End loop.

Section outcomes.
Context {W : Type} (ext : Externals W).
Implicit Types s : State W.

(** What every way out of the loop keeps, and what holds when the loop
    returns. *)
Lemma collect_loop_outcome cfg fuel : forall lv s n b0,
  counts_ok n lv ->
  buffer (st_self s) = buffer_after b0 (flushed lv) ->
  me_view (outcome_state (collect_loop ext cfg fuel lv s)) = me_view s /\
  warns_view (outcome_state (collect_loop ext cfg fuel lv s)) = warns_view s /\
  (forall lv' s',
     collect_loop ext cfg fuel lv s = Returned lv' s' ->
     counts_ok n lv' /\
     buffer (st_self s') = buffer_after b0 (flushed lv') /\
     exists k, steps_of (st_trace s') = S k + steps_of (st_trace s)).
Proof.
  induction fuel as [|fuel IH]; intros lv s n b0 Hok Hbuf; [by cbn|].
  cbn [collect_loop].
  pose proof (iteration_keeps_me ext cfg lv s) as Hme.
  pose proof (iteration_keeps_warns ext cfg lv n Hok s) as Hwa.
  destruct (iteration ext cfg lv s) as [lv1 s1|e s1] eqn:Hit; [|by cbn].
  cbn in Hme, Hwa. unfold keeps in Hme, Hwa.
  destruct (iteration_counts _ _ _ _ _ _ n b0 Hit Hok Hbuf)
    as (Hok1 & Hbuf1 & _ & Hst1 & _).
  destruct (loop_done cfg lv1) as [[|]|e] eqn:Hdone; cbn.
  - split_and!; [done|done|]. intros lv' s' [= <- <-].
    split_and!; [done|done|]. exists 0. by rewrite Hst1.
  - destruct (IH lv1 s1 n b0 Hok1 Hbuf1) as (Hme2 & Hwa2 & Hret).
    split_and!; [congruence|congruence|].
    intros lv' s' Hr. destruct (Hret _ _ Hr) as (? & ? & k & Hk).
    split_and!; [done|done|]. exists (S k). rewrite Hk, Hst1. lia.
  - split_and!; done.
Qed.



Lemma statistics_quiet start lv :
  stable (keeps (@view_but_counters W)) (statistics ext start lv).
Proof. unfold statistics. stable_tac. Qed.

(** Lines 339-356, value by value. *)
Lemma statistics_Ok start lv s stats s' :
  statistics ext start lv s = Ok stats s' ->
  let duration :=
    Qmax (snd (time_time ext (st_world s)) - start) min_duration in
  exists avg,
    reward_div (env_num (st_self s)) (reward_total lv)
      (sum_Z (episode_count lv)) = Success avg /\
    match avg with
    | SArr xs =>
        if decide (1 < length xs) then
          exists x, default _default_rew_metric (reward_metric ext) xs
                    = Success x /\ rew stats = SNum x
        else rew stats = SArr xs
    | SNum x => rew stats = SNum x
    end /\
    n_ep stats = sum_Z (episode_count lv) /\
    n_st stats = step_count lv /\
    v_st stats = Fin (inject_Z (step_count lv) / duration) /\
    v_ep stats = Fin (inject_Z (sum_Z (episode_count lv)) / duration) /\
    len stats = np_div (inject_Z (step_count lv))
                  (inject_Z (sum_Z (episode_count lv))) /\
    collect_time (st_self s') = (collect_time (st_self s) + duration)%Q /\
    collect_step (st_self s') = (collect_step (st_self s) + step_count lv)%Z /\
    collect_episode (st_self s')
      = (collect_episode (st_self s) + sum_Z (episode_count lv))%Z.
Proof.
  unfold statistics. intros H. repeat step_st.
  match goal with Hr : reward_div _ _ _ = Success ?a |- _ => exists a end.
  split; [done|].
  match goal with Hm : match ?a with _ => _ end _ = Ok _ _ |- _ =>
    destruct a as [x|xs] end.
  - repeat step_st. cbn. split_and!; done.
  - destruct (decide (1 < length xs)); repeat step_st; cbn;
      split_and!; eauto.
Qed.

(** [collect], with the clock read before the loop made explicit. *)
Lemma collect_unfold cfg fuel s :
  collect ext cfg fuel s =
  match check_targets cfg with
  | Failure e => Raised e s
  | Success _ =>
      match collect_loop ext cfg fuel (init_locals (st_self s))
              (final_state (call (time_time ext) s)) with
      | Returned lv s2 =>
          match statistics ext (snd (time_time ext (st_world s))) lv s2 with
          | Ok stats s3 => Returned stats s3
          | Raise e s' => Raised e s'
          end
      | Raised e s' => Raised e s'
      | OutOfFuel s' => OutOfFuel s'
      end
  end.
Proof. unfold collect. destruct (check_targets cfg); reflexivity. Qed.

Lemma collect_Returned cfg fuel s stats s' :
  collect ext cfg fuel s = Returned stats s' ->
  exists lv s2,
    check_targets cfg = Success tt /\
    collect_loop ext cfg fuel (init_locals (st_self s))
      (final_state (call (time_time ext) s)) = Returned lv s2 /\
    statistics ext (snd (time_time ext (st_world s))) lv s2 = Ok stats s'.
Proof.
  rewrite collect_unfold.
  destruct (check_targets cfg) as [[]|e] eqn:Hc; [|done].
  destruct (collect_loop ext cfg fuel _ _) as [lv s2|e s2|s2] eqn:Hl;
    try done.
  destruct (statistics _ _ _ _) as [st s3|e s3] eqn:Hs; [|done].
  intros [= <- <-]. eauto.
Qed.

(** The three ways [collect] can end: before the loop, in the loop, or
    after it. *)
Lemma collect_outcome_state cfg fuel s :
  let s1 := final_state (call (time_time ext) s) in
  let loop := collect_loop ext cfg fuel (init_locals (st_self s)) s1 in
  outcome_state (collect ext cfg fuel s) = s \/
  (outcome_state (collect ext cfg fuel s) = outcome_state loop /\
   forall lv s2, loop <> Returned lv s2) \/
  (exists lv s2,
     loop = Returned lv s2 /\
     outcome_state (collect ext cfg fuel s)
     = final_state (statistics ext (snd (time_time ext (st_world s))) lv s2)).
Proof.
  cbv zeta. rewrite collect_unfold.
  destruct (check_targets cfg) as [[]|e] eqn:Hc; [|by left].
  destruct (collect_loop ext cfg fuel _ _) as [lv s2|e s2|s2] eqn:Hl.
  - right. right. exists lv, s2. split; [done|].
    destruct (statistics _ _ _ _); reflexivity.
  - right. left. done.
  - right. left. done.
Qed.

(** The cumulative counters are updated before anything in the
    statistics can fail. *)
Lemma statistics_final start lv s :
  let s' := final_state (statistics ext start lv s) in
  let duration :=
    Qmax (snd (time_time ext (st_world s)) - start) min_duration in
  collect_time (st_self s') = (collect_time (st_self s) + duration)%Q /\
  collect_step (st_self s') = (collect_step (st_self s) + step_count lv)%Z /\
  collect_episode (st_self s')
    = (collect_episode (st_self s) + sum_Z (episode_count lv))%Z.
Proof.
  cbv zeta. unfold statistics.
  unfold bind at 1. cbn [get_self].
  unfold bind at 1. unfold call at 1. cbv beta iota zeta.
  unfold bind at 1. unfold modify_self at 1. cbv beta iota zeta.
  match goal with
  | |- context [final_state (?rest ?s3)] =>
      assert (stable (keeps me_view) rest) as Hrest by stable_tac;
      specialize (Hrest s3); set (sf := final_state (rest s3)) in *
  end.
  unfold keeps, me_view, self_view in Hrest.
  cbn [st_self st_heap st_world st_trace collect_time collect_step
       collect_episode env_num is_async set_counters] in Hrest.
  injection Hrest as _ _ Ht Hs He.
  split_and!; [exact (eq_sym Ht)|exact (eq_sym Hs)|exact (eq_sym He)].
Qed.

End outcomes.

(** * The claims *)

(** C2.  The loop of [collect] stops exactly at the first iteration at
    whose end its test holds: [collect_loop] returns the locals and the
    state reached after [k + 1] iterations if and only if the test holds
    there and failed after each of the first [k].  The test is the one
    of the specification: with a step target, the step count has reached
    it; with a scalar episode target, the sum of the per-environment
    counters has reached it; with a per-environment list, every counter
    has reached its component.  With a list of non-negative targets, no
    counter exceeds its component after any number of iterations, and
    the bookkeeping of one position never takes a counter above its
    component. *)
Theorem collect_loop_stops_exactly {W} (ext : Externals W) (cfg : Config) :
  (forall fuel lv s lv' s',
     collect_loop ext cfg fuel lv s = Returned lv' s' <->
     exists k, k < fuel /\
       iterate ext cfg (S k) lv s = Ok lv' s' /\
       loop_done cfg lv' = Success true /\
       forall m, 1 <= m <= k ->
         exists lvm sm, iterate ext cfg m lv s = Ok lvm sm /\
                        loop_done cfg lvm = Success false) /\
  (forall t lv,
     active_target cfg = Some t ->
     (forall l, t = PerEnvTarget l -> length l = length (episode_count lv)) ->
     exists b, loop_done cfg lv = Success b /\ (b = true <-> stop_spec t lv)) /\
  (forall l k (s : State W) lv' s',
     active_target cfg = Some (PerEnvTarget l) ->
     Forall (fun n => (0 <= n)%Z) l ->
     iterate ext cfg k (init_locals (st_self s)) s = Ok lv' s' ->
     within_target l lv') /\
  (forall l j i lv (s : State W) lv' s',
     active_target cfg = Some (PerEnvTarget l) ->
     within_target l lv ->
     bookkeep_one cfg j i lv s = Ok lv' s' ->
     within_target l lv').
Proof.
  split_and!.
  - intros. apply collect_loop_Returned.
  - intros. by apply loop_done_spec.
  - intros l k s lv' s' Ht Hl H.
    apply (slots_within_list cfg l _ Ht).
    eapply iterate_within; [done|].
    apply (slots_within_list cfg l _ Ht). by apply init_locals_within.
  - intros l j i lv s lv' s' Ht Hw H.
    apply (slots_within_list cfg l _ Ht).
    eapply bookkeep_one_within; [done|].
    by apply (slots_within_list cfg l _ Ht).
Qed.

Lemma collect_loop_stops_exactly_witness :
  exists lv' s',
    collect_loop (bench 2) scenario_102 10
      (init_locals (st_self (bench_start 2 3 false (Some []))))
      (bench_start 2 3 false (Some [])) = Returned lv' s' /\
    episode_count lv' = [1; 0; 2]%Z /\
    (exists k, k < 10 /\
       iterate (bench 2) scenario_102 (S k)
         (init_locals (st_self (bench_start 2 3 false (Some []))))
         (bench_start 2 3 false (Some [])) = Ok lv' s' /\
       loop_done scenario_102 lv' = Success true /\
       forall m, 1 <= m <= k ->
         exists lvm sm,
           iterate (bench 2) scenario_102 m
             (init_locals (st_self (bench_start 2 3 false (Some []))))
             (bench_start 2 3 false (Some [])) = Ok lvm sm /\
           loop_done scenario_102 lvm = Success false) /\
    within_target [1; 0; 2]%Z lv'.
Proof.
  pose proof (collect_loop_stops_exactly (bench 2) scenario_102)
    as (Hexact & _ & Hwithin & _).
  assert (exists lv' s',
            collect_loop (bench 2) scenario_102 10
              (init_locals (st_self (bench_start 2 3 false (Some []))))
              (bench_start 2 3 false (Some [])) = Returned lv' s' /\
            episode_count lv' = [1; 0; 2]%Z) as (lv' & s' & Hrun & Hcount).
  { vm_compute. eexists _, _. split; reflexivity. }
  exists lv', s'. split; [exact Hrun|]. split; [exact Hcount|].
  pose proof (proj1 (Hexact _ _ _ _ _) Hrun) as Hk.
  split; [exact Hk|].
  destruct Hk as (k & _ & Hit & _).
  apply (Hwithin _ (S k) (bench_start 2 3 false (Some [])) lv' s');
    [reflexivity| |exact Hit].
  repeat constructor; discriminate.
Defined.

(** C6.  The diagnostic of lines 224-228 tests
    [step_count >= 100000 and episode_count.sum() == 0], but [step_count]
    only grows when an episode is counted (line 306).  So the warning is
    never issued: however [collect] ends, the trace holds as many
    warnings as before the call; and after any number [k] of iterations
    the environments have been stepped [k] times, with no warning,
    whether or not an episode has completed. *)
Theorem collect_never_warns {W} (ext : Externals W) (cfg : Config) :
  (forall fuel (s : State W),
     warns_of (st_trace (outcome_state (collect ext cfg fuel s)))
     = warns_of (st_trace s)) /\
  (forall k (s : State W) lv' s',
     iterate ext cfg k (init_locals (st_self s)) s = Ok lv' s' ->
     steps_of (st_trace s') = k + steps_of (st_trace s) /\
     warns_of (st_trace s') = warns_of (st_trace s)).
Proof.
  split.
  - intros fuel s.
    destruct (collect_loop_outcome ext cfg fuel (init_locals (st_self s))
                (final_state (call (time_time ext) s))
                (env_num (st_self s)) (buffer (st_self s)))
      as (_ & Hwa & Hret).
    { apply init_locals_ok. }
    { cbn. by rewrite buffer_after_nil. }
    unfold warns_view in Hwa.
    assert (st_trace (final_state (call (time_time ext) s)) = st_trace s)
      as Htr by reflexivity.
    rewrite Htr in Hwa.
    destruct (collect_outcome_state ext cfg fuel s)
      as [->|[[-> _]|(lv & s2 & Hl & ->)]]; [done|done|].
    rewrite Hl in Hwa. cbn [outcome_state] in Hwa.
    pose proof (statistics_quiet ext (snd (time_time ext (st_world s))) lv s2)
      as Hq.
    unfold keeps, view_but_counters in Hq.
    injection Hq as _ _ _ _ Hq. congruence.
  - intros k s lv' s' H.
    destruct (iterate_counts ext cfg k _ _ _ _ (env_num (st_self s))
                (buffer (st_self s)) H)
      as (_ & _ & _ & Hst & Hwa).
    { apply init_locals_ok. }
    { cbn. by rewrite buffer_after_nil. }
    done.
Qed.

(** One environment of the bench whose episodes last five steps: after
    three iterations it has been stepped three times, no episode has
    completed, and there is no warning. *)
Lemma collect_never_warns_witness :
  exists lv' s',
    iterate (bench 5) (mkConfig (Some 1%Z) PyNone false None) 3
      (init_locals (st_self (bench_start 5 1 false None)))
      (bench_start 5 1 false None) = Ok lv' s' /\
    sum_Z (episode_count lv') = 0%Z /\
    steps_of (st_trace s') = 3 + steps_of (st_trace (bench_start 5 1 false None)) /\
    warns_of (st_trace s') = warns_of (st_trace (bench_start 5 1 false None)).
Proof.
  assert (exists lv' s',
    iterate (bench 5) (mkConfig (Some 1%Z) PyNone false None) 3
      (init_locals (st_self (bench_start 5 1 false None)))
      (bench_start 5 1 false None) = Ok lv' s' /\
    sum_Z (episode_count lv') = 0%Z) as (lv' & s' & Hrun & Hzero).
  { vm_compute. eexists _, _. split; reflexivity. }
  exists lv', s'. split; [exact Hrun|]. split; [exact Hzero|].
  exact (proj2 (collect_never_warns (bench 5)
                  (mkConfig (Some 1%Z) PyNone false None))
           3 (bench_start 5 1 false None) lv' s' Hrun).
Defined.



(** When the mean reward is a scalar, the statistics are returned. *)
Lemma statistics_scalar {W} (ext : Externals W) start lv (s : State W) x :
  reward_div (env_num (st_self s)) (reward_total lv)
    (sum_Z (episode_count lv)) = Success (SNum x) ->
  exists stats s',
    statistics ext start lv s = Ok stats s' /\
    n_ep stats = sum_Z (episode_count lv) /\
    n_st stats = step_count lv /\
    rew stats = SNum x /\
    len stats = np_div (inject_Z (step_count lv))
                  (inject_Z (sum_Z (episode_count lv))) /\
    steps_of (st_trace s') = steps_of (st_trace s).
Proof.
  intros Hdiv. unfold statistics, bind, get_self, call, modify_self.
  cbn [st_self st_heap st_world st_trace env_num set_counters].
  rewrite Hdiv. cbn. eexists _, _. split_and!; reflexivity.
Qed.

(** C9.  With [n_episode] a list of zeros (one per environment) and
    [n_step] not given, [collect] runs the body of its loop once: if that
    iteration raises nothing, no episode is counted, the environments
    have been stepped exactly once, and [collect] returns with ['n/ep']
    and ['n/st'] equal to 0 and with ['rew'] and ['len'] the result [nan]
    of numpy's division of zero by zero. *)
Theorem collect_zero_targets {W} (ext : Externals W) (cfg : Config)
    (l : list Z) (fuel : nat) (s : State W) lv1 s2 :
  step_truthy (n_step cfg) = false ->
  n_episode cfg = PyList l ->
  l <> [] ->
  Forall (fun n => n = 0%Z) l ->
  length l = env_num (st_self s) ->
  iteration ext cfg (init_locals (st_self s))
    (final_state (call (time_time ext) s)) = Ok lv1 s2 ->
  flushed lv1 = [] /\
  exists stats s3,
    collect ext cfg (S fuel) s = Returned stats s3 /\
    n_ep stats = 0%Z /\ n_st stats = 0%Z /\
    rew stats = SNum NaN /\ len stats = NaN /\
    steps_of (st_trace s3) = S (steps_of (st_trace s)).
Proof.
  intros Hs Hl Hne Hzero Hlen Hit.
  assert (active_target cfg = Some (PerEnvTarget l)) as Ht.
  { unfold active_target. by rewrite Hs, Hl. }
  destruct (iteration_counts ext cfg _ _ _ _ (env_num (st_self s))
              (buffer (st_self s)) Hit)
    as ([Hlen1 Hnn1 Hst1 Hep1 Hrw1] & _ & Hme & Hsteps & _).
  { apply init_locals_ok. }
  { cbn. by rewrite buffer_after_nil. }
  assert (within_target l lv1) as Hwithin.
  { apply (slots_within_list cfg l _ Ht).
    eapply iteration_within; [exact Hit|].
    apply (slots_within_list cfg l _ Ht). apply init_locals_within.
    eapply Forall_impl; [exact Hzero|]. cbn. lia. }
  assert (Forall2 (fun c n => c = 0%Z /\ n = 0%Z) (episode_count lv1) l)
    as Hall.
  { apply Forall2_same_length_lookup. split; [congruence|].
    intros i c n Hc Hn.
    rewrite Forall_lookup in Hzero, Hnn1.
    specialize (Hzero _ _ Hn). specialize (Hnn1 _ _ Hc).
    specialize (Hwithin _ _ _ Hc Hn). cbn in *. lia. }
  assert (sum_Z (episode_count lv1) = 0%Z) as Hsum.
  { clear -Hall. induction Hall as [|c n ec l' [-> _] _ IH]; [done|].
    rewrite sum_Z_cons. lia. }
  assert (flushed lv1 = []) as Hfl.
  { rewrite Hsum in Hep1. by destruct (flushed lv1). }
  split; [exact Hfl|].
  rewrite Hfl in Hst1, Hrw1. cbn in Hst1, Hrw1. injection Hrw1 as Hrw1.
  assert (loop_done cfg lv1 = Success true) as Hdone.
  { destruct (loop_done_spec cfg _ lv1 Ht) as (b & Hb & Hiff).
    { intros l0 [= <-]. congruence. }
    rewrite Hb. f_equal. apply Hiff. cbn.
    eapply Forall2_impl; [exact Hall|]. cbn. lia. }
  assert (env_num (st_self s2) = env_num (st_self s)) as Henv.
  { unfold self_view in Hme. cbn in Hme. congruence. }
  destruct (statistics_scalar ext (snd (time_time ext (st_world s))) lv1 s2 NaN)
    as (stats & s3 & Hstat & Hnep & Hnst & Hrew & Hlenst & Hst3).
  { rewrite Henv, <- Hlen, <- Hrw1, Hsum.
    destruct l as [|n l']; [done|]. reflexivity. }
  exists stats, s3. rewrite collect_unfold.
  assert (check_targets cfg = Success ()) as ->.
  { unfold check_targets. rewrite Hl, Hs. cbn.
    rewrite bool_decide_eq_false_2 by done. done. }
  cbn [collect_loop]. rewrite Hit, Hdone, Hstat.
  split_and!; [done|congruence|congruence|done| |].
  - rewrite Hlenst, Hst1, Hsum. reflexivity.
  - rewrite Hst3, Hsteps. reflexivity.
Qed.

Lemma collect_zero_targets_witness :
  exists stats s3,
    collect (bench 2) (mkConfig None (PyList [0; 0]%Z) false None) 1
      (bench_start 2 2 false None) = Returned stats s3 /\
    n_ep stats = 0%Z /\ n_st stats = 0%Z /\
    rew stats = SNum NaN /\ len stats = NaN /\
    steps_of (st_trace s3)
    = S (steps_of (st_trace (bench_start 2 2 false None))).
Proof.
  assert (exists lv1 s2,
    iteration (bench 2) (mkConfig None (PyList [0; 0]%Z) false None)
      (init_locals (st_self (bench_start 2 2 false None)))
      (final_state (call (time_time (bench 2)) (bench_start 2 2 false None)))
    = Ok lv1 s2) as (lv1 & s2 & Hit).
  { vm_compute. eexists _, _. reflexivity. }
  refine (proj2 (collect_zero_targets (bench 2)
                   (mkConfig None (PyList [0; 0]%Z) false None)
                   [0; 0]%Z 0 (bench_start 2 2 false None) lv1 s2
                   eq_refl eq_refl _ _ _ Hit)).
  - discriminate.
  - repeat constructor.
  - vm_compute. reflexivity.
Defined.

Lemma min_duration_pos : (0 < min_duration)%Q.
Proof. reflexivity. Qed.



(** The resets keep a collector without a buffer without one. *)
Lemma reset_env_quiet {W} (ext : Externals W) :
  stable (keeps (@view_all W)) (reset_env ext).
Proof.
  unfold reset_env. stable_tac.
  - apply preprocess_obs_quiet.
  - apply update_field_quiet.
Qed.

Lemma reset_keeps_no_buffer {W} (ext : Externals W) :
  stable (keeps (@no_buffer W)) (reset ext).
Proof.
  unfold reset, reset_buffer. stable_tac.
  - apply (stable_keeps_part view_all
             (fun v => match v.1.1.2 with None => true | Some _ => false end)).
    apply reset_env_quiet.
  - intros s. unfold keeps, no_buffer. cbn [st_self].
    destruct (buffer (st_self s)) eqn:Hb; cbn; by rewrite ?Hb.
Qed.

(** C10.  A collector constructed with [buffer=None] has no buffer, and
    on a collector without a buffer [sample] raises [AttributeError]
    (the access [self.buffer.sample] on [None]) for every batch size,
    in the state in which it was called. *)
Theorem sample_without_buffer {W} (ext : Externals W) (batch_size : Z) :
  (forall n async (s0 : State W),
     buffer (st_self (final_state (__init__ ext n async None s0))) = None) /\
  (forall s : State W,
     buffer (st_self s) = None ->
     sample ext batch_size s = Raise AttributeError s).
Proof.
  split.
  - intros n async s0. unfold __init__, bind at 1, modify_self at 1.
    cbv beta iota.
    match goal with |- context [reset ext ?s1] =>
      pose proof (reset_keeps_no_buffer ext s1) as H end.
    unfold keeps, no_buffer in H. cbn [st_self buffer] in H.
    by destruct (buffer _).
  - intros s H. unfold sample, bind, get_self. by rewrite H.
Qed.

Lemma sample_without_buffer_witness :
  buffer (st_self (bench_start 2 3 false None)) = None /\
  sample (bench 2) 64 (bench_start 2 3 false None)
  = Raise AttributeError (bench_start 2 3 false None).
Proof.
  split.
  - exact (proj1 (sample_without_buffer (bench 2) 64) 3 false (bench_blank 3)).
  - apply (proj2 (sample_without_buffer (bench 2) 64)).
    vm_compute. reflexivity.
Defined.

(** ** The cumulative counters *)

Lemma Qle_add_pos (t d : Q) : (0 < d)%Q -> (t <= t + d)%Q.
Proof.
  intros H. apply Qle_trans with (t + 0)%Q.
  - rewrite Qplus_0_r. apply Qle_refl.
  - apply Qplus_le_r. by apply Qlt_le_weak.
Qed.

Lemma duration_pos (elapsed : Q) : (0 < Qmax elapsed min_duration)%Q.
Proof.
  eapply Qlt_le_trans; [apply min_duration_pos|apply Q.le_max_r].
Qed.

Section cumulative_counters.
Context {W : Type} (ext : Externals W).
Implicit Types s : State W.

(** What a returning [collect] adds to the counters. *)
Lemma collect_adds cfg fuel s stats s' :
  collect ext cfg fuel s = Returned stats s' ->
  exists duration,
    (0 < duration)%Q /\
    collect_time (st_self s') = (collect_time (st_self s) + duration)%Q /\
    collect_step (st_self s') = (collect_step (st_self s) + n_st stats)%Z /\
    collect_episode (st_self s')
      = (collect_episode (st_self s) + n_ep stats)%Z /\
    (0 <= n_st stats)%Z /\ (0 <= n_ep stats)%Z.
Proof.
  intros H. apply collect_Returned in H as (lv & s2 & _ & Hloop & Hstat).
  destruct (collect_loop_outcome ext cfg fuel (init_locals (st_self s))
              (final_state (call (time_time ext) s))
              (env_num (st_self s)) (buffer (st_self s)))
    as (Hme & _ & Hret).
  { apply init_locals_ok. }
  { cbn. by rewrite buffer_after_nil. }
  destruct (Hret _ _ Hloop) as ([_ _ Hst Hep _] & _ & _).
  rewrite Hloop in Hme. cbn [outcome_state] in Hme.
  unfold me_view, self_view in Hme.
  cbn [final_state call st_self] in Hme. injection Hme as _ _ Ht Hs He.
  apply statistics_Ok in Hstat
    as (_ & _ & _ & Hnep & Hnst & _ & _ & _ & Ht' & Hs' & He').
  eexists. split; [apply duration_pos|].
  rewrite Ht', Hs', He', Ht, Hs, He, Hnep, Hnst.
  split_and!; try reflexivity.
  - rewrite Hst. apply episodes_len_nonneg.
  - rewrite Hep. lia.
Qed.

(** However [collect] ends, no counter went down. *)
Lemma collect_monotone cfg fuel s :
  let s' := outcome_state (collect ext cfg fuel s) in
  (collect_time (st_self s) <= collect_time (st_self s'))%Q /\
  (collect_step (st_self s) <= collect_step (st_self s'))%Z /\
  (collect_episode (st_self s) <= collect_episode (st_self s'))%Z.
Proof.
  cbv zeta.
  pose proof (collect_outcome_state ext cfg fuel s) as Hcase.
  cbv zeta in Hcase.
  assert (me_view (final_state (call (time_time ext) s)) = me_view s
          /\ buffer (st_self (final_state (call (time_time ext) s)))
             = buffer (st_self s)) as [Hs1 Hb1] by done.
  remember (final_state (call (time_time ext) s)) as s1 eqn:Es1.
  destruct (collect_loop_outcome ext cfg fuel (init_locals (st_self s))
              s1 (env_num (st_self s)) (buffer (st_self s)))
    as (Hme & _ & Hret).
  { apply init_locals_ok. }
  { rewrite Hb1. cbn. by rewrite buffer_after_nil. }
  rewrite Hs1 in Hme. unfold me_view, self_view in Hme.
  injection Hme as _ _ Ht Hs He.
  destruct Hcase as [->|[[-> _]|(lv & s2 & Hloop & ->)]].
  - split_and!; [apply Qle_refl|lia|lia].
  - rewrite Ht, Hs, He. split_and!; [apply Qle_refl|lia|lia].
  - destruct (Hret _ _ Hloop) as ([_ _ Hst Hep _] & _ & _).
    rewrite Hloop in Ht, Hs, He. cbn [outcome_state] in Ht, Hs, He.
    destruct (statistics_final ext (snd (time_time ext (st_world s))) lv s2)
      as (-> & -> & ->).
    rewrite Ht, Hs, He, Hst, Hep.
    split_and!; [apply Qle_add_pos, duration_pos| |lia].
    pose proof (episodes_len_nonneg (flushed lv)). lia.
Qed.

(** The full reset always returns; what it leaves. *)
Lemma reset_Ok s :
  exists s',
    reset ext s = Ok tt s' /\
    cumulative s' = (0%Q, 0%Z, 0%Z) /\
    _cached_buf (st_self s') = map (fun _ => []) (_cached_buf (st_self s)) /\
    exists tl, st_trace s' = st_trace s ++ [EvReset None] ++ tl.
Proof.
  unfold reset, reset_env, reset_buffer, update_field, preprocess_obs,
    get_data, batch_put.
  destruct (preprocess_fn ext), (_action_noise ext),
    (buffer (st_self s)) eqn:Hb;
    cbn; rewrite ?Hb; cbn; eexists; (split; [reflexivity|]);
    (split; [reflexivity|]); (split; [reflexivity|]); cbn [st_trace];
    first [ by exists [] | exists [EvNoiseReset]; by rewrite <- app_assoc ].
Qed.

(** A command that keeps the attributes [self_view] lists keeps the
    counters. *)
Lemma keeps_me_cumulative {A} (m : M (State W) A) :
  stable (keeps me_view) m -> stable (keeps cumulative) m.
Proof.
  intros H. apply (stable_keeps_part me_view (fun v => (v.1.1.2, v.1.2, v.2))).
  exact H.
Qed.

End cumulative_counters.

(** C7.  The counters [collect_time], [collect_step] and
    [collect_episode] never go down: however a call of [collect] ends,
    each is at least what it was; a call that returns has added its
    ['n/st'] and ['n/ep'], both non-negative, and a positive duration;
    [sample], [reset_env], [reset_buffer], [seed], [render], [close] and
    [get_env_num] leave them as they are.  The full [reset] always
    returns, sets the three to zero, empties every episode cache and
    resets all the environments. *)
Theorem collector_counters_monotone {W} (ext : Externals W) :
  (forall cfg fuel (s : State W),
     let s' := outcome_state (collect ext cfg fuel s) in
     (collect_time (st_self s) <= collect_time (st_self s'))%Q /\
     (collect_step (st_self s) <= collect_step (st_self s'))%Z /\
     (collect_episode (st_self s) <= collect_episode (st_self s'))%Z) /\
  (forall cfg fuel (s : State W) stats s',
     collect ext cfg fuel s = Returned stats s' ->
     exists duration,
       (0 < duration)%Q /\
       collect_time (st_self s') = (collect_time (st_self s) + duration)%Q /\
       collect_step (st_self s') = (collect_step (st_self s) + n_st stats)%Z /\
       collect_episode (st_self s')
         = (collect_episode (st_self s) + n_ep stats)%Z /\
       (0 <= n_st stats)%Z /\ (0 <= n_ep stats)%Z) /\
  ((forall n, stable (keeps cumulative) (sample ext n)) /\
   stable (keeps cumulative) (reset_env ext) /\
   stable (keeps cumulative) (@reset_buffer W) /\
   stable (keeps cumulative) (@seed W) /\
   stable (keeps cumulative) (@render_envs W) /\
   stable (keeps cumulative) (@close W) /\
   stable (keeps cumulative) (@get_env_num W)) /\
  (forall s : State W,
     exists s',
       reset ext s = Ok tt s' /\
       cumulative s' = (0%Q, 0%Z, 0%Z) /\
       _cached_buf (st_self s')
       = map (fun _ => []) (_cached_buf (st_self s)) /\
       exists tl, st_trace s' = st_trace s ++ [EvReset None] ++ tl).
Proof.
  split_and!.
  - apply collect_monotone.
  - apply collect_adds.
  - intros n. apply keeps_me_cumulative. unfold sample. stable_tac.
  - apply keeps_me_cumulative.
    apply (stable_keeps_part view_all (fun v => v.1.1.1)).
    apply reset_env_quiet.
  - apply keeps_me_cumulative. unfold reset_buffer. stable_tac.
  - apply keeps_me_cumulative. unfold seed. stable_tac.
  - apply keeps_me_cumulative. unfold render_envs. stable_tac.
  - apply keeps_me_cumulative. unfold close. stable_tac.
  - apply keeps_me_cumulative. unfold get_env_num. stable_tac.
  - apply reset_Ok.
Qed.

Lemma collector_counters_monotone_witness :
  exists stats s',
    collect (bench 2) scenario_102 10 (bench_start 2 3 false (Some []))
    = Returned stats s' /\
    cumulative (bench_start 2 3 false (Some [])) = (0%Q, 0%Z, 0%Z) /\
    collect_step (st_self s') = 6%Z /\
    collect_episode (st_self s') = 3%Z /\
    (0 < collect_time (st_self s'))%Q.
Proof.
  assert (exists stats s',
    collect (bench 2) scenario_102 10 (bench_start 2 3 false (Some []))
    = Returned stats s' /\ n_st stats = 6%Z /\ n_ep stats = 3%Z)
    as (stats & s' & Hrun & Hst & Hep).
  { vm_compute. eexists _, _. split_and!; reflexivity. }
  destruct (proj1 (proj2 (collector_counters_monotone (bench 2)))
              _ _ _ _ _ Hrun)
    as (d & Hd & Ht & Hs & He & _).
  destruct (proj2 (proj2 (proj2 (collector_counters_monotone (bench 2))))
              (final_state
                 (modify_self (fun _ =>
                    mkCollector 3 (seq 0 3) false (repeat [] 3) 0%Q 0%Z 0%Z
                      (Some []) empty_data) (bench_blank 3))))
    as (s0 & Hreset & Hzero & _).
  assert (bench_start 2 3 false (Some []) = s0) as E.
  { unfold bench_start, __init__, bind at 1. cbn [modify_self final_state] in *.
    by rewrite Hreset. }
  exists stats, s'. rewrite E in *. pose proof Hzero as Hz.
  unfold cumulative in Hz. injection Hz as Ht0 Hs0 He0.
  split_and!; [exact Hrun|exact Hzero|lia|lia|].
  rewrite Ht, Ht0. eapply Qlt_le_trans; [exact Hd|].
  rewrite Qplus_0_l. apply Qle_refl.
Defined.

(** ** Rejected configurations *)

Section configuration.
Context {W : Type} (ext : Externals W).
Implicit Types s : State W.



End configuration.



(** ** The end of an episode *)

Section episode_end.
Context {W : Type}.
Implicit Types s : State W.

Lemma cache_reset_Ok i s s' :
  cache_reset i s = Ok tt s' ->
  i < length (_cached_buf (st_self s)) /\
  s' = mkState (st_heap s) (st_world s)
         (set_cached (<[i := []]> (_cached_buf (st_self s))) (st_self s))
         (st_trace s).
Proof.
  unfold cache_reset. intros H. repeat step_st.
  match goal with Hx : list_index _ _ = Success _ |- _ =>
    apply list_index_Success, lookup_lt_Some in Hx end.
  done.
Qed.

Lemma _reset_state_Ok j s s' :
  _reset_state j s = Ok tt s' ->
  match bget_default "state" (data (st_self s)) with
  | Placeholder => s' = s
  | Arr l =>
      exists a c,
        st_heap s !! l = Some a /\ rows a !! j = Some c /\
        s' = mkState
               (<[l := mkArray (kind a)
                         (<[j := reset_cell (kind a) c]> (rows a))]>
                  (st_heap s))
               (st_world s) (st_self s) (st_trace s)
  end.
Proof.
  unfold _reset_state. intros H. repeat step_st.
  destruct (bget_default "state" (data (st_self s))) as [|l].
  - step_ok. done.
  - repeat step_st.
    match goal with Hl : _ !! l = Some ?a |- _ => exists a end.
    destruct (rows _ !! j) as [c|] eqn:Hc; [|done].
    repeat step_st.
    exists c. done.
Qed.

Lemma flush_into_buffer_fields cache (c : Collector) :
  data (flush_into_buffer cache c) = data c /\
  _cached_buf (flush_into_buffer cache c) = _cached_buf c /\
  buffer (flush_into_buffer cache c) = (fun b => b ++ cache) <$> buffer c.
Proof.
  unfold flush_into_buffer. destruct (buffer c) eqn:Hb; cbn; by rewrite ?Hb.
Qed.

(** The test of lines 302-303 decides what the specification calls
    counted. *)
Lemma is_counted_spec cfg t i lv counted :
  active_target cfg = Some t ->
  is_counted cfg i lv = Success counted ->
  counted = true <-> counted_spec t i lv.
Proof.
  unfold active_target, is_counted.
  destruct (step_truthy (n_step cfg)).
  { destruct (n_step cfg); intros [= <-] [= <-]; done. }
  destruct (n_episode cfg) as [|n|l|l|n|l]; try done; cbn.
  - intros [= <-] [= <-]. done.
  - intros [= <-].
    destruct (list_index (episode_count lv) i) as [c|] eqn:Hc; [|done].
    apply list_index_Success in Hc.
    destruct (l !! i) as [n|] eqn:Hn; [|done].
    intros [= <-]. rewrite Z.ltb_lt. split.
    + intros Hlt. exists c, n. done.
    + intros (c' & n' & Hc' & Hn' & Hlt). congruence.
Qed.

End episode_end.

(** The row [data[j]] holds, under every key, row [j] of the array of
    that key; reading it changes nothing. *)
Lemma batch_row_field (b : Batch) j : forall (h : heap) t h',
  batch_row b j h = Ok t h' ->
  h' = h /\
  forall k l, bget k b = Some (Arr l) ->
    exists a, h !! l = Some a /\ row_get k t = rows a !! j /\
              is_Some (rows a !! j).
Proof.
  induction b as [|[k0 [|l0]] b IH]; intros h t h' H; cbn in H.
  - step_ok. split; [done|]. intros k l Hk. done.
  - apply IH in H as [-> H]. split; [done|]. intros k l Hk. cbn in Hk.
    destruct (decide (k0 = k)); [done|]. by apply H.
  - repeat step_ok. destruct (rows _ !! j) as [c|] eqn:Hc; [|done].
    repeat step_ok.
    match goal with Hr : batch_row _ _ _ = Ok _ _ |- _ =>
      apply IH in Hr as [-> Hrest] end.
    split; [done|]. intros k l Hk. cbn in Hk. cbn [row_get].
    destruct (decide (k0 = k)) as [->|Hne].
    + injection Hk as <-. eexists. split; [done|]. rewrite Hc. eauto.
    + by apply Hrest.
Qed.

Section position.
Context {W : Type}.
Implicit Types s : State W.

Lemma component_zero_like k c x :
  component k c = Some x -> component k (zero_like c) = Some 0%Q.
Proof.
  destruct c as [| | | |v|]; cbn; try done.
  intros H. rewrite list_lookup_fmap, H. done.
Qed.

Lemma row_add_component (a b r : cell) k x y :
  row_add a b = Success r ->
  component k a = Some x -> component k b = Some y ->
  component k r = Some (x + y)%Q.
Proof.
  unfold row_add. intros H Ha Hb.
  destruct a as [| | | |u|], b as [| | | |v|]; cbn in *;
    try discriminate; simplify_eq; cbn; try done.
  destruct (decide (length u = length v)); [|done].
  injection H as <-. cbn. rewrite lookup_zip_with, Ha. cbn. by rewrite Hb.
Qed.

Lemma np_sum_axis0_component k : forall (l : list cell) xs r,
  l <> [] ->
  np_sum_axis0 l = Success r ->
  Forall2 (fun c x => component k c = Some x) l xs ->
  exists z, component k r = Some z /\ (z == sum_Q xs)%Q.
Proof.
  induction l as [|c l IH]; intros xs r Hne H Hall; [done|].
  apply Forall2_cons_inv_l in Hall as (x & xs' & Hx & Hall & ->).
  cbn [np_sum_axis0] in H.
  destruct (np_sum_axis0 l) as [r'|] eqn:Hl; [|done].
  destruct l as [|c' l].
  - apply Forall2_nil_inv_l in Hall as ->.
    rewrite (row_add_component _ _ _ k x 0 H Hx
               (component_zero_like _ _ _ Hx)).
    eexists. split; [done|]. unfold sum_Q. cbn. lra.
  - destruct (IH xs' r' ltac:(done) eq_refl Hall) as (z & Hz & Hsum).
    rewrite (row_add_component _ _ _ k x z H Hx Hz).
    eexists. split; [done|]. unfold sum_Q in *. cbn. by rewrite Hsum.
Qed.

Lemma np_iadd_component (a b r : cell) k x y :
  np_iadd a b = Success r ->
  component k a = Some x -> component k b = Some y ->
  component k r = Some (x + y)%Q.
Proof.
  unfold np_iadd. intros H Ha Hb.
  destruct a as [| | | |u|], b as [| | | |v|]; cbn in *;
    try discriminate; simplify_eq; cbn;
    rewrite ?list_lookup_fmap, ?Ha, ?Hb; try done.
  destruct (decide (length u = length v)).
  - injection H as <-. cbn. rewrite lookup_zip_with, Ha. cbn. by rewrite Hb.
  - destruct v as [|y0 [|]]; try done. injection H as <-. cbn.
    rewrite list_lookup_fmap, Ha. destruct k; [|done]. cbn in Hb.
    by injection Hb as ->.
Qed.

(** Counting an episode adds its rewards to the total, component by
    component. *)
Lemma count_reward_added (episode : ListReplayBuffer) total r total' :
  episode <> [] ->
  np_sum_axis0 (cache_rew episode) = Success r ->
  np_iadd total r = Success total' ->
  reward_added episode total total'.
Proof.
  intros Hne Hr Ht k x0 xs Hx0 Hall.
  destruct (np_sum_axis0_component k (cache_rew episode) xs r)
    as (z & Hz & Hsum); [by destruct episode|done| |].
  { unfold cache_rew. by apply Forall2_fmap_l. }
  rewrite (np_iadd_component _ _ _ k x0 z Ht Hx0 Hz).
  eexists. split; [done|]. by rewrite Hsum.
Qed.

Lemma reset_cell_zero (k : akind) (c : cell) : zero_entry k c (reset_cell k c).
Proof.
  destruct k, c; cbn; try done; split; try done;
    try (by apply bool_decide_eq_true; rewrite length_map);
    by apply Forall_fmap, Forall_true.
Qed.

Lemma flush_into_buffer_eq cache (c : Collector) :
  flush_into_buffer cache c
  = set_buffer ((fun b => b ++ cache) <$> buffer c) c.
Proof. unfold flush_into_buffer. by destruct c as [? ? ? ? ? ? ? [b|] ?]. Qed.

Lemma set_buffer_same (c : Collector) : set_buffer (buffer c) c = c.
Proof. by destruct c. Qed.

Lemma cache_add_run j i s u s' :
  cache_add j i s = Ok u s' ->
  exists cache row,
    _cached_buf (st_self s) !! i = Some cache /\
    row_of (st_heap s) (data (st_self s)) j row /\
    s' = mkState (st_heap s) (st_world s)
           (set_cached (<[i := cache ++ [row]]> (_cached_buf (st_self s)))
              (st_self s))
           (st_trace s).
Proof.
  unfold cache_add. intros H.
  apply bind_Ok in H as (self & s0 & Hs & H).
  apply get_self_Ok in Hs as [-> ->].
  apply bind_Ok in H as (cache & s1 & Hc & H).
  apply lift_result_Ok in Hc as [Hc ->]. apply list_index_Success in Hc.
  apply bind_Ok in H as (row & s2 & Hr & H).
  apply on_heap_Ok in Hr as (h' & Hr & ->).
  apply batch_row_field in Hr as [-> Hr].
  apply modify_self_Ok in H as ->.
  exists cache, row. split; [done|]. split; [|done].
  intros k l Hk. destruct (Hr k l Hk) as (a & Ha & Hrow & Hsome).
  exists a. done.
Qed.

Lemma done_at_run j s b s' :
  done_at j s = Ok b s' ->
  done_of (st_heap s) (data (st_self s)) j b /\ s' = s.
Proof.
  unfold done_at. intros H.
  apply bind_Ok in H as (d & s0 & Hd & H).
  apply get_data_Ok in Hd as [-> ->].
  destruct (bget_default "done" (data (st_self s))) as [|l] eqn:Hb; [done|].
  apply bind_Ok in H as (a & s1 & Ha & H).
  apply on_heap_Ok in Ha as (h' & Ha & ->). apply load_Ok in Ha as [Ha ->].
  apply bind_Ok in H as (c & s2 & Hc & H).
  apply lift_result_Ok in Hc as [Hc ->]. apply list_index_Success in Hc.
  apply lift_result_Ok in H as [H ->].
  split; [|by destruct s].
  exists l, a, c. split_and!; try done. by apply bget_default_Arr.
Qed.

(** The body of the loop at one position does what the specification
    says of it. *)
Lemma bookkeep_one_spec cfg t j i lv s lv' s' :
  active_target cfg = Some t ->
  bookkeep_one cfg j i lv s = Ok lv' s' ->
  position_spec t j i lv s lv' s'.
Proof.
  intros Ht H. unfold bookkeep_one in H.
  apply bind_Ok in H as (u & s1 & Ha & H).
  apply bind_Ok in H as (b & s2 & Hd & H).
  apply cache_add_run in Ha as (cache & row & Hcache & Hrow & ->).
  apply done_at_run in Hd as [Hdone ->].
  cbn [st_heap st_self data set_cached] in Hdone.
  assert (i < length (_cached_buf (st_self s))) as Hlt
    by (by eapply lookup_lt_Some).
  exists cache, row, b. split; [done|]. split; [done|]. split; [done|].
  destruct b.
  - apply on_done_Ok in H as (counted & s3 & s4 & Hc & Hcount & Hres & Hrs).
    pose proof (is_counted_spec _ _ _ _ _ Ht Hc) as Hspec.
    apply cache_reset_Ok in Hres as [_ ->]. apply _reset_state_Ok in Hrs.
    assert (exists bf,
              s3 = mkState (st_heap s) (st_world s)
                     (set_buffer bf
                        (set_cached
                           (<[i := cache ++ [row]]> (_cached_buf (st_self s)))
                           (st_self s)))
                     (st_trace s) /\
              whole_data lv' = whole_data lv /\
              ((counted_spec t i lv /\
                bf = (fun b => b ++ (cache ++ [row])) <$> buffer (st_self s) /\
                exists c,
                  episode_count lv !! i = Some c /\
                  episode_count lv' = <[i := (c + 1)%Z]> (episode_count lv) /\
                  step_count lv'
                  = (step_count lv + Z.of_nat (length (cache ++ [row])))%Z /\
                  reward_added (cache ++ [row]) (reward_total lv)
                    (reward_total lv') /\
                  flushed lv' = flushed lv ++ [cache ++ [row]])
               \/
               (~ counted_spec t i lv /\ lv' = lv /\
                bf = buffer (st_self s)))) as (bf & -> & Hwd & Hcases).
    { destruct counted.
      - apply count_episode_Ok in Hcount
          as (c & e & r & total & Hc1 & He & Hr & Htot & -> & ->).
        cbn [st_self set_cached _cached_buf] in He.
        rewrite list_lookup_insert_eq in He by done. injection He as <-.
        exists ((fun b => b ++ (cache ++ [row])) <$> buffer (st_self s)).
        split_and!.
        + by rewrite flush_into_buffer_eq.
        + done.
        + left. split; [by apply Hspec|]. split; [done|]. exists c.
          split_and!; try done.
          eapply count_reward_added; [|done..]. by destruct cache.
      - destruct Hcount as [-> ->]. exists (buffer (st_self s)).
        split_and!.
        + f_equal; by destruct (st_self s).
        + done.
        + right. split; [|done]. intros Hn. apply Hspec in Hn. done. }
    cbn [st_heap st_world st_self st_trace data set_cached set_buffer
           _cached_buf buffer] in Hrs.
    assert (st_world s' = st_world s /\ st_trace s' = st_trace s /\
            st_self s'
            = set_cached (<[i := []]> (_cached_buf (st_self s)))
                (set_buffer bf (st_self s)) /\
            state_reset j s s') as (Hw & Htr & Hme & Hstate).
    { unfold state_reset.
      destruct (bget_default "state" (data (st_self s))) as [|l].
      - subst s'. cbn. by rewrite list_insert_insert_eq.
      - destruct Hrs as (a & c & Hla & Hc0 & ->). cbn.
        rewrite list_insert_insert_eq. split_and!; try done.
        exists a, c, (reset_cell (kind a) c).
        split_and!; try done. apply reset_cell_zero. }
    rewrite Hw, Htr, Hme. cbn. split_and!; try done.
    + by eexists.
    + destruct Hcases as [(Hcs & -> & c & H1 & H2 & H3 & H4 & H5)
                         |(Hn & -> & ->)].
      * left. split; [done|]. exists c.
        split_and!; first [done | by rewrite Hme].
      * right. split_and!; first [done | by rewrite Hme].
    + by apply list_lookup_insert_eq.
  - apply ret_Ok in H as [-> ->]. cbn. split_and!; try done.
    + by eexists.
    + by apply list_lookup_insert_eq.
Qed.

(** The loop over the ready environments, position by position. *)
Lemma bookkeep_path cfg t ids : forall j0 lv s lv' s',
  active_target cfg = Some t ->
  bookkeep cfg j0 ids lv s = Ok lv' s' ->
  exists path : list (Locals * State W),
    length path = S (length ids) /\
    path !! 0 = Some (lv, s) /\
    path !! length ids = Some (lv', s') /\
    forall p i x y,
      ids !! p = Some i -> path !! p = Some x -> path !! S p = Some y ->
      position_spec t (j0 + p) i (fst x) (snd x) (fst y) (snd y).
Proof.
  induction ids as [|i ids IH]; intros j0 lv s lv' s' Ht H; cbn in H.
  - apply ret_Ok in H as [-> ->]. exists [(lv, s)]. split_and!; try done.
  - apply bind_Ok in H as (lv1 & s1 & H1 & H).
    destruct (IH _ _ _ _ _ Ht H) as (path & Hlen & H0 & Hlast & Hstep).
    exists ((lv, s) :: path). split_and!.
    + cbn. by rewrite Hlen.
    + done.
    + done.
    + intros [|p] i' x y Hi Hx Hy.
      * injection Hi as <-. injection Hx as <-.
        assert (Some (lv1, s1) = Some y) as [= <-]
          by (rewrite <- H0; exact Hy).
        cbn [fst snd]. rewrite Nat.add_0_r. by eapply bookkeep_one_spec.
      * replace (j0 + S p) with (S j0 + p) by lia.
        eapply Hstep; [exact Hi|exact Hx|exact Hy].
Qed.

End position.
(** C1.  The loop over the ready environments (lines 297-310) goes
    through the positions [j] of the ready set in order, each with its
    environment [i = _ready_env_ids[j]], and at each does what the
    specification says ([position_spec]).  The row [self.data[j]] is
    added to cache [i].  Where [done[j]] holds, the episode is counted
    exactly when the target is a step count, a scalar episode count, or
    a per-environment list whose component [i] the counter of slot [i]
    is still below.  Counted, the counter of slot [i] goes up by one,
    the rewards of the episode are added, component by component, to
    the running total, its length to the step count and its transitions
    to the buffer, if there is one; not counted, the locals and the
    buffer stay as they are.  In both cases cache [i] is emptied and
    row [j] of the hidden state becomes zero ([None] in an array of
    objects), a hidden state that is the empty record being left
    alone.  Where [done[j]] does not hold, nothing but cache [i]
    changes. *)
Theorem episode_end_bookkeeping {W} (cfg : Config) (t : target)
    (lv lv' : Locals) (s s' : State W) :
  active_target cfg = Some t ->
  bookkeeping cfg lv s = Ok lv' s' ->
  exists path : list (Locals * State W),
    length path = S (length (_ready_env_ids (st_self s))) /\
    path !! 0 = Some (lv, s) /\
    path !! length (_ready_env_ids (st_self s)) = Some (lv', s') /\
    forall j i p q,
      _ready_env_ids (st_self s) !! j = Some i ->
      path !! j = Some p -> path !! S j = Some q ->
      position_spec t j i (fst p) (snd p) (fst q) (snd q).
Proof.
  intros Ht H. unfold bookkeeping in H.
  apply bind_Ok in H as (self & s0 & Hs & H).
  apply get_self_Ok in Hs as [-> ->].
  destruct (bookkeep_path cfg t _ 0 _ _ _ _ Ht H)
    as (path & Hlen & H0 & Hlast & Hstep).
  exists path. split_and!; [done|done|done|].
  intros j i p q Hi Hp Hq. exact (Hstep j i p q Hi Hp Hq).
Qed.

Lemma episode_end_bookkeeping_witness :
  exists lv' s',
    bookkeeping scenario_102 (init_locals (st_self booking_bench))
      booking_bench = Ok lv' s' /\
    episode_count lv' = [1; 0; 0]%Z /\ step_count lv' = 2%Z /\
    reward_total lv' = CFloat 5 /\
    _cached_buf (st_self s') = [[]; []; [booking_row0]] /\
    buffer (st_self s') = Some [booking_prev; booking_row1] /\
    st_heap s' !! 3 = Some (mkArray Ndarray [CInt 5; CInt 0]%Z) /\
    exists path : list (Locals * State World),
      length path = 3 /\
      path !! 0 = Some (init_locals (st_self booking_bench), booking_bench) /\
      path !! 2 = Some (lv', s') /\
      forall j i p q,
        [2; 0] !! j = Some i ->
        path !! j = Some p -> path !! S j = Some q ->
        position_spec (PerEnvTarget [1; 0; 2]%Z) j i
          (fst p) (snd p) (fst q) (snd q).
Proof.
  assert (exists lv' s',
    bookkeeping scenario_102 (init_locals (st_self booking_bench))
      booking_bench = Ok lv' s' /\
    episode_count lv' = [1; 0; 0]%Z /\ step_count lv' = 2%Z /\
    reward_total lv' = CFloat 5 /\
    _cached_buf (st_self s') = [[]; []; [booking_row0]] /\
    buffer (st_self s') = Some [booking_prev; booking_row1] /\
    st_heap s' !! 3 = Some (mkArray Ndarray [CInt 5; CInt 0]%Z))
    as (lv' & s' & Hrun & Hep & Hst & Hrew & Hcache & Hbuf & Hstate).
  { vm_compute. eexists _, _. split_and!; reflexivity. }
  exists lv', s'.
  split_and!; [exact Hrun|exact Hep|exact Hst|exact Hrew|exact Hcache
              |exact Hbuf|exact Hstate|].
  exact (episode_end_bookkeeping scenario_102 (PerEnvTarget [1; 0; 2]%Z)
           _ lv' booking_bench s' eq_refl Hrun).
Defined.

Lemma batch_set_item_scatter_witness :
  exists source' h',
    _batch_set_item scatter_whole [0; 2] scatter_part 3 scatter_heap
    = Ok source' h' /\
    (exists ls,
       bget "act" source' = Some (Arr ls) /\ (ls ∉ dom scatter_heap) /\
       h' !! ls = Some (mkArray Ndarray [CInt 7; CInt 0; CInt 8]%Z)) /\
    (exists ls,
       bget "obs" source' = Some (Arr ls) /\
       h' !! ls = Some (mkArray Ndarray [CInt 20; CInt 11; CInt 22]%Z)) /\
    bget "state" source' = None /\
    h' !! 1 = scatter_heap !! 1 /\ h' !! 2 = scatter_heap !! 2.
Proof.
  assert (exists source' h',
    _batch_set_item scatter_whole [0; 2] scatter_part 3 scatter_heap
    = Ok source' h') as (source' & h' & Hrun).
  { vm_compute. eexists _, _. reflexivity. }
  exists source', h'. split; [exact Hrun|].
  assert (scatter_ready scatter_heap scatter_whole scatter_part) as Hready.
  { apply scatter_readyb_sound. vm_compute. reflexivity. }
  destruct (batch_set_item_scatter _ _ _ _ _ _ _ Hready Hrun)
    as (Hwritten & Hkept & _ & Hpart).
  split_and!.
  - destruct (Hwritten "act"%string 2 eq_refl)
      as (v & ls & base & r & Hv & Hk & Hbase & Hr & Hls).
    vm_compute in Hv. injection Hv as <-.
    unfold scatter_base in Hbase. cbn in Hbase.
    destruct Hbase as (Hfresh & c & Hc & -> & _).
    injection Hc as <-. vm_compute in Hr. injection Hr as <-.
    exists ls. split_and!; [exact Hk|exact Hfresh|exact Hls].
  - destruct (Hwritten "obs"%string 1 eq_refl)
      as (v & ls & base & r & Hv & Hk & Hbase & Hr & Hls).
    vm_compute in Hv. injection Hv as <-.
    unfold scatter_base in Hbase. cbn in Hbase.
    destruct Hbase as (-> & Hb). vm_compute in Hb. injection Hb as <-.
    vm_compute in Hr. injection Hr as <-.
    exists 0. split; [exact Hk|exact Hls].
  - exact (proj1 (Hkept "state"%string eq_refl)).
  - exact (Hpart "obs"%string 1 eq_refl).
  - exact (Hpart "act"%string 2 eq_refl).
Defined.

(* ================================================================= *)
(** * Further properties of the collector *)

(** ** What a returning [collect] has collected *)

Lemma np_div_Fin (a b : Z) :
  b <> 0%Z -> np_div (inject_Z a) (inject_Z b) = Fin (inject_Z a / inject_Z b).
Proof.
  intros Hb. unfold np_div.
  destruct (Qeq_bool (inject_Z b) 0) eqn:E; [|done].
  apply Qeq_bool_eq in E. unfold Qeq in E. cbn in E. lia.
Qed.

Section returned.
Context {W : Type} (ext : Externals W).
Implicit Types s : State W.

(** The locals with which the loop was left, behind the statistics. *)
Lemma collect_Returned_locals cfg fuel s stats s' :
  collect ext cfg fuel s = Returned stats s' ->
  exists lv,
    loop_done cfg lv = Success true /\
    counts_ok (env_num (st_self s)) lv /\
    (slots_within cfg (init_locals (st_self s)) -> slots_within cfg lv) /\
    n_ep stats = sum_Z (episode_count lv) /\
    n_st stats = step_count lv /\
    len stats = np_div (inject_Z (step_count lv))
                  (inject_Z (sum_Z (episode_count lv))).
Proof.
  intros H. apply collect_Returned in H as (lv & s2 & _ & Hloop & Hstat).
  apply collect_loop_Returned in Hloop as (k & _ & Hit & Hdone & _).
  destruct (iterate_counts ext cfg _ _ _ _ _ (env_num (st_self s))
              (buffer (st_self s)) Hit) as (Hok & _).
  { apply init_locals_ok. }
  { cbn. by rewrite buffer_after_nil. }
  apply statistics_Ok in Hstat
    as (_ & _ & _ & Hnep & Hnst & _ & _ & Hlen & _).
  exists lv. split_and!; try done.
  intros Hw. eapply iterate_within; eauto.
Qed.

(** A counted episode count that is positive goes with a positive
    number of counted episodes. *)
Lemma counts_ok_steps_episodes n lv :
  counts_ok n lv -> (0 < step_count lv)%Z -> (1 <= sum_Z (episode_count lv))%Z.
Proof.
  intros [_ _ Hst Hep _] Hpos. rewrite Hep.
  destruct (flushed lv); [|cbn; lia].
  rewrite Hst in Hpos. cbn in Hpos. lia.
Qed.

End returned.

(** With a positive [n_step], a [collect] that returns has counted at
    least [n_step] steps (whole episodes: possibly more) in at least one
    episode, so the mean episode length it reports is a finite number. *)
Theorem collect_reaches_step_target {W} (ext : Externals W) (cfg : Config)
    (n : Z) (fuel : nat) (s : State W) stats s' :
  n_step cfg = Some n -> (0 < n)%Z ->
  collect ext cfg fuel s = Returned stats s' ->
  (n <= n_st stats)%Z /\ (1 <= n_ep stats)%Z /\
  len stats = Fin (inject_Z (n_st stats) / inject_Z (n_ep stats)).
Proof.
  intros Hn Hpos H.
  apply collect_Returned_locals in H
    as (lv & Hdone & Hok & _ & -> & -> & ->).
  unfold loop_done in Hdone. rewrite Hn in Hdone. cbn in Hdone.
  destruct (n =? 0)%Z eqn:E; [lia|]. cbn in Hdone.
  injection Hdone as Hdone. apply Z.leb_le in Hdone.
  assert (1 <= sum_Z (episode_count lv))%Z as Hep.
  { eapply counts_ok_steps_episodes; [done|lia]. }
  split_and!; [done|done|]. apply np_div_Fin. lia.
Qed.

Lemma collect_reaches_step_target_witness :
  exists stats s',
    collect (bench 2) (mkConfig (Some 5%Z) PyNone false None) 10
      (bench_start 2 3 false None) = Returned stats s' /\
    (5 <= n_st stats)%Z /\ (1 <= n_ep stats)%Z.
Proof.
  assert (exists stats s',
    collect (bench 2) (mkConfig (Some 5%Z) PyNone false None) 10
      (bench_start 2 3 false None) = Returned stats s')
    as (stats & s' & Hrun).
  { vm_compute. eexists _, _. reflexivity. }
  exists stats, s'. split; [exact Hrun|].
  destruct (collect_reaches_step_target (bench 2)
              (mkConfig (Some 5%Z) PyNone false None) 5 10 _ stats s'
              eq_refl eq_refl Hrun) as (H1 & H2 & _).
  split; [exact H1|exact H2].
Defined.

(** With an [int] as [n_episode], a [collect] that returns has counted
    at least that many episodes, summed over the environments; with a
    positive one, the mean episode length is a finite number. *)
Theorem collect_reaches_episode_target {W} (ext : Externals W) (cfg : Config)
    (n : Z) (fuel : nat) (s : State W) stats s' :
  step_truthy (n_step cfg) = false -> n_episode cfg = PyInt n ->
  collect ext cfg fuel s = Returned stats s' ->
  (n <= n_ep stats)%Z /\
  ((0 < n)%Z ->
   len stats = Fin (inject_Z (n_st stats) / inject_Z (n_ep stats))).
Proof.
  intros Hs Hn H.
  apply collect_Returned_locals in H
    as (lv & Hdone & Hok & _ & -> & -> & ->).
  unfold loop_done in Hdone. rewrite Hs, Hn in Hdone.
  injection Hdone as Hdone. apply Z.leb_le in Hdone.
  split; [done|]. intros Hpos. apply np_div_Fin. lia.
Qed.

Lemma collect_reaches_episode_target_witness :
  exists stats s',
    collect (bench 2) (mkConfig None (PyInt 4) false None) 10
      (bench_start 2 3 false None) = Returned stats s' /\
    (4 <= n_ep stats)%Z.
Proof.
  assert (exists stats s',
    collect (bench 2) (mkConfig None (PyInt 4) false None) 10
      (bench_start 2 3 false None) = Returned stats s')
    as (stats & s' & Hrun).
  { vm_compute. eexists _, _. reflexivity. }
  exists stats, s'. split; [exact Hrun|].
  exact (proj1 (collect_reaches_episode_target (bench 2)
                  (mkConfig None (PyInt 4) false None) 4 10 _ stats s'
                  eq_refl eq_refl Hrun)).
Defined.

Lemma reached_and_within (cs l : list Z) :
  Forall2 (fun c n => (n <= c)%Z) cs l ->
  (forall i c n, cs !! i = Some c -> l !! i = Some n -> (c <= n)%Z) ->
  cs = l.
Proof.
  induction 1 as [|c n cs l Hcn _ IH]; intros Hw; [done|].
  f_equal.
  - specialize (Hw 0 c n eq_refl eq_refl). lia.
  - apply IH. intros i c' n' Hc Hn. by apply (Hw (S i)).
Qed.

(** With a list as [n_episode], one non-negative target per
    environment, the loop of [collect] is left with the counter of every
    environment equal to its target: exactly [n_episode[i]] episodes of
    environment [i] were counted, and ['n/ep'] is the sum of the list. *)
Theorem collect_exact_per_environment {W} (ext : Externals W) (cfg : Config)
    (l : list Z) (fuel : nat) (s : State W) :
  step_truthy (n_step cfg) = false -> n_episode cfg = PyList l ->
  Forall (fun n => (0 <= n)%Z) l -> length l = env_num (st_self s) ->
  (forall s1 lv s2,
     collect_loop ext cfg fuel (init_locals (st_self s)) s1 = Returned lv s2 ->
     episode_count lv = l) /\
  (forall stats s',
     collect ext cfg fuel s = Returned stats s' -> n_ep stats = sum_Z l).
Proof.
  intros Hs Hl Hnn Hlen.
  assert (active_target cfg = Some (PerEnvTarget l)) as Ht.
  { unfold active_target. by rewrite Hs, Hl. }
  assert (forall lv, loop_done cfg lv = Success true ->
            length (episode_count lv) = env_num (st_self s) ->
            slots_within cfg lv -> episode_count lv = l) as Hexact.
  { intros lv Hdone Hn Hw. apply (slots_within_list cfg l _ Ht) in Hw.
    unfold loop_done in Hdone. rewrite Hs, Hl in Hdone.
    destruct (np_all_ge_same_length (episode_count lv) l) as (b & Hb & Hall);
      [congruence|].
    rewrite Hb in Hdone. injection Hdone as ->.
    apply reached_and_within; [by apply Hall|exact Hw]. }
  assert (slots_within cfg (init_locals (st_self s))) as Hinit.
  { apply (slots_within_list cfg l _ Ht). by apply init_locals_within. }
  split.
  - intros s1 lv s2 Hloop.
    apply collect_loop_Returned in Hloop as (k & _ & Hit & Hdone & _).
    apply Hexact; [done| |by eapply iterate_within].
    destruct (iterate_counts ext cfg _ _ _ _ _ (env_num (st_self s))
                (buffer (st_self s1)) Hit) as ([Hn _ _ _ _] & _).
    { apply init_locals_ok. }
    { cbn. by rewrite buffer_after_nil. }
    exact Hn.
  - intros stats s' H.
    apply collect_Returned_locals in H
      as (lv & Hdone & [Hn _ _ _ _] & Hw & -> & _).
    f_equal. apply Hexact; auto.
Qed.

Lemma collect_exact_per_environment_witness :
  exists stats s',
    collect (bench 2) scenario_102 10 (bench_start 2 3 false None)
    = Returned stats s' /\ n_ep stats = 3%Z.
Proof.
  assert (exists stats s',
    collect (bench 2) scenario_102 10 (bench_start 2 3 false None)
    = Returned stats s') as (stats & s' & Hrun).
  { vm_compute. eexists _, _. reflexivity. }
  exists stats, s'. split; [exact Hrun|].
  refine (proj2 (collect_exact_per_environment (bench 2) scenario_102
                   [1; 0; 2]%Z 10 (bench_start 2 3 false None)
                   eq_refl eq_refl _ _) stats s' Hrun).
  - repeat constructor; discriminate.
  - vm_compute. reflexivity.
Defined.

(** A list as [n_episode] whose length is neither the number of
    environments nor one lets no call return: with at least two
    environments, [collect] raises in its first iteration or at its
    end, where numpy cannot compare the counters with the list
    ([ValueError]). *)
Theorem collect_rejects_mismatched_list {W} (ext : Externals W) (cfg : Config)
    (l : list Z) (fuel : nat) (s : State W) :
  step_truthy (n_step cfg) = false -> n_episode cfg = PyList l ->
  length l <> env_num (st_self s) ->
  2 <= length l -> 2 <= env_num (st_self s) ->
  exists e s',
    collect ext cfg (S fuel) s = Raised e s' /\
    (forall lv1 s1,
       iteration ext cfg (init_locals (st_self s))
         (final_state (call (time_time ext) s)) = Ok lv1 s1 ->
       e = ValueError).
Proof.
  intros Hs Hl Hne Hl2 Hn2. rewrite collect_unfold.
  assert (check_targets cfg = Success tt) as ->.
  { unfold check_targets. rewrite Hs, Hl. cbn.
    destruct l; [cbn in Hl2; lia|done]. }
  cbn [collect_loop].
  destruct (iteration ext cfg _ _) as [lv1 s1|e s1] eqn:Hit.
  - destruct (iteration_counts ext _ _ _ _ _ (env_num (st_self s))
                (buffer (st_self s)) Hit) as ([Hn _ _ _ _] & _).
    { apply init_locals_ok. }
    { cbn. by rewrite buffer_after_nil. }
    assert (loop_done cfg lv1 = Failure ValueError) as ->.
    { unfold loop_done, np_all_ge. rewrite Hs, Hl.
      destruct (decide _) as [E|_]; [congruence|].
      destruct (episode_count lv1) as [|c1 [|c2 cs]]; cbn in Hn; try lia.
      destruct l as [|t1 [|t2 ts]]; cbn in Hl2; try lia. done. }
    exists ValueError, s1. split; [done|]. done.
  - exists e, s1. split; [done|]. intros lv1 s2 [=].
Qed.

Lemma collect_rejects_mismatched_list_witness :
  exists s',
    collect (bench 2) (mkConfig None (PyList [1; 1]%Z) false None) 1
      (bench_start 2 3 false None) = Raised ValueError s'.
Proof.
  destruct (collect_rejects_mismatched_list (bench 2)
              (mkConfig None (PyList [1; 1]%Z) false None) [1; 1]%Z 0
              (bench_start 2 3 false None) eq_refl eq_refl)
    as (e & s' & Hrun & Hwhich).
  - vm_compute. discriminate.
  - cbn. lia.
  - vm_compute. lia.
  - assert (exists lv1 s1,
      iteration (bench 2) (mkConfig None (PyList [1; 1]%Z) false None)
        (init_locals (st_self (bench_start 2 3 false None)))
        (final_state (call (time_time (bench 2))
                        (bench_start 2 3 false None))) = Ok lv1 s1)
      as (lv1 & s1 & Hit).
    { vm_compute. eexists _, _. reflexivity. }
    exists s'. rewrite Hrun. f_equal. exact (Hwhich lv1 s1 Hit).
Defined.

(** ** The permanent buffer only grows *)

Section growth.
Context {W : Type} (ext : Externals W).
Implicit Types s : State W.

Lemma buffer_grows_same s s' :
  buffer (st_self s') = buffer (st_self s) -> buffer_grows s s'.
Proof.
  intros H. exists []. rewrite H.
  destruct (buffer (st_self s)); cbn; by rewrite ?app_nil_r.
Qed.

Lemma buffer_grows_trans s1 s2 s3 :
  buffer_grows s1 s2 -> buffer_grows s2 s3 -> buffer_grows s1 s3.
Proof.
  intros [e1 H1] [e2 H2]. exists (e1 ++ e2). rewrite H2, H1.
  destruct (buffer (st_self s1)); cbn; by rewrite ?app_assoc.
Qed.

Lemma grows_bind {A B} (m : M (State W) A) (k : A -> M (State W) B) :
  stable buffer_grows m -> (forall a, stable buffer_grows (k a)) ->
  stable buffer_grows (bind m k).
Proof.
  intros Hm Hk s. specialize (Hm s). unfold bind.
  destruct (m s) as [a s1|e s1]; cbn in *; [|done].
  eapply buffer_grows_trans; [exact Hm|]. apply Hk.
Qed.

Ltac split_grows :=
  repeat lazymatch goal with
         | |- stable _ (bind _ _) => apply grows_bind; [|intros ?]
         end.

(** A command that keeps one of the views with the buffer in it. *)
Lemma grows_all {A} (m : M (State W) A) :
  stable (keeps view_all) m -> stable buffer_grows m.
Proof.
  intros H s. apply buffer_grows_same. specialize (H s).
  unfold keeps, view_all in H. congruence.
Qed.

Lemma grows_but_steps {A} (m : M (State W) A) :
  stable (keeps view_but_steps) m -> stable buffer_grows m.
Proof.
  intros H s. apply buffer_grows_same. specialize (H s).
  unfold keeps, view_but_steps in H. congruence.
Qed.

Lemma grows_but_warns {A} (m : M (State W) A) :
  stable (keeps view_but_warns) m -> stable buffer_grows m.
Proof.
  intros H s. apply buffer_grows_same. specialize (H s).
  unfold keeps, view_but_warns in H. congruence.
Qed.

Lemma grows_but_counters {A} (m : M (State W) A) :
  stable (keeps view_but_counters) m -> stable buffer_grows m.
Proof.
  intros H s. apply buffer_grows_same. specialize (H s).
  unfold keeps, view_but_counters in H. congruence.
Qed.

Lemma count_episode_grows i lv : stable buffer_grows (@count_episode W i lv).
Proof.
  intros s. destruct (count_episode i lv s) as [lv' s'|e s'] eqn:H.
  - apply count_episode_Ok in H as (c & cache & _ & _ & _ & _ & _ & _ & _ & ->).
    exists cache. cbn. apply flush_into_buffer_fields.
  - apply buffer_grows_same. revert H.
    unfold count_episode, bind, get_self, lift_result, modify_self.
    repeat (match goal with
            | |- context [match ?r with Success _ => _ | Failure _ => _ end] =>
                destruct r
            end; cbn); intros [= _ <-]; done.
Qed.

Lemma on_done_grows cfg j i lv : stable buffer_grows (@on_done W cfg j i lv).
Proof.
  unfold on_done. split_grows.
  - apply grows_all, stable_lift_result.
  - destruct a; [apply count_episode_grows|apply grows_all, stable_ret].
  - apply grows_all, cache_reset_quiet.
  - apply grows_all, _reset_state_quiet.
  - apply grows_all, stable_ret.
Qed.

Lemma bookkeep_one_grows cfg j i lv :
  stable buffer_grows (@bookkeep_one W cfg j i lv).
Proof.
  unfold bookkeep_one. split_grows.
  - apply grows_all, cache_add_quiet.
  - apply grows_all, done_at_quiet.
  - destruct a0; [apply on_done_grows|apply grows_all, stable_ret].
Qed.

Lemma bookkeep_grows cfg ids : forall j lv,
  stable buffer_grows (@bookkeep W cfg j ids lv).
Proof.
  induction ids as [|i ids IH]; intros j lv; cbn.
  - apply grows_all, stable_ret.
  - apply grows_bind; [apply bookkeep_one_grows|]. intros ?. apply IH.
Qed.

Lemma iteration_grows cfg lv : stable buffer_grows (iteration ext cfg lv).
Proof.
  unfold iteration. split_grows;
    first [ apply grows_all; solve [auto with quiet]
          | apply grows_but_steps; solve [auto with quiet]
          | apply grows_but_warns; solve [auto with quiet]
          | idtac ].
  unfold bookkeeping. apply grows_bind; [apply grows_all, stable_get_self|].
  intros ?. apply bookkeep_grows.
Qed.

Lemma collect_loop_grows cfg fuel : forall lv s,
  buffer_grows s (outcome_state (collect_loop ext cfg fuel lv s)).
Proof.
  induction fuel as [|fuel IH]; intros lv s; cbn [collect_loop].
  - by apply buffer_grows_same.
  - pose proof (iteration_grows cfg lv s) as Hit.
    destruct (iteration ext cfg lv s) as [lv1 s1|e s1]; [|exact Hit].
    destruct (loop_done cfg lv1) as [[|]|e]; try exact Hit.
    eapply buffer_grows_trans; [exact Hit|apply IH].
Qed.

End growth.

(** However a call of [collect] ends, returning, raising or still
    running, the permanent buffer holds what it held before the call
    followed by what the call added; a collector without a buffer still
    has none. *)
Theorem collect_buffer_grows {W} (ext : Externals W) (cfg : Config)
    (fuel : nat) (s : State W) :
  buffer_grows s (outcome_state (collect ext cfg fuel s)) /\
  (forall b, buffer (st_self s) = Some b ->
     exists extra,
       buffer (st_self (outcome_state (collect ext cfg fuel s)))
       = Some (b ++ extra)) /\
  (buffer (st_self s) = None ->
   buffer (st_self (outcome_state (collect ext cfg fuel s))) = None).
Proof.
  assert (buffer_grows s (outcome_state (collect ext cfg fuel s))) as H.
  { pose proof (collect_loop_grows ext cfg fuel (init_locals (st_self s))
                  (final_state (call (time_time ext) s))) as Hloop.
    destruct (collect_outcome_state ext cfg fuel s)
      as [->|[[-> _]|(lv & s2 & Hl & ->)]].
    - by apply buffer_grows_same.
    - eapply buffer_grows_trans; [|exact Hloop]. by apply buffer_grows_same.
    - rewrite Hl in Hloop. cbn [outcome_state] in Hloop.
      eapply buffer_grows_trans; [by apply buffer_grows_same|].
      eapply buffer_grows_trans; [exact Hloop|].
      apply grows_but_counters, statistics_quiet. }
  split; [exact H|]. destruct H as [extra H]. split.
  - intros b Hb. exists extra. by rewrite H, Hb.
  - intros Hb. by rewrite H, Hb.
Qed.

(** ** Scatter, then gather *)

Lemma write_rows_length (indices : list nat) : forall (a v : list cell),
  length (write_rows a indices v) = length a.
Proof.
  induction indices as [|i indices IH]; intros a [|c v]; cbn; try done.
  by rewrite IH, length_insert.
Qed.

Lemma write_rows_lookup_other (indices : list nat) :
  forall (a v : list cell) i,
    i ∉ indices -> write_rows a indices v !! i = a !! i.
Proof.
  induction indices as [|i0 indices IH]; intros a [|c v] i Hi; cbn; try done.
  apply not_elem_of_cons in Hi as [Hne Hi].
  rewrite IH by done. by apply list_lookup_insert_ne.
Qed.

(** Rows written at distinct indices are read back at these indices. *)
Lemma take_write_rows (indices : list nat) : forall (a v : list cell),
  NoDup indices -> Forall (fun i => i < length a) indices ->
  length v = length indices ->
  take_rows (write_rows a indices v) indices = Success v.
Proof.
  induction indices as [|i indices IH]; intros a v Hnd Hin Hlen.
  - destruct v; [done|discriminate Hlen].
  - destruct v as [|c v]; [discriminate Hlen|]. cbn.
    apply NoDup_cons in Hnd as [Hi Hnd].
    apply Forall_cons in Hin as [Hlt Hin].
    rewrite write_rows_lookup_other by done.
    rewrite list_lookup_insert_eq by done.
    rewrite IH; [done|done| |by injection Hlen].
    eapply Forall_impl; [exact Hin|]. cbn. intros x. by rewrite length_insert.
Qed.

Lemma astype_rows_length kd kv (a : list cell) (indices : list nat) :
  forall (v r : list cell),
    astype_rows kd kv a indices v = Success r ->
    length v = length indices -> length r = length indices.
Proof.
  induction indices as [|i indices IH]; intros [|c v] r H Hlen;
    cbn in H; try discriminate Hlen.
  - by injection H as <-.
  - destruct (a !! i) as [t|]; [|done].
    destruct (np_astype kd kv t c) as [c'|e]; [|done].
    destruct (astype_rows kd kv a indices v) as [r'|e] eqn:Hr; [|done].
    injection H as <-. cbn. f_equal. eapply IH; [done|]. by injection Hlen.
Qed.


(** A value of the type of the array is stored as it is. *)
Lemma np_astype_same (d v : array) t c :
  same_dtype d v -> t ∈ rows d -> c ∈ rows v ->
  np_astype (kind d) (kind v) t c = Success c.
Proof.
  intros [Hk Hty] Ht Hc. rewrite <- Hk. unfold np_astype.
  destruct (kind d); try done; by rewrite (Hty t c Ht Hc).
Qed.

Lemma astype_rows_same (d v : array) (indices : list nat) :
  same_dtype d v ->
  forall (w r : list cell),
    w ⊆ rows v ->
    astype_rows (kind d) (kind v) (rows d) indices w = Success r ->
    length w = length indices -> r = w.
Proof.
  intros Hsame. induction indices as [|i indices IH]; intros [|c w] r Hsub H Hlen;
    cbn in H; try discriminate Hlen.
  - by injection H as <-.
  - destruct (rows d !! i) as [t|] eqn:Ht; [|done].
    rewrite (np_astype_same d v t c) in H;
      [|done|by eapply list_elem_of_lookup_2|apply Hsub; left].
    destruct (astype_rows _ _ _ indices w) as [r'|e] eqn:Hr; [|done].
    injection H as <-. f_equal. eapply IH; [|done|by injection Hlen].
    intros x Hx. apply Hsub. by right.
Qed.

Lemma set_rows_Success (a : array) indices (v : array) r :
  set_rows a indices v = Success r ->
  Forall (fun i => i < length (rows a)) indices /\
  exists v' w,
    broadcast_rows (length indices) (rows v) = Success v' /\
    astype_rows (kind a) (kind v) (rows a) indices v' = Success w /\
    r = write_rows (rows a) indices w.
Proof.
  unfold set_rows. destruct (decide _) as [Hin|]; [|done].
  destruct (broadcast_rows _ _) as [v'|]; [|done].
  destruct (astype_rows _ _ _ _ _) as [w|] eqn:Hw; [|done].
  intros [= <-]. split; [done|]. by exists v', w.
Qed.

Lemma set_rows_length (a : array) indices (v : array) r :
  set_rows a indices v = Success r -> length r = length (rows a).
Proof.
  intros H. apply set_rows_Success in H as (_ & v' & w & _ & _ & ->).
  apply write_rows_length.
Qed.

(** What was written at distinct indices is read back there: the values
    converted to the type of the array. *)
Lemma take_set_rows (a : array) indices (v : array) r :
  NoDup indices -> length (rows v) = length indices ->
  set_rows a indices v = Success r ->
  exists w,
    astype_rows (kind a) (kind v) (rows a) indices (rows v) = Success w /\
    take_rows r indices = Success w.
Proof.
  intros Hnd Hlen H.
  apply set_rows_Success in H as (Hin & v' & w & Hb & Hw & ->).
  unfold broadcast_rows in Hb. rewrite decide_True in Hb by done.
  injection Hb as <-. exists w. split; [done|].
  apply take_write_rows; [done|done|].
  by eapply astype_rows_length.
Qed.



(** ** Resetting a row of the hidden state *)

Lemma zero_like_idemp (c : cell) : zero_like (zero_like c) = zero_like c.
Proof. destruct c; cbn; try done. by rewrite map_map. Qed.

Lemma reset_cell_idemp k (c : cell) :
  reset_cell k (reset_cell k c) = reset_cell k c.
Proof. destruct k; cbn; auto using zero_like_idemp. Qed.

(** There is one zero entry for a row. *)
Lemma zero_entry_unique (k : akind) (c c1 c2 : cell) :
  zero_entry k c c1 -> zero_entry k c c2 -> c1 = c2.
Proof.
  assert (forall u v w : list Q,
            length u = length v -> length u = length w ->
            Forall (fun x => x = 0%Q) v -> Forall (fun x => x = 0%Q) w ->
            v = w) as Hvec.
  { intros u. induction u as [|x u IH]; intros [|y v] [|z w] Hv Hw Fv Fw;
      try discriminate; [done|].
    apply Forall_cons in Fv as [-> Fv]. apply Forall_cons in Fw as [-> Fw].
    f_equal. apply IH; [by injection Hv|by injection Hw|done|done]. }
  unfold zero_entry. destruct k; try congruence;
    intros [Hz1 Ht1] [Hz2 Ht2];
    destruct c; try congruence;
    destruct c1; try discriminate Ht1; destruct c2; try discriminate Ht2;
    cbn in Hz1, Hz2; try congruence;
    apply bool_decide_eq_true in Ht1; apply bool_decide_eq_true in Ht2;
    f_equal; by eapply Hvec.
Qed.

(** [_reset_state(j)], when the hidden state is an array: row [j]
    becomes its zero entry (a row of zeros of the same type and shape,
    [None] in an array of objects) and nothing else changes, neither
    the other rows, nor another array, nor the collector; resetting the
    row again changes nothing; and a row that does not exist is an
    [IndexError] that leaves everything as it was. *)
Theorem reset_state_row {W} (j : nat) (s : State W) (l : loc) (a : array) :
  bget_default "state" (data (st_self s)) = Arr l ->
  st_heap s !! l = Some a ->
  (forall c, rows a !! j = Some c ->
     exists c',
       zero_entry (kind a) c c' /\
       let a' := mkArray (kind a) (<[j := c']> (rows a)) in
       let s' := mkState (<[l := a']> (st_heap s)) (st_world s) (st_self s)
                   (st_trace s) in
       _reset_state j s = Ok tt s' /\
       _reset_state j s' = Ok tt s' /\
       length (rows a') = length (rows a) /\
       (forall i, i <> j -> rows a' !! i = rows a !! i) /\
       (forall l', l' <> l -> st_heap s' !! l' = st_heap s !! l')) /\
  (rows a !! j = None ->
   _reset_state j s
   = Raise IndexError
       (mkState (st_heap s) (st_world s) (st_self s) (st_trace s))).
Proof.
  intros Hst Ha. split.
  - intros c Hc. exists (reset_cell (kind a) c).
    split; [apply reset_cell_zero|]. cbv zeta.
    assert (forall h0 a0 c0,
              h0 !! l = Some a0 -> rows a0 !! j = Some c0 ->
              _reset_state j
                (mkState h0 (st_world s) (st_self s) (st_trace s))
              = Ok tt (mkState
                         (<[l := mkArray (kind a0)
                                   (<[j := reset_cell (kind a0) c0]>
                                      (rows a0))]> h0)
                         (st_world s) (st_self s) (st_trace s))) as Hrun.
    { intros h0 a0 c0 H0 Hc0.
      unfold _reset_state, bind, get_data, get_self, ret. cbn.
      rewrite Hst. unfold on_heap at 1, load. cbn. rewrite H0.
      rewrite Hc0. reflexivity. }
    split_and!.
    + destruct s as [h w self tr]. cbn in *. by apply Hrun.
    + rewrite (Hrun _ (mkArray (kind a)
                         (<[j := reset_cell (kind a) c]> (rows a)))
                 (reset_cell (kind a) c)).
      * cbn [kind rows]. by rewrite reset_cell_idemp, list_insert_insert_eq,
          insert_insert_eq.
      * apply lookup_insert_eq.
      * cbn [rows]. apply list_lookup_insert_eq. by eapply lookup_lt_Some.
    + cbn. apply length_insert.
    + intros i Hi. cbn. by apply list_lookup_insert_ne.
    + intros l' Hl'. cbn. by apply lookup_insert_ne.
  - intros Hc. unfold _reset_state, bind, get_data, get_self, ret. cbn.
    rewrite Hst. unfold on_heap at 1, load. cbn. rewrite Ha.
    by rewrite Hc.
Qed.

Lemma reset_state_row_witness :
  (exists s',
     _reset_state 1 bench_hidden = Ok tt s' /\
     _reset_state 1 s' = Ok tt s' /\
     st_heap s' !! 0
     = Some (mkArray Tensor [CVec [1%Q; 2%Q]; CVec [0%Q; 0%Q]])) /\
  (exists s',
     _reset_state 0 (bench_hidden_of (mkArray Ndarray [CInt 5; CInt 6]%Z))
     = Ok tt s' /\
     st_heap s' !! 0 = Some (mkArray Ndarray [CInt 0; CInt 6]%Z)) /\
  (exists s',
     _reset_state 0
       (bench_hidden_of (mkArray ObjArray [CInt 5%Z; CInfo None 1%Z]))
     = Ok tt s' /\
     st_heap s' !! 0 = Some (mkArray ObjArray [CNone; CInfo None 1%Z])) /\
  _reset_state 2 bench_hidden = Raise IndexError bench_hidden.
Proof.
  split_and!.
  - destruct (reset_state_row 1 bench_hidden 0
                (mkArray Tensor [CVec [1%Q; 2%Q]; CVec [3%Q; 4%Q]])
                eq_refl eq_refl) as [Hin _].
    destruct (Hin (CVec [3%Q; 4%Q]) eq_refl) as (c' & Hz & H1 & H2 & _).
    assert (c' = CVec [0%Q; 0%Q]) as ->.
    { apply (zero_entry_unique Tensor (CVec [3%Q; 4%Q])); [exact Hz|].
      split; [by repeat constructor|reflexivity]. }
    eexists. split; [exact H1|]. split; [exact H2|]. reflexivity.
  - destruct (reset_state_row 0
                (bench_hidden_of (mkArray Ndarray [CInt 5; CInt 6]%Z)) 0
                (mkArray Ndarray [CInt 5; CInt 6]%Z)
                eq_refl eq_refl) as [Hin _].
    destruct (Hin (CInt 5%Z) eq_refl) as (c' & Hz & H1 & _).
    assert (c' = CInt 0%Z) as ->.
    { apply (zero_entry_unique Ndarray (CInt 5%Z)); [exact Hz|].
      split; reflexivity. }
    eexists. split; [exact H1|]. reflexivity.
  - destruct (reset_state_row 0
                (bench_hidden_of
                   (mkArray ObjArray [CInt 5%Z; CInfo None 1%Z])) 0
                (mkArray ObjArray [CInt 5%Z; CInfo None 1%Z])
                eq_refl eq_refl) as [Hin _].
    destruct (Hin (CInt 5%Z) eq_refl) as (c' & Hz & H1 & _).
    cbn in Hz. subst c'.
    eexists. split; [exact H1|]. reflexivity.
  - destruct (reset_state_row 2 bench_hidden 0
                (mkArray Tensor [CVec [1%Q; 2%Q]; CVec [3%Q; 4%Q]])
                eq_refl eq_refl) as [_ Hout].
    exact (Hout eq_refl).
Defined.

(** ** Stepping and resetting the environments *)

(** The environments are stepped once in every iteration of the loop:
    after [k] iterations that raised nothing there were [k] calls of
    [env.step], and a [collect] that returns made as many calls as its
    loop had iterations, at least one. *)
Theorem collect_steps_once_per_iteration {W} (ext : Externals W)
    (cfg : Config) :
  (forall k (s : State W) lv' s',
     iterate ext cfg k (init_locals (st_self s)) s = Ok lv' s' ->
     steps_of (st_trace s') = k + steps_of (st_trace s)) /\
  (forall fuel (s : State W) stats s',
     collect ext cfg fuel s = Returned stats s' ->
     exists k lv s2,
       k < fuel /\
       iterate ext cfg (S k) (init_locals (st_self s))
         (final_state (call (time_time ext) s)) = Ok lv s2 /\
       steps_of (st_trace s') = S k + steps_of (st_trace s)).
Proof.
  assert (forall k (s : State W) lv' s',
     iterate ext cfg k (init_locals (st_self s)) s = Ok lv' s' ->
     steps_of (st_trace s') = k + steps_of (st_trace s)) as Hsteps.
  { intros k s lv' s' H.
    destruct (iterate_counts ext cfg _ _ _ _ _ (env_num (st_self s))
                (buffer (st_self s)) H) as (_ & _ & _ & Hst & _).
    - apply init_locals_ok.
    - cbn. by rewrite buffer_after_nil.
    - exact Hst. }
  split; [exact Hsteps|].
  intros fuel s stats s' H.
  apply collect_Returned in H as (lv & s2 & _ & Hloop & Hstat).
  apply collect_loop_Returned in Hloop as (k & Hk & Hit & _).
  exists k, lv, s2. split; [done|]. split; [done|].
  pose proof (stable_Ok _ _ _ _ _ (statistics_quiet ext _ lv) Hstat) as Hq.
  unfold view_but_counters in Hq. injection Hq as _ _ _ Hq _.
  rewrite <- Hq.
  exact (Hsteps (S k) (final_state (call (time_time ext) s)) _ _ Hit).
Qed.

Lemma collect_steps_once_per_iteration_witness :
  exists stats s' k,
    collect (bench 2) scenario_102 10 (bench_start 2 3 false None)
    = Returned stats s' /\
    k < 10 /\
    steps_of (st_trace s')
    = S k + steps_of (st_trace (bench_start 2 3 false None)).
Proof.
  assert (exists stats s',
    collect (bench 2) scenario_102 10 (bench_start 2 3 false None)
    = Returned stats s') as (stats & s' & Hrun).
  { vm_compute. eexists _, _. reflexivity. }
  destruct (proj2 (collect_steps_once_per_iteration (bench 2) scenario_102)
              _ _ _ _ Hrun) as (k & lv & s2 & Hk & Hit & Hst).
  exists stats, s', k. split; [exact Hrun|]. split; [exact Hk|exact Hst].
Defined.

Lemma py_sum_bools (l : list cell) : forall j t,
  Forall (fun c => exists b, c = CBool b) l ->
  py_sum l = Success t ->
  (0 <= t)%Q /\ (Qeq_bool t 0 = true <-> np_where j l = []).
Proof.
  induction l as [|c l IH]; intros j t Hb H.
  - injection H as <-. split; [apply Qle_refl|done].
  - apply Forall_cons in Hb as [[b ->] Hb]. cbn in H.
    destruct (py_sum l) as [r|] eqn:Hr; [|by destruct b].
    injection H as <-. cbn [np_where cell_num].
    destruct (IH (S j) r Hb eq_refl) as [Hr0 Hiff].
    destruct b.
    + change (Qeq_bool 1 0) with false. cbv iota. split; [lra|].
      split; [|done]. intros E. apply Qeq_bool_eq in E. lra.
    + change (Qeq_bool 0 0) with true. cbv iota. split; [lra|].
      rewrite <- Hiff. split; intros E; apply Qeq_bool_eq in E;
        apply Qeq_eq_bool; lra.
Qed.

Lemma preprocess_obs_Ok {W} (ext : Externals W) obs (s : State W) o s' :
  preprocess_obs ext obs s = Ok o s' ->
  st_heap s' = st_heap s /\ st_self s' = st_self s /\
  st_trace s' = st_trace s.
Proof.
  unfold preprocess_obs. destruct (preprocess_fn ext); intros H;
    repeat step_st; done.
Qed.

(** Where [np.where] finds the finished episodes in an array of
    booleans: at the positions that hold [True], each once. *)
Lemma np_where_bools (l : list cell) : forall j,
  Forall (fun c => exists b, c = CBool b) l ->
  NoDup (np_where j l) /\
  forall i, i ∈ np_where j l <->
            exists p, i = j + p /\ l !! p = Some (CBool true).
Proof.
  induction l as [|c l IH]; intros j Hb.
  - split; [constructor|]. intros i. split; [by intros ?%elem_of_nil|].
    by intros (p & _ & ?).
  - apply Forall_cons in Hb as [[b ->] Hb].
    destruct (IH (S j) Hb) as [Hnd Hiff]. cbn [np_where cell_num].
    assert (forall i, i ∈ np_where (S j) l -> j < i) as Hlt.
    { intros i (p & -> & _)%Hiff. lia. }
    destruct b.
    + change (Qeq_bool 1 0) with false. cbv iota. split.
      * apply NoDup_cons. split; [|done]. intros Hin%Hlt. lia.
      * intros i. rewrite elem_of_cons, Hiff. split.
        -- intros [->|(p & -> & Hp)].
           ++ exists 0. split; [lia|done].
           ++ exists (S p). split; [lia|done].
        -- intros ([|p] & -> & Hp); [left; lia|].
           right. exists p. split; [lia|done].
    + change (Qeq_bool 0 0) with true. cbv iota. split; [done|].
      intros i. rewrite Hiff. split.
      * intros (p & -> & Hp). exists (S p). split; [lia|done].
      * intros ([|p] & -> & Hp); [done|]. exists p. split; [lia|done].
Qed.

(** The reset of the environments [ids] and the hook, run one after
    the other. *)
Lemma reset_then_preprocess {W} (ext : Externals W) ids (s : State W)
    obs s1 o s2 :
  call (env_reset ext (Some ids)) s = Ok obs s1 ->
  preprocess_obs ext obs s1 = Ok o s2 ->
  st_world s2 = fst (reset_at ext ids (st_world s)) /\
  o = snd (reset_at ext ids (st_world s)) /\
  st_heap s2 = st_heap s /\ st_self s2 = st_self s /\
  st_trace s2 = st_trace s.
Proof.
  intros Hr Hp. apply call_Ok in Hr as [-> ->].
  unfold preprocess_obs, reset_at in *.
  destruct (preprocess_fn ext) as [f|].
  - apply bind_Ok in Hp as (r & s3 & Hc & Hp).
    apply call_Ok in Hc as [-> ->]. apply ret_Ok in Hp as [-> ->]. done.
  - apply ret_Ok in Hp as [-> ->]. done.
Qed.

(** At the end of an iteration, with [done] an array of booleans.  If
    no episode ended, no environment is reset and neither the trace, the
    world nor the store changes.  Otherwise the environments at the
    positions where [done] holds [True], and no other, are reset in one
    call, with their global ids; the world is the one this reset (and
    the hook) leaves; the observations they return are written into
    [obs_next] at these positions, converted to the type of [obs_next],
    and are read back there as they are when they have that type and
    there is one for each position; the other rows of [obs_next], and
    every other array, stay.  In both cases [obs] then is the very
    array [obs_next]. *)
Theorem auto_reset_resets_finished {W} (ext : Externals W) (s s' : State W)
    (l : loc) (a : array) :
  bget_default "done" (data (st_self s)) = Arr l ->
  st_heap s !! l = Some a ->
  Forall (fun c => exists b, c = CBool b) (rows a) ->
  auto_reset ext s = Ok tt s' ->
  let pos := np_where 0 (rows a) in
  (forall p, p ∈ pos <-> rows a !! p = Some (CBool true)) /\
  st_self s'
  = set_data (bset "obs" (bget_default "obs_next" (data (st_self s)))
                (data (st_self s))) (st_self s) /\
  (pos = [] ->
   st_trace s' = st_trace s /\ st_world s' = st_world s /\
   st_heap s' = st_heap s) /\
  (pos <> [] ->
   exists ids ln d r,
     Forall2 (fun p i => _ready_env_ids (st_self s) !! p = Some i) pos ids /\
     st_trace s' = st_trace s ++ [EvReset (Some ids)] /\
     st_world s' = fst (reset_at ext ids (st_world s)) /\
     bget_default "obs_next" (data (st_self s)) = Arr ln /\
     st_heap s !! ln = Some d /\
     st_heap s' = <[ln := mkArray (kind d) r]> (st_heap s) /\
     length r = length (rows d) /\
     (forall p, p ∉ pos -> r !! p = rows d !! p) /\
     let obs := snd (reset_at ext ids (st_world s)) in
     set_rows d pos obs = Success r /\
     (length (rows obs) = length pos -> same_dtype d obs ->
      take_rows r pos = Success (rows obs))).
Proof.
  intros Hdone Ha Hbool H pos.
  destruct (np_where_bools (rows a) 0 Hbool) as [Hnd Hpos].
  assert (forall p, p ∈ pos <-> rows a !! p = Some (CBool true)) as Hwhere.
  { intros p. unfold pos. rewrite Hpos. split.
    - by intros (q & -> & Hq).
    - intros Hp. by exists p. }
  split; [exact Hwhere|].
  unfold auto_reset in H.
  apply bind_Ok in H as (d0 & s0 & Hd & H).
  apply get_data_Ok in Hd as [-> ->]. rewrite Hdone in H.
  apply bind_Ok in H as (done & s1 & Hload & H).
  apply bind_Ok in Hload as (a0 & s1' & Hl & Hret).
  apply on_heap_Ok in Hl as (h0 & Hl & ->). apply load_Ok in Hl as [Hl ->].
  apply ret_Ok in Hret as [-> ->].
  assert (a0 = a) as -> by congruence.
  apply bind_Ok in H as (total & s2 & Hsum & H).
  apply lift_result_Ok in Hsum as [Hsum ->].
  apply bind_Ok in H as (u & s3 & Hif & H).
  apply modify_self_Ok in H as ->.
  destruct (py_sum_bools _ 0 total Hbool Hsum) as [_ Hiff].
  fold pos in Hiff.
  destruct (Qeq_bool total 0) eqn:E; cbn [negb] in Hif.
  - apply ret_Ok in Hif as [_ ->]. cbn [st_self st_heap st_world st_trace].
    split; [done|]. split; [done|].
    intros Hne. destruct Hne. by apply Hiff.
  - apply bind_Ok in Hif as (self & s4 & Hs & Hif).
    apply get_self_Ok in Hs as [-> ->].
    cbn [st_self st_heap st_world st_trace] in Hif.
    apply bind_Ok in Hif as (ids & s5 & Hids & Hif).
    apply lift_result_Ok in Hids as [Hids ->].
    apply bind_Ok in Hif as (u1 & s6 & Hemit & Hif).
    apply emit_Ok in Hemit as ->.
    apply bind_Ok in Hif as (obs0 & s7 & Hreset & Hif).
    apply bind_Ok in Hif as (obs & s8 & Hpre & Hif).
    destruct (reset_then_preprocess _ _ _ _ _ _ _ Hreset Hpre)
      as (Hw & -> & Hh & Hme & Htr).
    cbn [st_self st_heap st_world st_trace] in *.
    destruct (bget_default "obs_next" (data (st_self s))) as [|ln] eqn:Hn;
      [done|].
    apply on_heap_Ok in Hif as (h1 & Hassign & ->).
    unfold assign_values in Hassign.
    apply bind_Ok in Hassign as (d & h2 & Hld & Hassign).
    apply load_Ok in Hld as [Hld ->].
    apply bind_Ok in Hassign as (r & h3 & Hset & Hstore).
    apply lift_result_Ok in Hset as [Hset ->].
    apply store_Ok in Hstore as ->.
    cbn [st_self st_heap st_world st_trace].
    rewrite Hme. split; [done|]. split.
    { intros Hnil. apply Hiff in Hnil. congruence. }
    intros _. rewrite Hh in Hld.
    exists ids, ln, d, r. cbv zeta.
    assert (Forall2 (fun p i => _ready_env_ids (st_self s) !! p = Some i)
              pos ids) as Hglobal.
    { clear -Hids. fold pos in Hids. revert ids Hids.
      induction pos as [|p pos IH]; intros ids H; cbn in H.
      - injection H as <-. constructor.
      - destruct (_ !! p) as [i|] eqn:Hi; [|done].
        destruct (take_rows _ pos) as [r|]; [|done].
        injection H as <-. constructor; [done|]. by apply IH. }
    split_and!; try done.
    + by rewrite Hh.
    + by eapply set_rows_length.
    + intros p Hp.
      apply set_rows_Success in Hset as (_ & v' & w & _ & _ & ->).
      by apply write_rows_lookup_other.
    + intros Hlen Hsame.
      destruct (take_set_rows _ _ _ _ Hnd Hlen Hset) as (w & Hcast & Htake).
      etrans; [exact Htake|]. f_equal.
      by eapply (astype_rows_same d _ pos Hsame).
Qed.

Lemma auto_reset_resets_finished_witness :
  exists s' ln,
    auto_reset (bench_stagger 1) stagger_booked = Ok tt s' /\
    st_trace s' = st_trace stagger_booked ++ [EvReset (Some [0])] /\
    ages (st_world s') = [0; 1; 1] /\
    bget "obs" (data (st_self s')) = Some (Arr ln) /\
    st_heap s' !! ln = Some (mkArray Ndarray [CInt 0; CInt 1; CInt 1]%Z).
Proof.
  assert (exists l a s' ln,
    bget_default "done" (data (st_self stagger_booked)) = Arr l /\
    st_heap stagger_booked !! l = Some a /\
    rows a = [CBool true; CBool false; CBool false] /\
    auto_reset (bench_stagger 1) stagger_booked = Ok tt s' /\
    _ready_env_ids (st_self stagger_booked) = [0; 1; 2] /\
    ages (fst (reset_at (bench_stagger 1) [0] (st_world stagger_booked)))
    = [0; 1; 1] /\
    bget "obs" (data (st_self s')) = Some (Arr ln) /\
    st_heap s' !! ln = Some (mkArray Ndarray [CInt 0; CInt 1; CInt 1]%Z))
    as (l & a & s' & ln & Hl & Ha & Hrows & Hrun & Hready & Hages & Hobs & Hln).
  { vm_compute. eexists _, _, _, _. split_and!; reflexivity. }
  destruct (auto_reset_resets_finished (bench_stagger 1) _ s' l a Hl Ha)
    as (_ & _ & _ & H); [|exact Hrun|].
  { rewrite Hrows. repeat constructor; by eexists. }
  destruct H as (ids & ln' & d & r & Hids & Htr & Hw & _).
  { rewrite Hrows. vm_compute. discriminate. }
  rewrite Hrows in Hids. cbn in Hids.
  apply Forall2_cons_inv_l in Hids as (i & ids' & Hi & Hnil & ->).
  apply Forall2_nil_inv_l in Hnil as ->.
  rewrite Hready in Hi. cbn in Hi. injection Hi as <-.
  exists s', ln. split_and!; [exact Hrun|exact Htr| |exact Hobs|exact Hln].
  rewrite Hw. exact Hages.
Defined.

(** ** Construction and reset *)

Lemma map_nil_repeat {A B} (x : A) n :
  map (fun _ : A => @nil B) (repeat x n) = repeat [] n.
Proof. induction n as [|n IH]; cbn; by rewrite ?IH. Qed.

(** The full [reset] always returns, and leaves a collector as new:
    every environment is ready, the permanent buffer, if there is one,
    is empty, and the working record is all placeholders but for
    [obs], a new array holding the observations of the reset
    environments; the number of environments and the kind of
    simulation are untouched, and so is every array there was. *)
Theorem reset_leaves_fresh_collector {W} (ext : Externals W) (s : State W) :
  exists s' l,
    reset ext s = Ok tt s' /\
    env_num (st_self s') = env_num (st_self s) /\
    is_async (st_self s') = is_async (st_self s) /\
    _ready_env_ids (st_self s') = seq 0 (env_num (st_self s)) /\
    buffer (st_self s') = (fun _ => []) <$> buffer (st_self s) /\
    data (st_self s') = bset "obs" (Arr l) empty_data /\
    (l ∉ dom (st_heap s)) /\
    st_heap s' = <[l := reset_obs ext (st_world s)]> (st_heap s).
Proof.
  exists (final_state (reset ext s)), (fresh (dom (st_heap s))).
  unfold reset_obs, reset, reset_env, reset_buffer, update_field,
    preprocess_obs, get_data, batch_put.
  destruct (preprocess_fn ext), (_action_noise ext),
    (buffer (st_self s)) eqn:Hb;
    cbn; rewrite ?Hb; cbn;
    split_and!; rewrite ?Hb; first [reflexivity | apply is_fresh].
Qed.

(** [Collector(policy, env, buffer, ...)] over [n] environments always
    returns, with: one empty episode cache per environment, every
    environment ready, the three counters at zero, and the buffer it
    was given emptied by the [reset] that ends the construction. *)
Theorem init_collector {W} (ext : Externals W) (n : nat) (async : bool)
    (buf : option ReplayBuffer) (s0 : State W) :
  exists s l,
    __init__ ext n async buf s0 = Ok tt s /\
    st_self s
    = mkCollector n (seq 0 n) async (repeat [] n) 0%Q 0%Z 0%Z
        ((fun _ => []) <$> buf) (bset "obs" (Arr l) empty_data) /\
    (l ∉ dom (st_heap s0)) /\
    st_heap s = <[l := reset_obs ext (st_world s0)]> (st_heap s0) /\
    exists tl, st_trace s = st_trace s0 ++ [EvReset None] ++ tl.
Proof.
  exists (final_state (__init__ ext n async buf s0)),
    (fresh (dom (st_heap s0))).
  unfold __init__, reset_obs, reset, reset_env, reset_buffer, update_field,
    preprocess_obs, get_data, batch_put.
  destruct (preprocess_fn ext), (_action_noise ext), buf;
    cbn; rewrite ?map_nil_repeat;
    (split_and!; [reflexivity..|apply is_fresh|reflexivity|]);
    first [ by exists [] | exists [EvNoiseReset]; by rewrite <- app_assoc ].
Qed.

(** ** A reward that cannot be reported *)

(** When the counted rewards have more than one component and no
    [reward_metric] was given, the statistics fail on the assertion of
    [_default_rew_metric], after the collection is over: the call of
    [collect] raises [AssertionError] once its loop has finished, the
    cumulative counters already advanced and the buffer already
    filled. *)
Theorem collect_fails_after_collecting {W} (ext : Externals W) (cfg : Config)
    (fuel : nat) (s : State W) (lv : Locals) (s2 : State W) (v : list Q) :
  check_targets cfg = Success tt ->
  collect_loop ext cfg fuel (init_locals (st_self s))
    (final_state (call (time_time ext) s)) = Returned lv s2 ->
  reward_total lv = CVec v -> 2 <= length v ->
  reward_metric ext = None -> env_num (st_self s) <> 0 ->
  exists s',
    collect ext cfg fuel s = Raised AssertionError s' /\
    collect_step (st_self s')
    = (collect_step (st_self s) + step_count lv)%Z /\
    collect_episode (st_self s')
    = (collect_episode (st_self s) + sum_Z (episode_count lv))%Z /\
    buffer (st_self s') = buffer (st_self s2) /\
    st_heap s' = st_heap s2.
Proof.
  intros Hc Hloop Hv Hlen Hm Hn.
  destruct (collect_loop_outcome ext cfg fuel (init_locals (st_self s))
              (final_state (call (time_time ext) s))
              (env_num (st_self s)) (buffer (st_self s)))
    as (Hme & _ & _).
  { apply init_locals_ok. }
  { cbn. by rewrite buffer_after_nil. }
  rewrite Hloop in Hme. cbn [outcome_state] in Hme.
  unfold me_view, self_view in Hme. injection Hme as Hnum _ _ Hs He.
  rewrite collect_unfold, Hc, Hloop.
  exists (final_state
            (statistics ext (snd (time_time ext (st_world s))) lv s2)).
  unfold statistics, bind, get_self, call, modify_self, lift_result,
    reward_div.
  cbn [st_self st_heap st_world st_trace final_state].
  rewrite Hv, Hm. destruct (env_num (st_self s2)) eqn:E; [congruence|].
  cbn [ret bind].
  destruct (decide (1 < length _)) as [_|Hshort].
  - cbn [default]. unfold _default_rew_metric.
    destruct v as [|x [|y v]]; cbn in Hlen; try lia. cbn.
    split_and!; try reflexivity; cbn in Hs, He; congruence.
  - exfalso. apply Hshort. rewrite length_map. lia.
Qed.

Lemma collect_fails_after_collecting_witness :
  exists s',
    collect (bench_pair 2) scenario_102 10 (bench_start 2 3 false (Some []))
    = Raised AssertionError s' /\
    collect_step (st_self s') = 6%Z /\ collect_episode (st_self s') = 3%Z.
Proof.
  assert (exists lv s2 v,
    collect_loop (bench_pair 2) scenario_102 10
      (init_locals (st_self (bench_start 2 3 false (Some []))))
      (final_state (call (time_time (bench_pair 2))
                      (bench_start 2 3 false (Some [])))) = Returned lv s2 /\
    reward_total lv = CVec v /\ length v = 2 /\
    step_count lv = 6%Z /\ sum_Z (episode_count lv) = 3%Z)
    as (lv & s2 & v & Hloop & Hv & Hlen & Hst & Hep).
  { vm_compute. eexists _, _, _. split_and!; reflexivity. }
  destruct (collect_fails_after_collecting (bench_pair 2) scenario_102 10
              _ lv s2 v eq_refl Hloop Hv)
    as (s' & Hrun & Hs & He & _); [lia|reflexivity| |].
  { vm_compute. discriminate. }
  exists s'. split; [exact Hrun|]. rewrite Hs, He, Hst, Hep.
  split; vm_compute; reflexivity.
Defined.

(** ** Edge cases of the scatter *)

(** [_batch_set_item] with a working record that holds no values, an
    empty record included, does nothing.  A working field without rows,
    for a key the full-width record lacks, is an [IndexError] (its row
    [0] is the template of the container); so is an index beyond the
    rows of a field the full-width record has, numpy checking the
    indices before it writes: in both cases the store is as it was. *)
Theorem batch_set_item_edges (h : heap) (source : Batch) (indices : list nat)
    (size : nat) :
  (forall target,
     Forall (fun kv => snd kv = Placeholder) target ->
     _batch_set_item source indices target size h = Ok source h) /\
  (forall k lv v rest,
     bget_default k source = Placeholder ->
     h !! lv = Some v -> rows v = [] ->
     _batch_set_item source indices ((k, Arr lv) :: rest) size h
     = Raise IndexError h) /\
  (forall k lv v ls d rest,
     bget_default k source = Arr ls ->
     h !! ls = Some d -> h !! lv = Some v ->
     ~ Forall (fun i => i < length (rows d)) indices ->
     _batch_set_item source indices ((k, Arr lv) :: rest) size h
     = Raise IndexError h).
Proof.
  split_and!.
  - intros target. unfold _batch_set_item.
    induction 1 as [|[k v] target Hv _ IH]; [done|].
    cbn in Hv. subst v. exact IH.
  - intros k lv v rest Hk Hv Hrows.
    unfold _batch_set_item. cbn [_batch_set_item_loop].
    unfold _batch_set_item_body, bind at 1. cbv zeta. rewrite Hk.
    cbn [is_reserved]. unfold bind, load, first_row. rewrite Hv, Hrows.
    reflexivity.
  - intros k lv v ls d rest Hk Hd Hv Hout.
    unfold _batch_set_item. cbn [_batch_set_item_loop].
    unfold _batch_set_item_body, bind at 1. cbv zeta. rewrite Hk.
    cbn [is_reserved]. unfold bind, ret. rewrite Hk.
    unfold assign_rows, bind, load. rewrite Hd, Hv.
    unfold set_rows. destruct (decide _) as [Hin|_]; [by destruct Hout|].
    reflexivity.
Qed.

Lemma batch_set_item_edges_witness :
  _batch_set_item scatter_whole [0; 2] [("state"%string, Placeholder)] 3
    scatter_heap = Ok scatter_whole scatter_heap /\
  _batch_set_item scatter_whole [0; 3] scatter_part 3 scatter_heap
  = Raise IndexError scatter_heap.
Proof.
  destruct (batch_set_item_edges scatter_heap scatter_whole [0; 2] 3)
    as (Hnone & _ & _).
  destruct (batch_set_item_edges scatter_heap scatter_whole [0; 3] 3)
    as (_ & _ & Hout).
  split.
  - apply Hnone. repeat constructor.
  - apply (Hout "obs"%string 1 (mkArray Ndarray [CInt 20; CInt 22]%Z) 0
             (mkArray Ndarray [CInt 10; CInt 11; CInt 12]%Z));
      [reflexivity|reflexivity|reflexivity|].
    intros Hin. apply Forall_cons in Hin as [_ Hin].
    apply Forall_cons in Hin as [Hin _]. cbn in Hin. lia.
Defined.

(** ** The shape of a collector *)

Ltac shape_tac :=
  intros; unfold keeps, shape, shape_ready, flush_into_buffer;
  cbn [st_heap st_world st_self st_trace];
  repeat match goal with
         | |- context [match buffer ?c with _ => _ end] => destruct (buffer c)
         end;
  cbn; rewrite ?length_insert, ?length_map; try reflexivity.

Ltac shape_stable := repeat (stable_step; try solve [shape_tac]).

Section shapes.
Context {W : Type} (ext : Externals W).

Lemma sample_actions_shape ids :
  stable (keeps (@shape_ready W)) (sample_actions ext ids).
Proof. induction ids; cbn; shape_stable. done. Qed.

Lemma cache_add_shape j i : stable (keeps (@shape_ready W)) (cache_add j i).
Proof.
  intros s. unfold cache_add, bind, get_self, lift_result, modify_self.
  destruct (list_index _ i); [|done]. cbn.
  unfold on_heap. destruct (batch_row _ _ _); [|done].
  unfold keeps, shape_ready. cbn. by rewrite length_insert.
Qed.

Lemma cache_reset_shape i : stable (keeps (@shape_ready W)) (cache_reset i).
Proof.
  intros s. unfold cache_reset, bind, get_self, lift_result, modify_self.
  destruct (list_index _ i); [|done]. cbn.
  unfold keeps, shape_ready. cbn. by rewrite length_insert.
Qed.

Lemma bookkeep_shape cfg ids : forall j lv,
  stable (keeps (@shape_ready W)) (bookkeep cfg j ids lv).
Proof.
  induction ids as [|i ids IH]; intros j lv; cbn.
  - shape_stable.
  - unfold bookkeep_one, done_at, on_done, count_episode, _reset_state.
    shape_stable;
      first [apply cache_add_shape | apply cache_reset_shape | apply IH].
Qed.

Lemma step_env_shape act lv :
  stable (keeps (@shape W)) (step_env ext act lv).
Proof. unfold step_env, update_field. shape_stable. Qed.

Lemma sync_ready_trans (s1 s2 s3 : State W) :
  sync_ready s1 s2 -> sync_ready s2 s3 -> sync_ready s1 s3.
Proof.
  intros [E1 R1] [E2 R2]. split; [congruence|].
  intros Ha. rewrite R2, R1; [done|done|]. injection E1 as _ <- _. done.
Qed.

Lemma sync_bind {A B} (m : M (State W) A) (k : A -> M (State W) B) :
  stable sync_ready m -> (forall a, stable sync_ready (k a)) ->
  stable sync_ready (bind m k).
Proof.
  intros Hm Hk s. specialize (Hm s). unfold bind.
  destruct (m s) as [a s1|e s1]; cbn in *; [|done].
  eapply sync_ready_trans; [exact Hm|]. apply Hk.
Qed.

Lemma sync_of_keeps {A} (m : M (State W) A) :
  stable (keeps shape_ready) m -> stable sync_ready m.
Proof.
  intros H s. specialize (H s). unfold keeps, shape_ready in H.
  injection H as E1 E2 E3 E4. split; congruence.
Qed.

Lemma step_env_sync act lv : stable sync_ready (step_env ext act lv).
Proof.
  intros s. split; [apply (step_env_shape act lv s)|]. intros Ha.
  unfold step_env. unfold bind at 1. unfold get_self at 1. cbv beta iota.
  rewrite Ha. cbn [negb].
  match goal with
  | |- _ (st_self (final_state (?m s))) = _ =>
      assert (stable (keeps (@shape_ready W)) m) as Hm
        by (unfold update_field; shape_stable);
      specialize (Hm s)
  end.
  unfold keeps, shape_ready in Hm. by injection Hm.
Qed.

Lemma iteration_sync cfg lv : stable sync_ready (iteration ext cfg lv).
Proof.
  unfold iteration.
  repeat lazymatch goal with
         | |- stable _ (bind _ _) => apply sync_bind; [|intros ?]
         end;
    first
      [ apply step_env_sync
      | apply sync_of_keeps;
        unfold warn_check, take_subset, take_last_state, choose_action,
          store_result, render_step, render_envs, preprocess_step,
          bookkeeping, auto_reset, preprocess_obs, scatter_back,
          update_field;
        shape_stable;
        first [apply sample_actions_shape | apply bookkeep_shape] ].
Qed.

Lemma sync_ready_refl (s : State W) : sync_ready s s.
Proof. by split. Qed.

Lemma collect_loop_sync cfg fuel : forall lv s,
  sync_ready s (outcome_state (collect_loop ext cfg fuel lv s)).
Proof.
  induction fuel as [|fuel IH]; intros lv s; cbn [collect_loop].
  - apply sync_ready_refl.
  - pose proof (iteration_sync cfg lv s) as Hit.
    destruct (iteration ext cfg lv s) as [lv1 s1|e s1]; [|exact Hit].
    destruct (loop_done cfg lv1) as [[|]|e]; try exact Hit.
    eapply sync_ready_trans; [exact Hit|apply IH].
Qed.

Lemma collect_sync cfg fuel s :
  sync_ready s (outcome_state (collect ext cfg fuel s)).
Proof.
  pose proof (collect_loop_sync cfg fuel (init_locals (st_self s))
                (final_state (call (time_time ext) s))) as Hloop.
  destruct (collect_outcome_state ext cfg fuel s)
    as [->|[[-> _]|(lv & s2 & Hl & ->)]].
  - apply sync_ready_refl.
  - exact Hloop.
  - rewrite Hl in Hloop. cbn [outcome_state] in Hloop.
    eapply sync_ready_trans; [exact Hloop|].
    apply sync_of_keeps. unfold statistics. shape_stable.
Qed.

Lemma sync_ready_well_formed (s s' : State W) :
  sync_ready s s' -> well_formed s -> well_formed s'.
Proof.
  intros [E R] [Hlen Hready]. injection E as E1 E2 E3.
  split; [congruence|]. intros Ha. rewrite <- E2 in Ha.
  rewrite R, <- E1 by done. by apply Hready.
Qed.

End shapes.

(** A collector is well formed from its construction on: it has one
    episode cache per environment and, in synchronous simulation, all
    its environments ready.  [reset] restores this, and a call of
    [collect], however it ends, changes neither the number of
    environments, nor the kind of simulation, nor the number of caches,
    nor, in synchronous simulation, the ready environments. *)
Theorem collector_well_formed {W} (ext : Externals W) :
  (forall n async buf (s0 : State W),
     well_formed (final_state (__init__ ext n async buf s0))) /\
  (forall (s : State W),
     length (_cached_buf (st_self s)) = env_num (st_self s) ->
     well_formed (final_state (reset ext s))) /\
  (forall cfg fuel (s : State W),
     sync_ready s (outcome_state (collect ext cfg fuel s)) /\
     (well_formed s -> well_formed (outcome_state (collect ext cfg fuel s)))).
Proof.
  split_and!.
  - intros n async buf s0.
    unfold well_formed, __init__, reset, reset_env, reset_buffer,
      update_field, preprocess_obs, get_data, batch_put.
    destruct (preprocess_fn ext), (_action_noise ext), buf; cbn;
      by rewrite length_map, repeat_length.
  - intros s Hlen.
    unfold well_formed, reset, reset_env, reset_buffer,
      update_field, preprocess_obs, get_data, batch_put.
    destruct (preprocess_fn ext), (_action_noise ext),
      (buffer (st_self s)) eqn:Hb; cbn; rewrite ?Hb; cbn;
      by rewrite length_map.
  - intros cfg fuel s. split; [apply collect_sync|].
    apply sync_ready_well_formed, collect_sync.
Qed.

Lemma collector_well_formed_witness :
  well_formed
    (outcome_state
       (collect (bench 2) scenario_102 10 (bench_start 2 3 false None))).
Proof.
  apply (proj2 (proj2 (proj2 (collector_well_formed (bench 2)))
                  scenario_102 10 (bench_start 2 3 false None))).
  exact (proj1 (collector_well_formed (bench 2)) 3 false None (bench_blank 3)).
Defined.

(** ** Counted episodes are not empty *)

(** A property of the local counters that the bookkeeping of one
    position keeps holds after every iteration that raised nothing. *)
Section lifting.
Context {W : Type} (ext : Externals W) (cfg : Config).
Context (P : Locals -> Prop).
Hypothesis P_counters :
  forall lv lv', counters lv' = counters lv -> P lv -> P lv'.
Hypothesis P_bookkeep_one : forall j i lv (s : State W) lv' s',
  bookkeep_one cfg j i lv s = Ok lv' s' -> P lv -> P lv'.

Lemma bookkeep_lifts ids : forall j lv (s : State W) lv' s',
  bookkeep cfg j ids lv s = Ok lv' s' -> P lv -> P lv'.
Proof.
  induction ids as [|i ids IH]; intros j lv s lv' s' H HP; cbn in H.
  - by step_ok.
  - step_ok. eapply IH; [done|]. eapply P_bookkeep_one; eauto.
Qed.

Lemma iteration_lifts lv (s : State W) lv' s' :
  iteration ext cfg lv s = Ok lv' s' -> P lv -> P lv'.
Proof.
  intros H HP.
  apply iteration_Ok in H
    as (s1 & lv1 & s2 & last & s3 & r & s4 & act & s5 & lv2 & s6 & s7 &
        s8 & lv3 & s9 & s10 &
        _ & H2 & _ & _ & _ & H6 & _ & _ & H9 & _ & H11).
  pose proof (take_subset_counters _ _ _ _ H2) as C2.
  pose proof (step_env_counters _ _ _ _ _ _ H6) as [C6 _].
  pose proof (scatter_back_counters _ _ _ _ H11) as C11.
  apply (P_counters lv3); [done|].
  unfold bookkeeping in H9. repeat step_st.
  eapply bookkeep_lifts; [done|].
  apply (P_counters lv1); [done|]. by apply (P_counters lv).
Qed.

Lemma iterate_lifts k : forall lv (s : State W) lv' s',
  iterate ext cfg k lv s = Ok lv' s' -> P lv -> P lv'.
Proof.
  induction k as [|k IH]; intros lv s lv' s' H HP; cbn in H.
  - by step_ok.
  - step_ok. eapply IH; [done|]. eapply iteration_lifts; eauto.
Qed.

End lifting.

Section nonempty.
Context {W : Type}.
Implicit Types s : State W.

Lemma cache_add_Ok j i s u s' :
  cache_add j i s = Ok u s' ->
  exists cache t,
    _cached_buf (st_self s) !! i = Some cache /\
    _cached_buf (st_self s') !! i = Some (cache ++ [t]).
Proof.
  unfold cache_add. intros H. repeat step_st.
  match goal with Hx : list_index _ _ = Success ?c |- _ =>
    apply list_index_Success in Hx; exists c end.
  eexists. split; [done|]. cbn.
  apply list_lookup_insert_eq. by eapply lookup_lt_Some.
Qed.

Lemma done_at_self j s b s' : done_at j s = Ok b s' -> st_self s' = st_self s.
Proof.
  unfold done_at. intros H. repeat step_all; done.
Qed.

Lemma bookkeep_one_nonempty cfg j i lv s lv' s' :
  bookkeep_one cfg j i lv s = Ok lv' s' ->
  Forall (fun c : ListReplayBuffer => c <> []) (flushed lv) ->
  Forall (fun c : ListReplayBuffer => c <> []) (flushed lv').
Proof.
  unfold bookkeep_one. intros H Hne. repeat step_ok.
  match goal with Ha : cache_add _ _ _ = Ok _ _ |- _ =>
    apply cache_add_Ok in Ha as (cache & t & _ & Hcache) end.
  match goal with Hd : done_at _ _ = Ok ?b _ |- _ =>
    apply done_at_self in Hd; destruct b end; [|by step_ok].
  apply on_done_Ok in H as (counted & s1 & s2 & _ & Hcount & _).
  destruct counted; [|by destruct Hcount as [-> _]].
  apply count_episode_Ok in Hcount
    as (c & cache' & r & total & _ & Hc' & _ & _ & -> & _).
  cbn [flushed]. apply Forall_app. split; [done|].
  apply Forall_singleton.
  match goal with Hd : st_self _ = st_self _ |- _ => rewrite Hd in Hc' end.
  pose proof (eq_trans (eq_sym Hc') Hcache) as E. injection E as ->.
  by destruct cache.
Qed.

Lemma episodes_len_nonempty (eps : list ListReplayBuffer) :
  Forall (fun c => c <> []) eps ->
  (Z.of_nat (length eps) <= episodes_len eps)%Z.
Proof.
  unfold episodes_len. induction 1 as [|c eps Hc _ IH]; [done|].
  cbn [map length]. rewrite sum_Z_cons.
  destruct c; [done|]. cbn [length]. lia.
Qed.

End nonempty.

(** Every episode [collect] counts holds at least the transition at
    which it ended: a call that returns reports at least as many steps
    as episodes. *)
Theorem collect_counts_whole_episodes {W} (ext : Externals W) (cfg : Config)
    (fuel : nat) (s : State W) stats s' :
  collect ext cfg fuel s = Returned stats s' ->
  (n_ep stats <= n_st stats)%Z.
Proof.
  intros H. apply collect_Returned in H as (lv & s2 & _ & Hloop & Hstat).
  apply collect_loop_Returned in Hloop as (k & _ & Hit & _).
  destruct (iterate_counts ext cfg _ _ _ _ _ (env_num (st_self s))
              (buffer (st_self s)) Hit) as ([_ _ Hst Hep _] & _).
  { apply init_locals_ok. }
  { cbn. by rewrite buffer_after_nil. }
  apply statistics_Ok in Hstat as (_ & _ & _ & -> & -> & _).
  rewrite Hst, Hep. apply episodes_len_nonempty.
  eapply (iterate_lifts ext cfg
            (fun lv => Forall (fun c : ListReplayBuffer => c <> [])
                         (flushed lv))); [| |exact Hit|by constructor].
  - intros lv1 lv2 E. unfold counters in E. injection E as _ _ _ ->. done.
  - intros j i lv1 s1 lv2 s3. apply bookkeep_one_nonempty.
Qed.

Lemma collect_counts_whole_episodes_witness :
  exists stats s',
    collect (bench 2) scenario_102 10 (bench_start 2 3 false None)
    = Returned stats s' /\ (n_ep stats <= n_st stats)%Z.
Proof.
  assert (exists stats s',
    collect (bench 2) scenario_102 10 (bench_start 2 3 false None)
    = Returned stats s') as (stats & s' & Hrun).
  { vm_compute. eexists _, _. reflexivity. }
  exists stats, s'. split; [exact Hrun|].
  exact (collect_counts_whole_episodes _ _ _ _ _ _ Hrun).
Defined.

(** ** How far an episode target is overshot *)

Section overshoot.
Context {W : Type} (ext : Externals W) (cfg : Config).
Implicit Types s : State W.

Lemma on_done_sum j i lv s lv' s' :
  on_done cfg j i lv s = Ok lv' s' ->
  (sum_Z (episode_count lv') <= sum_Z (episode_count lv) + 1)%Z.
Proof.
  intros H. apply on_done_Ok in H as (counted & s1 & s2 & _ & Hcount & _).
  destruct counted; [|destruct Hcount as [-> _]; lia].
  apply count_episode_Ok in Hcount
    as (c & cache & r & total & Hc & _ & _ & _ & -> & _).
  cbn [episode_count]. rewrite (sum_Z_insert _ _ c) by done. lia.
Qed.

Lemma bookkeep_sum ids : forall j lv s lv' s',
  bookkeep cfg j ids lv s = Ok lv' s' ->
  (sum_Z (episode_count lv')
   <= sum_Z (episode_count lv) + Z.of_nat (length ids))%Z.
Proof.
  induction ids as [|i ids IH]; intros j lv s lv' s' H; cbn in H.
  - step_ok. cbn. lia.
  - step_ok. apply IH in H. cbn [length].
    match goal with Hb : bookkeep_one _ _ _ _ _ = Ok ?lv1 _ |- _ =>
      assert (sum_Z (episode_count lv1)
              <= sum_Z (episode_count lv) + 1)%Z as H1
    end; [|lia].
    match goal with Hb : bookkeep_one _ _ _ _ _ = Ok _ _ |- _ =>
      unfold bookkeep_one in Hb; repeat step_ok end.
    match goal with Hc : (if ?b then _ else _) _ = Ok _ _ |- _ =>
      destruct b end.
    + by eapply on_done_sum.
    + step_ok. lia.
Qed.

(** The phases of an iteration, one by one, keep the shape. *)
Lemma phases_sync lv last r act :
  stable sync_ready (@warn_check W lv) /\
  stable sync_ready (@take_subset W lv) /\
  stable sync_ready (@take_last_state W) /\
  stable sync_ready (choose_action ext cfg last) /\
  stable sync_ready (store_result ext r) /\
  stable sync_ready (step_env ext act lv) /\
  stable sync_ready (@render_step W cfg) /\
  stable sync_ready (preprocess_step ext).
Proof.
  split_and!;
    first
      [ apply step_env_sync
      | apply sync_of_keeps;
        unfold warn_check, take_subset, take_last_state, choose_action,
          store_result, render_step, render_envs, preprocess_step,
          update_field;
        shape_stable; apply sample_actions_shape ].
Qed.

Lemma sync_ready_Ok {A} (m : M (State W) A) s a s' :
  stable sync_ready m -> m s = Ok a s' -> sync_ready s s'.
Proof. intros H Hm. specialize (H s). by rewrite Hm in H. Qed.

(** In synchronous simulation an iteration counts at most one episode
    per environment. *)
Lemma iteration_sum lv s lv' s' :
  iteration ext cfg lv s = Ok lv' s' ->
  well_formed s -> is_async (st_self s) = false ->
  (sum_Z (episode_count lv')
   <= sum_Z (episode_count lv) + Z.of_nat (env_num (st_self s)))%Z.
Proof.
  intros H [_ Hready] Ha. specialize (Hready Ha).
  apply iteration_Ok in H
    as (s1 & lv1 & s2 & last & s3 & r & s4 & act & s5 & lv2 & s6 & s7 &
        s8 & lv3 & s9 & s10 &
        H1 & H2 & H3 & H4 & H5 & H6 & H7 & H8 & H9 & _ & H11).
  pose proof (take_subset_counters _ _ _ _ H2) as C2.
  pose proof (step_env_counters _ _ _ _ _ _ H6) as [C6 _].
  pose proof (scatter_back_counters _ _ _ _ H11) as C11.
  assert (sync_ready s s8) as [_ Hr8].
  { destruct (phases_sync lv last r act)
      as (P1 & P2 & P3 & P4 & P5 & _ & P7 & P8).
    destruct (phases_sync lv1 last r act) as (_ & _ & _ & _ & _ & P6 & _).
    eapply sync_ready_trans; [exact (sync_ready_Ok _ _ _ _ P1 H1)|].
    eapply sync_ready_trans; [exact (sync_ready_Ok _ _ _ _ P2 H2)|].
    eapply sync_ready_trans; [exact (sync_ready_Ok _ _ _ _ P3 H3)|].
    eapply sync_ready_trans; [exact (sync_ready_Ok _ _ _ _ P4 H4)|].
    eapply sync_ready_trans; [exact (sync_ready_Ok _ _ _ _ P5 H5)|].
    eapply sync_ready_trans; [exact (sync_ready_Ok _ _ _ _ P6 H6)|].
    eapply sync_ready_trans; [exact (sync_ready_Ok _ _ _ _ P7 H7)|].
    exact (sync_ready_Ok _ _ _ _ P8 H8). }
  specialize (Hr8 Ha).
  unfold bookkeeping in H9. repeat step_st.
  apply bookkeep_sum in H9. rewrite Hr8, Hready, length_seq in H9.
  unfold counters in *.
  assert (episode_count lv' = episode_count lv3) as -> by congruence.
  assert (episode_count lv2 = episode_count lv) as <- by congruence.
  exact H9.
Qed.

Lemma iterate_snoc k : forall lv s,
  iterate ext cfg (S k) lv s
  = (lv' <- iterate ext cfg k lv ;; iteration ext cfg lv') s.
Proof.
  induction k as [|k IH]; intros lv s.
  - cbn [iterate]. unfold bind, ret.
    destruct (iteration ext cfg lv s); reflexivity.
  - cbn [iterate]. unfold bind.
    destruct (iteration ext cfg lv s) as [lv1 s1|e s1]; [|reflexivity].
    specialize (IH lv1 s1). cbn [iterate] in IH. unfold bind in IH.
    exact IH.
Qed.

Lemma iterate_sync k : forall lv s lv' s',
  iterate ext cfg k lv s = Ok lv' s' -> sync_ready s s'.
Proof.
  induction k as [|k IH]; intros lv s lv' s' H; cbn in H.
  - step_ok. by split.
  - step_ok. eapply sync_ready_trans; [|by eapply IH].
    eapply sync_ready_Ok; [apply iteration_sync|done].
Qed.

End overshoot.

(** With an [int] [n] as [n_episode], a collector in synchronous
    simulation counts at most one episode per environment in an
    iteration and stops at the first iteration after which [n] are
    counted: a call that returns reports at least [n] and fewer than
    [n + env_num] episodes. *)
Theorem collect_episode_overshoot {W} (ext : Externals W) (cfg : Config)
    (n : Z) (fuel : nat) (s : State W) stats s' :
  step_truthy (n_step cfg) = false -> n_episode cfg = PyInt n ->
  (0 < n)%Z ->
  well_formed s -> is_async (st_self s) = false ->
  collect ext cfg fuel s = Returned stats s' ->
  (n <= n_ep stats < n + Z.of_nat (env_num (st_self s)))%Z.
Proof.
  intros Hs Hn Hpos Hwf Ha H.
  apply collect_Returned in H as (lv & s2 & _ & Hloop & Hstat).
  apply statistics_Ok in Hstat as (_ & _ & _ & -> & _).
  apply collect_loop_Returned in Hloop as (k & _ & Hit & Hdone & Hbefore).
  unfold loop_done in Hdone. rewrite Hs, Hn in Hdone.
  injection Hdone as Hdone. apply Z.leb_le in Hdone. split; [done|].
  rewrite iterate_snoc in Hit. step_ok.
  match goal with
  | Hk : iterate _ _ k _ _ = Ok ?lvk ?sk, Hi : iteration _ _ _ _ = Ok _ _
    |- _ =>
      pose proof (iterate_sync ext cfg _ _ _ _ _ Hk) as Hsync;
      assert (sum_Z (episode_count lvk) < n)%Z as Hlt;
      [|apply iteration_sum in Hi]
  end.
  - destruct k as [|k].
    + cbn in *. step_ok. cbn. rewrite sum_Z_repeat_0. lia.
    + destruct (Hbefore (S k)) as (lvm & sm & Hm & Hnot); [lia|].
      match goal with Hk : iterate _ _ (S k) _ _ = Ok _ _ |- _ =>
        rewrite Hk in Hm; injection Hm as <- <- end.
      unfold loop_done in Hnot. rewrite Hs, Hn in Hnot.
      injection Hnot as Hnot. by apply Z.leb_gt in Hnot.
  - destruct Hsync as [E _]. cbn in E. injection E as E _ _.
    rewrite <- E in *. lia.
  - eapply sync_ready_well_formed; [exact Hsync|exact Hwf].
  - destruct Hsync as [E _]. cbn in E. injection E as _ E _. congruence.
Qed.

Lemma collect_episode_overshoot_witness :
  exists stats s',
    collect (bench 2) (mkConfig None (PyInt 4) false None) 10
      (bench_start 2 3 false None) = Returned stats s' /\
    (4 <= n_ep stats < 7)%Z.
Proof.
  assert (exists stats s',
    collect (bench 2) (mkConfig None (PyInt 4) false None) 10
      (bench_start 2 3 false None) = Returned stats s')
    as (stats & s' & Hrun).
  { vm_compute. eexists _, _. reflexivity. }
  exists stats, s'. split; [exact Hrun|].
  assert (well_formed (bench_start 2 3 false None)) as Hwf.
  { split; [vm_compute; reflexivity|]. intros _. vm_compute. reflexivity. }
  assert (env_num (st_self (bench_start 2 3 false None)) = 3) as E
    by (vm_compute; reflexivity).
  pose proof (collect_episode_overshoot (bench 2)
                (mkConfig None (PyInt 4) false None) 4 10 _ stats s'
                eq_refl eq_refl eq_refl Hwf) as H.
  rewrite E in H. apply H; [|exact Hrun]. vm_compute. reflexivity.
Defined.

(** ** The mean return *)









(** ** Rendering *)

Lemma render_view_snoc {W} (s : State W) (h : heap) (w : W)
    (c : Collector) (e : event) :
  render_view (mkState h w c (st_trace s ++ [e]))
  = ((if is_render e then S (fst (render_view s)) else fst (render_view s)),
     snd (render_view s) ++ match sleep_of e with
                            | Some t => [t]
                            | None => []
                            end).
Proof.
  unfold render_view. cbn [st_trace fst snd].
  rewrite List.filter_app, length_app, omap_app. cbn.
  destruct (is_render e), (sleep_of e); cbn; f_equal; lia.
Qed.

Ltac render_tac :=
  intros; unfold keeps;
  first [ rewrite render_view_snoc; cbn [is_render sleep_of];
          rewrite ?app_nil_r; apply surjective_pairing
        | reflexivity ].

Ltac render_stable := repeat (stable_step; try solve [render_tac]).

Section rendering.
Context {W : Type} (ext : Externals W) (cfg : Config).
Implicit Types s : State W.

Lemma sample_actions_render ids :
  stable (keeps (@render_view W)) (sample_actions ext ids).
Proof. induction ids; cbn; render_stable. done. Qed.

Lemma bookkeep_render ids : forall j lv,
  stable (keeps (@render_view W)) (bookkeep cfg j ids lv).
Proof.
  induction ids as [|i ids IH]; intros j lv; cbn.
  - render_stable.
  - unfold bookkeep_one, cache_add, done_at, on_done, count_episode,
      cache_reset, _reset_state.
    render_stable; apply IH.
Qed.

(** Every phase of an iteration but [render_step] leaves the rendering
    alone. *)
Ltac render_phase :=
  unfold warn_check, take_subset, take_last_state, choose_action,
    store_result, step_env, preprocess_step, bookkeeping, auto_reset,
    preprocess_obs, scatter_back, statistics, update_field;
  render_stable;
  first [apply sample_actions_render | apply bookkeep_render].

Lemma warn_check_render lv : stable (keeps render_view) (@warn_check W lv).
Proof. render_phase. Qed.

Lemma take_subset_render lv : stable (keeps render_view) (@take_subset W lv).
Proof. render_phase. Qed.

Lemma take_last_state_render : stable (keeps render_view) (@take_last_state W).
Proof. render_phase. Qed.

Lemma choose_action_render last :
  stable (keeps render_view) (choose_action ext cfg last).
Proof. render_phase. Qed.

Lemma store_result_render r : stable (keeps render_view) (store_result ext r).
Proof. render_phase. Qed.

Lemma step_env_render act lv :
  stable (keeps render_view) (step_env ext act lv).
Proof. render_phase. Qed.

Lemma preprocess_step_render :
  stable (keeps render_view) (preprocess_step ext).
Proof. render_phase. Qed.

Lemma bookkeeping_render lv :
  stable (keeps render_view) (@bookkeeping W cfg lv).
Proof. render_phase. Qed.

Lemma auto_reset_render : stable (keeps render_view) (auto_reset ext).
Proof. render_phase. Qed.

Lemma scatter_back_render lv :
  stable (keeps render_view) (@scatter_back W lv).
Proof. render_phase. Qed.

Lemma statistics_render start lv :
  stable (keeps render_view) (statistics ext start lv).
Proof. render_phase. Qed.

Lemma render_step_falsy s :
  render_truthy (render cfg) = false -> render_step cfg s = Ok tt s.
Proof.
  unfold render_truthy, render_step. destruct (render cfg) as [t|]; [|done].
  destruct (Qeq_bool t 0); [done|discriminate].
Qed.

Lemma render_step_truthy t s :
  render cfg = Some t -> Qeq_bool t 0 = false ->
  exists s',
    render_step cfg s = Ok tt s' /\
    render_view s'
    = (S (fst (render_view s)), snd (render_view s) ++ [t]).
Proof.
  intros Hr Ht. unfold render_step, render_envs. rewrite Hr, Ht.
  eexists. split; [reflexivity|].
  unfold render_view. cbn [st_trace fst snd].
  rewrite !List.filter_app, !length_app, !omap_app. cbn. f_equal; [lia|].
  by rewrite app_nil_r.
Qed.

Lemma iteration_no_render lv :
  render_truthy (render cfg) = false ->
  stable (keeps render_view) (iteration ext cfg lv).
Proof.
  intros Hr. unfold iteration.
  split_binds;
    first
      [ apply warn_check_render | apply take_subset_render
      | apply take_last_state_render | apply choose_action_render
      | apply store_result_render | apply step_env_render
      | apply preprocess_step_render | apply bookkeeping_render
      | apply auto_reset_render | apply scatter_back_render
      | intros s; rewrite render_step_falsy by done; reflexivity ].
Qed.

Lemma collect_loop_no_render fuel : forall lv s,
  render_truthy (render cfg) = false ->
  render_view (outcome_state (collect_loop ext cfg fuel lv s))
  = render_view s.
Proof.
  induction fuel as [|fuel IH]; intros lv s Hr; cbn [collect_loop]; [done|].
  pose proof (iteration_no_render lv Hr s) as Hit. unfold keeps in Hit.
  destruct (iteration ext cfg lv s) as [lv1 s1|e s1]; [|done].
  cbn [final_state] in Hit.
  destruct (loop_done cfg lv1) as [[|]|e]; try done.
  rewrite IH by done. done.
Qed.

Lemma iteration_renders t lv s lv' s' :
  render cfg = Some t -> Qeq_bool t 0 = false ->
  iteration ext cfg lv s = Ok lv' s' ->
  render_view s' = (S (fst (render_view s)), snd (render_view s) ++ [t]).
Proof.
  intros Hr Ht H.
  apply iteration_Ok in H
    as (s1 & lv1 & s2 & last & s3 & r & s4 & act & s5 & lv2 & s6 & s7 &
        s8 & lv3 & s9 & s10 &
        H1 & H2 & H3 & H4 & H5 & H6 & H7 & H8 & H9 & H10 & H11).
  apply (stable_Ok _ _ _ _ _ (warn_check_render lv)) in H1.
  apply (stable_Ok _ _ _ _ _ (take_subset_render lv)) in H2.
  apply (stable_Ok _ _ _ _ _ take_last_state_render) in H3.
  apply (stable_Ok _ _ _ _ _ (choose_action_render last)) in H4.
  apply (stable_Ok _ _ _ _ _ (store_result_render r)) in H5.
  apply (stable_Ok _ _ _ _ _ (step_env_render act lv1)) in H6.
  apply (stable_Ok _ _ _ _ _ preprocess_step_render) in H8.
  apply (stable_Ok _ _ _ _ _ (bookkeeping_render lv2)) in H9.
  apply (stable_Ok _ _ _ _ _ auto_reset_render) in H10.
  apply (stable_Ok _ _ _ _ _ (scatter_back_render lv3)) in H11.
  destruct (render_step_truthy t s6 Hr Ht) as (s7' & H7' & Hv).
  rewrite H7 in H7'. injection H7' as <-.
  rewrite <- H11, <- H10, <- H9, <- H8, Hv.
  by rewrite <- H6, <- H5, <- H4, <- H3, <- H2, <- H1.
Qed.

Lemma iterate_renders t k : forall lv s lv' s',
  render cfg = Some t -> Qeq_bool t 0 = false ->
  iterate ext cfg k lv s = Ok lv' s' ->
  render_view s'
  = (k + fst (render_view s), snd (render_view s) ++ repeat t k).
Proof.
  induction k as [|k IH]; intros lv s lv' s' Hr Ht H; cbn in H.
  - step_ok. cbn. rewrite app_nil_r. apply surjective_pairing.
  - step_ok. rewrite (IH _ _ _ _ Hr Ht H).
    match goal with Hi : iteration _ _ _ _ = Ok _ _ |- _ =>
      rewrite (iteration_renders t _ _ _ _ Hr Ht Hi) end.
    cbn [fst snd repeat]. f_equal; [lia|]. by rewrite <- app_assoc.
Qed.

End rendering.

(** [collect] renders as its argument [render] says.  When it is [None]
    or zero, no environment is rendered and the collector never sleeps,
    however the call ends.  Otherwise every iteration renders the
    environments once and then sleeps for [render] seconds. *)
Theorem collect_renders {W} (ext : Externals W) (cfg : Config) :
  (render_truthy (render cfg) = false ->
   forall fuel (s : State W),
     render_view (outcome_state (collect ext cfg fuel s)) = render_view s) /\
  (forall t, render cfg = Some t -> Qeq_bool t 0 = false ->
   forall k lv (s : State W) lv' s',
     iterate ext cfg k lv s = Ok lv' s' ->
     render_view s'
     = (k + fst (render_view s), snd (render_view s) ++ repeat t k)).
Proof.
  split.
  - intros Hr fuel s.
    pose proof (collect_loop_no_render ext cfg fuel (init_locals (st_self s))
                  (final_state (call (time_time ext) s)) Hr) as Hloop.
    destruct (collect_outcome_state ext cfg fuel s)
      as [->|[[-> _]|(lv & s2 & Hl & ->)]]; [done|exact Hloop|].
    rewrite Hl in Hloop. cbn [outcome_state] in Hloop.
    etrans; [|exact Hloop]. symmetry. apply (statistics_render ext).
  - intros t Hr Ht k lv s lv' s'. by apply iterate_renders.
Qed.

Lemma collect_renders_witness :
  render_view
    (outcome_state
       (collect (bench 2) (mkConfig None (PyInt 1) false (Some 0%Q)) 5
          (bench_start 2 3 false None)))
  = render_view (bench_start 2 3 false None) /\
  exists lv' s',
    iterate (bench 2) (mkConfig None (PyInt 1) false (Some (1 # 2)%Q)) 2
      (init_locals (st_self (bench_start 2 3 false None)))
      (bench_start 2 3 false None) = Ok lv' s' /\
    render_view s' = (2, [(1 # 2)%Q; (1 # 2)%Q]).
Proof.
  split.
  - apply (proj1 (collect_renders (bench 2)
                    (mkConfig None (PyInt 1) false (Some 0%Q)))).
    reflexivity.
  - assert (exists lv' s',
      iterate (bench 2) (mkConfig None (PyInt 1) false (Some (1 # 2)%Q)) 2
        (init_locals (st_self (bench_start 2 3 false None)))
        (bench_start 2 3 false None) = Ok lv' s') as (lv' & s' & Hrun).
    { vm_compute. eexists _, _. reflexivity. }
    exists lv', s'. split; [exact Hrun|].
    rewrite (proj2 (collect_renders (bench 2)
                      (mkConfig None (PyInt 1) false (Some (1 # 2)%Q)))
               (1 # 2)%Q eq_refl eq_refl _ _ _ _ _ Hrun).
    vm_compute. reflexivity.
Defined.

(** ** Gathering a working record *)

Lemma fields_live_tail (h : heap) k v (b : Batch) :
  k ∉ b.*1 -> fields_live h ((k, v) :: b) -> fields_live h b.
Proof.
  intros Hk Hlive k' l Hb. apply (Hlive k').
  rewrite bget_cons_ne; [done|]. intros <-.
  by rewrite bget_not_key in Hb.
Qed.

Lemma fields_live_mono (h h' : heap) (b : Batch) :
  dom h ⊆ dom h' -> fields_live h b -> fields_live h' b.
Proof. intros Hsub Hlive k l Hb. apply Hsub. by eapply Hlive. Qed.

(** What [b[ids]] builds: a record with the keys of [b], whose arrays
    are new objects holding the selected rows; the objects there were
    are left as they are. *)
Lemma batch_select_spec (ids : list nat) (b : Batch) :
  forall (h : heap) sub h',
    NoDup (b.*1) -> fields_live h b ->
    batch_select b ids h = Ok sub h' ->
    sub.*1 = b.*1 /\
    dom h ⊆ dom h' /\
    (forall l, l ∈ dom h -> h' !! l = h !! l) /\
    (forall k l', bget k sub = Some (Arr l') ->
       (l' ∉ dom h) /\ l' ∈ dom h' /\
       exists l a rs,
         bget k b = Some (Arr l) /\ h !! l = Some a /\
         take_rows (rows a) ids = Success rs /\
         h' !! l' = Some (mkArray (kind a) rs)).
Proof.
  induction b as [|[k [|l]] b IH]; intros h sub h' Hnd Hlive H; cbn in H.
  - step_ok. split_and!; try done.
  - rewrite fmap_cons in Hnd. apply NoDup_cons in Hnd as [Hk Hnd].
    repeat step_ok.
    match goal with Hb : batch_select _ _ _ = Ok _ _ |- _ =>
      destruct (IH _ _ _ Hnd (fields_live_tail _ _ _ _ Hk Hlive) Hb)
        as (Hkeys & Hdom & Hsame & Hnew)
    end.
    split_and!; try done.
    + cbn. by rewrite Hkeys.
    + intros k' l' Hk'. destruct (decide (k = k')) as [<-|Hne].
      * by rewrite bget_cons_eq in Hk'.
      * rewrite bget_cons_ne in Hk' by done.
        destruct (Hnew _ _ Hk') as (? & ? & l0 & a & rs & ? & ?).
        split_and!; try done. exists l0, a, rs.
        by rewrite bget_cons_ne.
  - rewrite fmap_cons in Hnd. apply NoDup_cons in Hnd as [Hk Hnd].
    repeat step_ok.
    repeat match goal with
           | Hl : load _ _ = Ok _ _ |- _ => apply load_Ok in Hl as [Hl ->]
           | Hl : alloc _ _ = Ok _ _ |- _ => apply alloc_Ok in Hl as [-> ->]
           end.
    match goal with Hb : batch_select _ _ (<[?lf := ?a1]> h) = Ok _ _ |- _ =>
      assert (dom h ⊆ dom (<[lf := a1]> h)) as Hsub
        by apply dom_insert_subseteq;
      destruct (IH _ _ _ Hnd
                  (fields_live_mono _ _ _ Hsub
                     (fields_live_tail _ _ _ _ Hk Hlive)) Hb)
        as (Hkeys & Hdom & Hsame & Hnew)
    end.
    assert (forall l0, l0 ∈ dom h -> fresh (dom h) <> l0) as Hfresh
      by (intros l0; apply fresh_not_live).
    split_and!.
    + cbn. by rewrite Hkeys.
    + by etrans.
    + intros l0 Hl0. rewrite Hsame by (by apply Hsub).
      apply lookup_insert_ne. by apply Hfresh.
    + intros k' l' Hk'. destruct (decide (k = k')) as [<-|Hne].
      * rewrite bget_cons_eq in Hk'. injection Hk' as <-.
        split_and!.
        -- apply is_fresh.
        -- apply Hdom, elem_of_dom. rewrite lookup_insert_eq. by eexists.
        -- eexists _, _, _. rewrite bget_cons_eq.
           split_and!; [done|done|done|].
           rewrite Hsame; [apply lookup_insert_eq|].
           apply elem_of_dom. rewrite lookup_insert_eq. by eexists.
      * rewrite bget_cons_ne in Hk' by done.
        destruct (Hnew _ _ Hk') as (Hl1 & Hl2 & l0 & a & rs & Hb0 & Ha & Hr & Hv).
        split_and!; [by intros Hin; apply Hl1, Hsub|done|].
        exists l0, a, rs. rewrite bget_cons_ne by done.
        split_and!; try done.
        rewrite lookup_insert_ne in Ha; [done|].
        apply Hfresh. apply (fields_live_tail _ _ _ _ Hk Hlive k' l0 Hb0).
Qed.

Lemma batch_select_ready (ids : list nat) (b : Batch) (h : heap) sub h' :
  NoDup (b.*1) -> fields_live h b -> fields_distinct b ->
  batch_select b ids h = Ok sub h' ->
  scatter_ready h' b sub.
Proof.
  intros Hnd Hlive Hdist H.
  destruct (batch_select_spec ids b h sub h' Hnd Hlive H)
    as (Hkeys & Hdom & Hsame & Hnew).
  unfold scatter_ready. split_and!.
  - by rewrite Hkeys.
  - by eapply fields_live_mono.
  - intros k l' Hk. by destruct (Hnew _ _ Hk) as (_ & ? & _).
  - done.
  - intros k1 k2 l H1 H2. destruct (Hnew _ _ H2) as (Hout & _).
    apply Hout. by eapply Hlive.
Qed.

(** Every field of [b] that holds values is gathered. *)
Lemma batch_select_field (ids : list nat) (b : Batch) k l :
  forall (h : heap) sub h',
    bget k b = Some (Arr l) ->
    batch_select b ids h = Ok sub h' ->
    exists l', bget k sub = Some (Arr l').
Proof.
  induction b as [|[k0 v0] b IH]; intros h sub h' Hk H; [done|].
  destruct (decide (k0 = k)) as [->|Hne].
  - rewrite bget_cons_eq in Hk. injection Hk as ->.
    cbn in H. repeat step_ok. eexists. apply bget_cons_eq.
  - rewrite bget_cons_ne in Hk by done. destruct v0; cbn in H;
      repeat step_ok;
      match goal with Hb : batch_select _ _ _ = Ok _ _ |- _ =>
        destruct (IH _ _ _ Hk Hb) as [l' Hl'] end;
      exists l'; by rewrite bget_cons_ne.
Qed.

(** A working record gathered from a full-width record with [b[ids]]
    can be scattered back into it: the two records share no array, the
    gathered fields hold the selected rows of the fields they come
    from, and nothing that was there has changed. *)
Theorem gather_ready (ids : list nat) (b : Batch) (h : heap) sub h' :
  NoDup (b.*1) -> fields_live h b -> fields_distinct b ->
  batch_select b ids h = Ok sub h' ->
  scatter_ready h' b sub /\
  sub.*1 = b.*1 /\
  (forall l, l ∈ dom h -> h' !! l = h !! l) /\
  (forall k l a,
     bget k b = Some (Arr l) -> h !! l = Some a ->
     exists l' rs,
       bget k sub = Some (Arr l') /\
       take_rows (rows a) ids = Success rs /\
       h' !! l' = Some (mkArray (kind a) rs)).
Proof.
  intros Hnd Hlive Hdist H.
  destruct (batch_select_spec ids b h sub h' Hnd Hlive H)
    as (Hkeys & Hdom & Hsame & Hnew).
  split_and!; try done.
  - by eapply batch_select_ready.
  - intros k l a Hk Ha.
    destruct (batch_select_field ids b k l h sub h' Hk H) as [l' Hl'].
    destruct (Hnew _ _ Hl') as (_ & _ & l0 & a0 & rs & Hb0 & Ha0 & Hr & Hv).
    assert (l0 = l) as -> by congruence.
    assert (a0 = a) as -> by congruence.
    by exists l', rs.
Qed.

Lemma gather_ready_witness :
  exists sub h',
    batch_select scatter_whole [0; 2] scatter_heap = Ok sub h' /\
    scatter_ready h' scatter_whole sub /\
    h' !! 0 = scatter_heap !! 0 /\
    exists l',
      bget "obs" sub = Some (Arr l') /\
      h' !! l' = Some (mkArray Ndarray [CInt 10; CInt 12]%Z).
Proof.
  assert (exists sub h',
    batch_select scatter_whole [0; 2] scatter_heap = Ok sub h')
    as (sub & h' & Hrun).
  { vm_compute. eexists _, _. reflexivity. }
  exists sub, h'. split; [exact Hrun|].
  assert (scatter_ready scatter_heap scatter_whole scatter_part)
    as (_ & Hlive & _ & Hdist & _).
  { apply scatter_readyb_sound. vm_compute. reflexivity. }
  destruct (gather_ready [0; 2] scatter_whole scatter_heap sub h')
    as (Hready & _ & Hsame & Hrows); [compute_done|done|done|done|].
  split; [exact Hready|]. split.
  - apply Hsame. apply elem_of_dom. vm_compute. by eexists.
  - destruct (Hrows "obs"%string 0
                (mkArray Ndarray [CInt 10; CInt 11; CInt 12]%Z)
                eq_refl eq_refl) as (l' & rs & Hl' & Hrs & Hv).
    exists l'. split; [exact Hl'|]. vm_compute in Hrs.
    injection Hrs as <-. exact Hv.
Defined.

Lemma write_rows_same (ids : list nat) : forall (a rs : list cell),
  take_rows a ids = Success rs -> write_rows a ids rs = a.
Proof.
  induction ids as [|i ids IH]; intros a rs H; cbn in H.
  - by injection H as <-.
  - destruct (a !! i) as [c|] eqn:Hc; [|done].
    destruct (take_rows a ids) as [r|] eqn:Hr; [|done].
    injection H as <-. cbn. rewrite list_insert_id by done. by apply IH.
Qed.

Lemma take_rows_length {A} (ids : list nat) : forall (a rs : list A),
  take_rows a ids = Success rs ->
  length rs = length ids /\ Forall (fun i => i < length a) ids.
Proof.
  induction ids as [|i ids IH]; intros a rs H; cbn in H.
  - injection H as <-. by split.
  - destruct (a !! i) as [c|] eqn:Hc; [|done].
    destruct (take_rows a ids) as [r|] eqn:Hr; [|done].
    injection H as <-. destruct (IH _ _ Hr) as [Hl Hin]. split.
    + cbn. by rewrite Hl.
    + constructor; [by eapply lookup_lt_Some|done].
Qed.

Lemma same_type_refl (c : cell) : same_type c c = true.
Proof. destruct c; cbn; try done. by apply bool_decide_eq_true. Qed.

Lemma np_astype_refl (k : akind) (c : cell) : np_astype k k c c = Success c.
Proof. destruct k; cbn; by rewrite ?same_type_refl. Qed.

(** The rows of an array need no conversion to be written back. *)
Lemma astype_rows_own (k : akind) (a : list cell) (ids : list nat) :
  forall rs, take_rows a ids = Success rs ->
             astype_rows k k a ids rs = Success rs.
Proof.
  induction ids as [|i ids IH]; intros rs H; cbn in H.
  - by injection H as <-.
  - destruct (a !! i) as [c|] eqn:Hc; [|done].
    destruct (take_rows a ids) as [r|] eqn:Hr; [|done].
    injection H as <-. cbn. rewrite Hc, np_astype_refl.
    by rewrite (IH r eq_refl).
Qed.

(** Writing back the rows that were read changes nothing. *)
Lemma set_take_rows (a : array) ids rs :
  take_rows (rows a) ids = Success rs ->
  set_rows a ids (mkArray (kind a) rs) = Success (rows a).
Proof.
  intros H. destruct (take_rows_length _ _ _ H) as [Hl Hin].
  unfold set_rows, broadcast_rows. cbn [rows kind].
  rewrite decide_True by done. rewrite decide_True by done.
  rewrite (astype_rows_own _ _ _ _ H).
  by rewrite (write_rows_same _ _ _ H).
Qed.

Lemma locs_field (b : Batch) l :
  NoDup (b.*1) -> l ∈ locs b -> exists k, bget k b = Some (Arr l).
Proof.
  induction b as [|[k v] b IH]; intros Hnd Hl; [by inversion Hl|].
  rewrite fmap_cons in Hnd. apply NoDup_cons in Hnd as [Hk Hnd].
  unfold locs in Hl. apply list_elem_of_omap in Hl as ([k0 v0] & Hin & Hv).
  apply elem_of_cons in Hin as [[= -> ->]|Hin].
  - exists k. rewrite bget_cons_eq. cbn in Hv. by destruct v; simplify_eq.
  - destruct (IH Hnd) as [k1 Hk1].
    { apply list_elem_of_omap. by exists (k0, v0). }
    exists k1. rewrite bget_cons_ne; [done|]. intros ->.
    apply bget_elem_of in Hk1. apply Hk. cbn.
    apply list_elem_of_fmap. by exists (k1, Arr l).
Qed.

(** Gathering a working record and scattering it back, untouched,
    leaves the full-width record as it was: it keeps its bindings, and
    every array there was before the gathering holds what it held. *)
Theorem gather_then_scatter (ids : list nat) (size : nat) (b : Batch)
    (h : heap) sub h1 b' h2 :
  NoDup (b.*1) -> fields_live h b -> fields_distinct b ->
  batch_select b ids h = Ok sub h1 ->
  _batch_set_item b ids sub size h1 = Ok b' h2 ->
  (forall k l, bget k b = Some (Arr l) -> bget k b' = Some (Arr l)) /\
  (forall l, l ∈ dom h -> h2 !! l = h !! l).
Proof.
  intros Hnd Hlive Hdist Hsel Hset.
  pose proof (batch_select_ready _ _ _ _ _ Hnd Hlive Hdist Hsel) as Hready.
  destruct (batch_select_spec ids b h sub h1 Hnd Hlive Hsel)
    as (Hkeys & Hdom & Hsame & Hnew).
  unfold _batch_set_item in Hset.
  pose proof (batch_set_item_loop_frame _ _ _ _ _ _ _ Hset)
    as (_ & Hframe & Hkeep & _).
  split; [exact Hkeep|].
  intros l Hl. destruct (decide (l ∈ locs b)) as [Hin|Hout].
  - destruct (locs_field b l Hnd Hin) as [k Hk].
    destruct (batch_select_field ids b k l h sub h1 Hk Hsel) as [l' Hl'].
    destruct (batch_set_item_loop_written _ _ _ _ _ _ _ _ _ Hready Hset Hl')
      as (v & ls & base & r & Hv & Hls & Hbase & Hr & Hw).
    destruct (Hnew _ _ Hl') as (_ & _ & l0 & a & rs & Hb0 & Ha & Hrs & Hv').
    assert (l0 = l) as -> by congruence.
    assert (v = mkArray (kind a) rs) as -> by congruence.
    unfold scatter_base, bget_default in Hbase. rewrite Hk in Hbase.
    destruct Hbase as [-> Hbase]. rewrite Hsame in Hbase by done.
    assert (base = a) as -> by congruence.
    rewrite (set_take_rows _ _ _ Hrs) in Hr.
    injection Hr as <-. rewrite Hw, Ha. by destruct a.
  - rewrite Hframe; [by apply Hsame|by apply Hdom|].
    intros k Hk. apply Hout. by eapply bget_locs.
Qed.

Lemma gather_then_scatter_witness :
  exists sub h1 b' h2,
    batch_select scatter_whole [0; 2] scatter_heap = Ok sub h1 /\
    _batch_set_item scatter_whole [0; 2] sub 3 h1 = Ok b' h2 /\
    h2 !! 0 = scatter_heap !! 0 /\ h2 !! 1 = scatter_heap !! 1.
Proof.
  assert (exists sub h1 b' h2,
    batch_select scatter_whole [0; 2] scatter_heap = Ok sub h1 /\
    _batch_set_item scatter_whole [0; 2] sub 3 h1 = Ok b' h2)
    as (sub & h1 & b' & h2 & Hsel & Hset).
  { vm_compute. eexists _, _, _, _. split; reflexivity. }
  exists sub, h1, b', h2. split; [exact Hsel|]. split; [exact Hset|].
  assert (scatter_ready scatter_heap scatter_whole scatter_part)
    as (_ & Hlive & _ & Hdist & _).
  { apply scatter_readyb_sound. vm_compute. reflexivity. }
  destruct (gather_then_scatter [0; 2] 3 scatter_whole scatter_heap
              sub h1 b' h2) as [_ Hsame];
    [compute_done|done|done|done|done|].
  split; apply Hsame; apply elem_of_dom; vm_compute; by eexists.
Defined.

(** ** Only whole episodes are counted *)

Ltac caches_tac := intros; unfold keeps, caches_view; cbn; reflexivity.

Ltac caches_stable := repeat (stable_step; try solve [caches_tac]).

Section whole.
Context {W : Type} (ext : Externals W) (cfg : Config).
Implicit Types s : State W.

Lemma whole_episode_snoc (e : ListReplayBuffer) t :
  in_progress e = true -> row_done t = Some true ->
  whole_episode (e ++ [t]) = true.
Proof.
  intros He Ht. induction e as [|t0 e IH]; cbn.
  - by apply bool_decide_eq_true.
  - cbn in He. apply andb_true_iff in He as [H0 He].
    specialize (IH He). destruct (e ++ [t]) eqn:E.
    + by destruct e.
    + by rewrite H0.
Qed.

Lemma in_progress_snoc (e : ListReplayBuffer) t :
  in_progress e = true -> row_done t = Some false ->
  in_progress (e ++ [t]) = true.
Proof.
  intros He Ht. unfold in_progress in *. rewrite forallb_app, He. cbn.
  rewrite andb_true_r. by apply bool_decide_eq_true.
Qed.

(** The row added to the cache is terminal exactly when [done[j]] is
    read as true. *)
Lemma cache_add_done j i s u s1 b s2 :
  cache_add j i s = Ok u s1 -> done_at j s1 = Ok b s2 ->
  exists cache t,
    _cached_buf (st_self s) !! i = Some cache /\
    caches_view s2 = <[i := cache ++ [t]]> (caches_view s) /\
    row_done t = Some b.
Proof.
  unfold cache_add, done_at. intros Ha Hd. repeat step_st.
  match goal with Hx : list_index (_cached_buf _) _ = Success ?c |- _ =>
    apply list_index_Success in Hx; exists c end.
  match goal with Hr : batch_row _ _ _ = Ok ?t _ |- _ =>
    apply batch_row_field in Hr as [-> Hfields]; exists t end.
  cbn [st_self st_heap data set_cached] in Hd.
  destruct (bget_default "done" _) as [|l] eqn:Hg; [done|].
  repeat step_st.
  match goal with Hx : list_index (rows _) _ = Success _ |- _ =>
    apply list_index_Success in Hx end.
  split_and!; [done|done|].
  unfold bget_default in Hg.
  destruct (bget "done" _) as [[|l']|] eqn:Hb; try done.
  injection Hg as ->.
  match goal with Hr : forall k l, bget k _ = _ -> _ |- _ =>
    destruct (Hr _ _ Hb) as (a & Hl & Hrow & _) end.
  cbn [st_heap] in *. unfold row_done. rewrite Hrow.
  match goal with Hx : st_heap s !! l = Some ?a' |- _ =>
    assert (a' = a) as -> by congruence end.
  match goal with Hx : rows a !! j = Some _ |- _ => rewrite Hx end.
  match goal with Hx : cell_truthy _ = Success _ |- _ => by rewrite Hx end.
Qed.

Lemma _reset_state_caches j : stable (keeps (@caches_view W)) (_reset_state j).
Proof. unfold _reset_state. caches_stable. Qed.

Lemma count_episode_caches i lv s lv' s' :
  count_episode i lv s = Ok lv' s' ->
  caches_view s' = caches_view s /\
  exists cache,
    caches_view s !! i = Some cache /\ flushed lv' = flushed lv ++ [cache].
Proof.
  intros H. apply count_episode_Ok in H
    as (c & cache & r & total & _ & Hc & _ & _ & -> & ->).
  split; [|by exists cache].
  unfold caches_view, flush_into_buffer. cbn.
  by destruct (buffer (st_self s)).
Qed.

Lemma bookkeep_one_whole j i lv s lv' s' :
  bookkeep_one cfg j i lv s = Ok lv' s' ->
  whole_so_far lv s -> whole_so_far lv' s'.
Proof.
  unfold bookkeep_one. intros H [Hw Hp].
  apply bind_Ok in H as (u & s1 & Ha & H).
  apply bind_Ok in H as (b & s2 & Hd & H).
  destruct (cache_add_done _ _ _ _ _ _ _ Ha Hd)
    as (cache & t & Hcache & Hview & Hdone).
  assert (in_progress cache = true) as Hc.
  { eapply (Forall_lookup_1 _ _ _ _ Hp). exact Hcache. }
  assert (i < length (caches_view s)) as Hlt.
  { by eapply lookup_lt_Some. }
  destruct b.
  - apply on_done_Ok in H as (counted & s3 & s4 & _ & Hcount & Hres & Hrs).
    apply (stable_Ok _ _ _ _ _ (_reset_state_caches j)) in Hrs.
    apply cache_reset_Ok in Hres as [_ ->].
    assert (caches_view s3 = caches_view s2 /\
            Forall (fun e => whole_episode e = true) (flushed lv'))
      as [Hs3 Hw'].
    { destruct counted.
      - apply count_episode_caches in Hcount as (Hsame & e & He & ->).
        split; [done|]. apply Forall_app. split; [done|].
        apply Forall_singleton.
        rewrite Hview, list_lookup_insert_eq in He by done.
        injection He as <-. by apply whole_episode_snoc.
      - by destruct Hcount as [-> ->]. }
    split; [done|]. rewrite <- Hrs. unfold caches_view at 1.
    cbn [st_self set_cached _cached_buf].
    change (_cached_buf (st_self s3)) with (caches_view s3).
    rewrite Hs3, Hview, list_insert_insert_eq.
    by apply Forall_insert.
  - apply ret_Ok in H as [-> ->]. split; [done|]. rewrite Hview.
    apply Forall_insert; [done|]. by apply in_progress_snoc.
Qed.

Lemma bookkeep_whole ids : forall j lv s lv' s',
  bookkeep cfg j ids lv s = Ok lv' s' ->
  whole_so_far lv s -> whole_so_far lv' s'.
Proof.
  induction ids as [|i ids IH]; intros j lv s lv' s' H Hw; cbn in H.
  - by apply ret_Ok in H as [-> ->].
  - apply bind_Ok in H as (lv1 & s1 & H1 & H).
    eapply IH; [exact H|]. by eapply bookkeep_one_whole.
Qed.

Lemma keeps_caches {A} (m : M (State W) A) s a s' :
  stable (keeps caches_view) m -> m s = Ok a s' ->
  caches_view s' = caches_view s.
Proof. intros Hm H. symmetry. by eapply (stable_Ok caches_view). Qed.

Lemma sample_actions_caches ids :
  stable (keeps (@caches_view W)) (sample_actions ext ids).
Proof. induction ids; cbn; caches_stable. done. Qed.

(** Every phase of an iteration but the bookkeeping leaves the episode
    caches alone. *)
Ltac caches_phase :=
  unfold warn_check, take_subset, take_last_state, choose_action,
    store_result, step_env, render_step, render_envs, preprocess_step,
    auto_reset, preprocess_obs, scatter_back, statistics, update_field;
  caches_stable;
  try apply sample_actions_caches.

Lemma iteration_whole lv s lv' s' :
  iteration ext cfg lv s = Ok lv' s' ->
  whole_so_far lv s -> whole_so_far lv' s'.
Proof.
  intros H [Hw Hp].
  apply iteration_Ok in H
    as (s1 & lv1 & s2 & last & s3 & r & s4 & act & s5 & lv2 & s6 & s7 &
        s8 & lv3 & s9 & s10 &
        H1 & H2 & H3 & H4 & H5 & H6 & H7 & H8 & H9 & H10 & H11).
  pose proof (take_subset_counters _ _ _ _ H2) as C2.
  pose proof (step_env_counters _ _ _ _ _ _ H6) as [C6 _].
  pose proof (scatter_back_counters _ _ _ _ H11) as C11.
  apply keeps_caches in H1; [|caches_phase].
  apply keeps_caches in H2; [|caches_phase].
  apply keeps_caches in H3; [|caches_phase].
  apply keeps_caches in H4; [|caches_phase].
  apply keeps_caches in H5; [|caches_phase].
  apply keeps_caches in H6; [|caches_phase].
  apply keeps_caches in H7; [|caches_phase].
  apply keeps_caches in H8; [|caches_phase].
  apply keeps_caches in H10; [|caches_phase].
  apply keeps_caches in H11; [|caches_phase].
  unfold bookkeeping in H9. apply bind_Ok in H9 as (self & s8' & Hs & H9).
  apply get_self_Ok in Hs as [-> ->].
  assert (whole_so_far lv2 s8) as Hw8.
  { split.
    - unfold counters in C2, C6. injection C2 as _ _ _ E2.
      injection C6 as _ _ _ E6. by rewrite E6, E2.
    - by rewrite H8, H7, H6, H5, H4, H3, H2, H1. }
  destruct (bookkeep_whole _ _ _ _ _ _ H9 Hw8) as [Hw9 Hp9].
  split.
  - unfold counters in C11. injection C11 as _ _ _ E11. by rewrite E11.
  - by rewrite H11, H10.
Qed.

Lemma iterate_whole k : forall lv s lv' s',
  iterate ext cfg k lv s = Ok lv' s' ->
  whole_so_far lv s -> whole_so_far lv' s'.
Proof.
  induction k as [|k IH]; intros lv s lv' s' H Hw; cbn in H.
  - by apply ret_Ok in H as [-> ->].
  - apply bind_Ok in H as (lv1 & s1 & H1 & H).
    eapply IH; [exact H|]. by eapply iteration_whole.
Qed.

Lemma statistics_caches start lv :
  stable (keeps caches_view) (statistics ext start lv).
Proof. caches_phase. Qed.

Lemma episodes_len_concat (eps : list ListReplayBuffer) :
  episodes_len eps = Z.of_nat (length (concat eps)).
Proof.
  unfold episodes_len. induction eps as [|e eps IH]; [done|].
  cbn [map concat]. rewrite sum_Z_cons, length_app, IH. lia.
Qed.

Lemma episodes_len_insert (l : list ListReplayBuffer) i e e' :
  l !! i = Some e ->
  episodes_len (<[i := e']> l)
  = (episodes_len l - Z.of_nat (length e) + Z.of_nat (length e'))%Z.
Proof.
  unfold episodes_len. revert i.
  induction l as [|x l IH]; intros [|i] H; try done.
  - cbn in H. injection H as ->.
    change (<[0:=e']> (e :: l)) with (e' :: l). cbn [map].
    rewrite !sum_Z_cons. lia.
  - cbn in H. specialize (IH _ H).
    change (<[S i:=e']> (x :: l)) with (x :: <[i:=e']> l). cbn [map].
    rewrite !sum_Z_cons. lia.
Qed.

(** When every finished episode is counted, the bookkeeping of one
    position accounts for exactly one more transition: it is counted
    or it waits in a cache. *)
Lemma bookkeep_one_pending j i lv s lv' s' :
  (forall i lv, is_counted cfg i lv = Success true) ->
  bookkeep_one cfg j i lv s = Ok lv' s' ->
  (step_count lv' + pending s' = step_count lv + pending s + 1)%Z.
Proof.
  unfold bookkeep_one. intros Hall H.
  apply bind_Ok in H as (u & s1 & Ha & H).
  apply bind_Ok in H as (b & s2 & Hd & H).
  destruct (cache_add_done _ _ _ _ _ _ _ Ha Hd)
    as (cache & t & Hcache & Hview & _).
  assert (i < length (caches_view s)) as Hlt by (by eapply lookup_lt_Some).
  assert (pending s2 = pending s + 1)%Z as H2.
  { unfold pending. rewrite Hview, (episodes_len_insert _ _ cache) by done.
    rewrite length_app. cbn [length]. lia. }
  destruct b.
  - apply on_done_Ok in H as (counted & s3 & s4 & Hc & Hcount & Hres & Hrs).
    rewrite Hall in Hc. injection Hc as <-.
    apply (keeps_caches _ _ _ _ (_reset_state_caches j)) in Hrs.
    apply cache_reset_Ok in Hres as [_ ->].
    apply count_episode_Ok in Hcount
      as (c & e & r & total & _ & He & _ & _ & -> & ->).
    change (_cached_buf (st_self s2)) with (caches_view s2) in He.
    unfold pending. rewrite Hrs. unfold caches_view at 1.
    unfold flush_into_buffer.
    assert (forall c0 : Collector,
              _cached_buf match buffer c0 with
                          | None => c0
                          | Some b => set_buffer (Some (b ++ e)) c0
                          end = _cached_buf c0) as Hf.
    { intros c0. by destruct (buffer c0). }
    cbn [st_self set_cached _cached_buf]. rewrite Hf.
    change (_cached_buf (st_self s2)) with (caches_view s2).
    rewrite (episodes_len_insert _ _ e) by done.
    unfold pending in H2. cbn [step_count length]. lia.
  - apply ret_Ok in H as [-> ->]. lia.
Qed.

Lemma bookkeep_pending ids : forall j lv s lv' s',
  (forall i lv, is_counted cfg i lv = Success true) ->
  bookkeep cfg j ids lv s = Ok lv' s' ->
  (step_count lv' + pending s'
   = step_count lv + pending s + Z.of_nat (length ids))%Z.
Proof.
  induction ids as [|i ids IH]; intros j lv s lv' s' Hall H; cbn in H.
  - apply ret_Ok in H as [-> ->]. cbn. lia.
  - apply bind_Ok in H as (lv1 & s1 & H1 & H).
    apply IH in H; [|done]. apply bookkeep_one_pending in H1; [|done].
    cbn [length]. lia.
Qed.

Lemma iteration_pending lv s lv' s' :
  (forall i lv, is_counted cfg i lv = Success true) ->
  well_formed s -> is_async (st_self s) = false ->
  iteration ext cfg lv s = Ok lv' s' ->
  (step_count lv' + pending s'
   = step_count lv + pending s + Z.of_nat (env_num (st_self s)))%Z.
Proof.
  intros Hall [_ Hready] Ha H. specialize (Hready Ha).
  apply iteration_Ok in H
    as (s1 & lv1 & s2 & last & s3 & r & s4 & act & s5 & lv2 & s6 & s7 &
        s8 & lv3 & s9 & s10 &
        H1 & H2 & H3 & H4 & H5 & H6 & H7 & H8 & H9 & H10 & H11).
  pose proof (take_subset_counters _ _ _ _ H2) as C2.
  pose proof (step_env_counters _ _ _ _ _ _ H6) as [C6 _].
  pose proof (scatter_back_counters _ _ _ _ H11) as C11.
  assert (sync_ready s s8) as [_ Hr8].
  { destruct (phases_sync ext cfg lv last r act)
      as (P1 & P2 & P3 & P4 & P5 & _ & P7 & P8).
    destruct (phases_sync ext cfg lv1 last r act)
      as (_ & _ & _ & _ & _ & P6 & _).
    eapply sync_ready_trans; [exact (sync_ready_Ok _ _ _ _ P1 H1)|].
    eapply sync_ready_trans; [exact (sync_ready_Ok _ _ _ _ P2 H2)|].
    eapply sync_ready_trans; [exact (sync_ready_Ok _ _ _ _ P3 H3)|].
    eapply sync_ready_trans; [exact (sync_ready_Ok _ _ _ _ P4 H4)|].
    eapply sync_ready_trans; [exact (sync_ready_Ok _ _ _ _ P5 H5)|].
    eapply sync_ready_trans; [exact (sync_ready_Ok _ _ _ _ P6 H6)|].
    eapply sync_ready_trans; [exact (sync_ready_Ok _ _ _ _ P7 H7)|].
    exact (sync_ready_Ok _ _ _ _ P8 H8). }
  specialize (Hr8 Ha).
  apply keeps_caches in H1; [|caches_phase].
  apply keeps_caches in H2; [|caches_phase].
  apply keeps_caches in H3; [|caches_phase].
  apply keeps_caches in H4; [|caches_phase].
  apply keeps_caches in H5; [|caches_phase].
  apply keeps_caches in H6; [|caches_phase].
  apply keeps_caches in H7; [|caches_phase].
  apply keeps_caches in H8; [|caches_phase].
  apply keeps_caches in H10; [|caches_phase].
  apply keeps_caches in H11; [|caches_phase].
  unfold bookkeeping in H9. apply bind_Ok in H9 as (self & s8' & Hs & H9).
  apply get_self_Ok in Hs as [-> ->].
  apply bookkeep_pending in H9; [|done].
  rewrite Hr8, Hready, length_seq in H9.
  unfold counters in *.
  assert (step_count lv' = step_count lv3) as -> by congruence.
  assert (step_count lv2 = step_count lv) as <- by congruence.
  unfold pending in *. rewrite H11, H10.
  rewrite H8, H7, H6, H5, H4, H3, H2, H1 in H9. exact H9.
Qed.

Lemma iterate_pending k : forall lv s lv' s',
  (forall i lv, is_counted cfg i lv = Success true) ->
  well_formed s -> is_async (st_self s) = false ->
  iterate ext cfg k lv s = Ok lv' s' ->
  (step_count lv' + pending s'
   = step_count lv + pending s + Z.of_nat (k * env_num (st_self s)))%Z.
Proof.
  induction k as [|k IH]; intros lv s lv' s' Hall Hwf Ha H; cbn in H.
  - apply ret_Ok in H as [-> ->]. cbn. lia.
  - apply bind_Ok in H as (lv1 & s1 & H1 & H).
    pose proof (sync_ready_Ok _ _ _ _ (iteration_sync ext cfg lv) H1)
      as Hsync.
    pose proof (sync_ready_well_formed _ _ Hsync Hwf) as Hwf1.
    destruct Hsync as [E _]. injection E as En Easync _.
    apply iteration_pending in H1; [|done..].
    apply IH in H; [|done|done|congruence].
    rewrite <- En in H. lia.
Qed.

End whole.

(** With no terminal transition left in the episode caches, what a
    returning [collect] counted, and appended to the buffer, are whole
    episodes: each ends with the transition whose [done] was read as
    true and holds no other terminal transition; ['n/ep'] is their
    number, ['n/st'] the number of their transitions, and the caches are
    again without a terminal transition. *)
Theorem collect_appends_whole_episodes {W} (ext : Externals W) (cfg : Config)
    (fuel : nat) (s : State W) stats s' :
  Forall (fun e => in_progress e = true) (_cached_buf (st_self s)) ->
  collect ext cfg fuel s = Returned stats s' ->
  exists eps,
    buffer (st_self s') = buffer_after (buffer (st_self s)) eps /\
    n_ep stats = Z.of_nat (length eps) /\
    n_st stats = Z.of_nat (length (concat eps)) /\
    Forall (fun e => whole_episode e = true) eps /\
    Forall (fun e => in_progress e = true) (_cached_buf (st_self s')).
Proof.
  intros Hp H. apply collect_Returned in H as (lv & s2 & _ & Hloop & Hstat).
  destruct (collect_loop_outcome ext cfg fuel (init_locals (st_self s))
              (final_state (call (time_time ext) s))
              (env_num (st_self s)) (buffer (st_self s)))
    as (_ & _ & Hret).
  { apply init_locals_ok. }
  { cbn. by rewrite buffer_after_nil. }
  destruct (Hret _ _ Hloop) as ([_ _ Hst Hep _] & Hbuf & _).
  apply collect_loop_Returned in Hloop as (k & _ & Hit & _).
  apply iterate_whole in Hit as [Hw Hp2]; [|split; [by constructor|exact Hp]].
  pose proof (stable_Ok _ _ _ _ _ (statistics_quiet ext _ lv) Hstat) as Hq.
  unfold view_but_counters in Hq. injection Hq as _ _ Hq _ _.
  pose proof (keeps_caches _ _ _ _ (statistics_caches ext _ lv) Hstat)
    as Hc.
  apply statistics_Ok in Hstat as (_ & _ & _ & Hnep & Hnst & _).
  exists (flushed lv). split_and!.
  - congruence.
  - by rewrite Hnep, Hep.
  - by rewrite Hnst, Hst, episodes_len_concat.
  - exact Hw.
  - unfold caches_view in Hc. by rewrite Hc.
Qed.

Lemma collect_appends_whole_episodes_witness :
  exists stats s' eps,
    collect (bench 2) scenario_102 10 (bench_start 2 3 false (Some []))
    = Returned stats s' /\
    buffer (st_self s') = Some (concat eps) /\
    n_ep stats = Z.of_nat (length eps) /\
    n_st stats = Z.of_nat (length (concat eps)) /\
    Forall (fun e => whole_episode e = true) eps.
Proof.
  assert (exists stats s',
    collect (bench 2) scenario_102 10 (bench_start 2 3 false (Some []))
    = Returned stats s') as (stats & s' & Hrun).
  { vm_compute. eexists _, _. reflexivity. }
  assert (Forall (fun e => in_progress e = true)
            (_cached_buf (st_self (bench_start 2 3 false (Some [])))))
    as Hopen.
  { vm_compute. repeat constructor. }
  destruct (collect_appends_whole_episodes _ _ _ _ _ _ Hopen Hrun)
    as (eps & Hbuf & Hep & Hst & Hw & _).
  exists stats, s', eps.
  split_and!; [exact Hrun|exact Hbuf|exact Hep|exact Hst|exact Hw].
Defined.

(** ** No transition is lost *)

(** With a step target or a scalar episode target every finished
    episode is counted, so a collector in synchronous simulation loses
    no transition: after [k] iterations, what the call counted and what
    waits in the episode caches is what waited before the call and the
    [k * env_num] transitions stepped since. *)
Theorem collect_keeps_every_transition {W} (ext : Externals W) (cfg : Config)
    (fuel : nat) (s : State W) stats s' :
  step_truthy (n_step cfg) = true \/ np_isscalar (n_episode cfg) = true ->
  well_formed s -> is_async (st_self s) = false ->
  collect ext cfg fuel s = Returned stats s' ->
  exists k,
    steps_of (st_trace s') = k + steps_of (st_trace s) /\
    (n_st stats + pending s'
     = pending s + Z.of_nat (k * env_num (st_self s)))%Z.
Proof.
  intros Htarget Hwf Ha H.
  assert (forall i lv, is_counted cfg i lv = Success true) as Hall.
  { intros i lv. unfold is_counted.
    destruct Htarget as [-> | Hsc]; [done|].
    rewrite Hsc. by destruct (step_truthy (n_step cfg)). }
  apply collect_Returned in H as (lv & s2 & _ & Hloop & Hstat).
  apply collect_loop_Returned in Hloop as (k & _ & Hit & _).
  destruct (iterate_counts ext cfg _ _ _ _ _ (env_num (st_self s))
              (buffer (st_self s)) Hit) as (_ & _ & _ & Hsteps & _).
  { apply init_locals_ok. }
  { cbn. by rewrite buffer_after_nil. }
  apply iterate_pending in Hit; [|done..].
  pose proof (stable_Ok _ _ _ _ _ (statistics_quiet ext _ lv) Hstat) as Hq.
  unfold view_but_counters in Hq. injection Hq as _ _ _ Hq _.
  pose proof (keeps_caches _ _ _ _ (statistics_caches ext _ lv) Hstat) as Hc.
  apply statistics_Ok in Hstat as (_ & _ & _ & _ & Hnst & _).
  exists (S k). split; [by rewrite <- Hq|].
  change (pending (final_state (call (time_time ext) s))) with (pending s)
    in Hit.
  change (env_num (st_self (final_state (call (time_time ext) s))))
    with (env_num (st_self s)) in Hit.
  change (step_count (init_locals _)) with 0%Z in Hit.
  unfold pending in *. rewrite Hc, Hnst. lia.
Qed.

Lemma collect_keeps_every_transition_witness :
  exists stats s' k,
    collect (bench 2) (mkConfig (Some 5%Z) PyNone false None) 10
      (bench_start 2 3 false None) = Returned stats s' /\
    steps_of (st_trace s')
    = k + steps_of (st_trace (bench_start 2 3 false None)) /\
    (n_st stats + pending s'
     = pending (bench_start 2 3 false None) + Z.of_nat (k * 3))%Z.
Proof.
  assert (exists stats s',
    collect (bench 2) (mkConfig (Some 5%Z) PyNone false None) 10
      (bench_start 2 3 false None) = Returned stats s')
    as (stats & s' & Hrun).
  { vm_compute. eexists _, _. reflexivity. }
  assert (well_formed (bench_start 2 3 false None)) as Hwf.
  { split; [reflexivity|]. intros _. reflexivity. }
  destruct (collect_keeps_every_transition (bench 2)
              (mkConfig (Some 5%Z) PyNone false None) 10
              (bench_start 2 3 false None) stats s'
              (or_introl eq_refl) Hwf eq_refl Hrun)
    as (k & Hsteps & Hsum).
  exists stats, s', k. split_and!; [exact Hrun|exact Hsteps|exact Hsum].
Defined.
